(** * vscode-simple-tracker: the day-bucketed time tracker

    A shallow embedding of the [TimeManager] class of the year-file
    variant of the tracker (schema [v2]: counters [seconds], [branches],
    [tasks], [debugs] per project and per day, [saves] per day), followed by
    the properties of its persistence, mutation and aggregation paths. The
    persistence and query methods of the variant that keeps one file per day
    are embedded in the module [PerDay].

    Conventions of the embedding.
    - A JavaScript object used as a dictionary is a [gmap string _]; the
      names inherited from [Object.prototype] and the enumeration order of
      keys are not modelled (no result proved here depends on them).
    - A member that may be missing from a parsed JSON document is an
      [option]; for a numeric member [None] stands for [undefined] and for
      the [NaN] that arithmetic on [undefined] produces: [!x] and [x + y]
      treat the two alike, and the store itself never receives a [NaN].
    - JavaScript numbers are exact rationals ([Q]); rounding of doubles is
      not modelled.
    - Every reading of the clock made by one synchronous call returns the
      same [Date]; an [async] method runs without interleaving. *)

From Stdlib Require Import QArith Qround.
From stdpp Require Import gmap strings list fin_maps pretty.

Open Scope Z_scope.

(** ** JavaScript values used by the tracker *)

Module JS.

(** [Date]: the instant in milliseconds since the epoch, and the offset of
    local time in minutes as [getTimezoneOffset] reports it. *)
Record Date := mkDate { getTime : Z; getTimezoneOffset : Z }.

(** Local civil day number (days since 1970-01-01 in local time). *)
Definition localDay (d : Date) : Z :=
  (getTime d - getTimezoneOffset d * 60000) `div` 86400000.

(** Proleptic Gregorian calendar: year, month (1..12) and day of month of a
    civil day number. *)
Definition civil (n : Z) : Z * Z * Z :=
  let z := n + 719468 in
  let era := z `div` 146097 in
  let doe := z - era * 146097 in
  let yoe := (doe - doe `div` 1460 + doe `div` 36524 - doe `div` 146096) `div` 365 in
  let doy := doe - (365 * yoe + yoe `div` 4 - yoe `div` 100) in
  let mp := (5 * doy + 2) `div` 153 in
  let d := doy - (153 * mp + 2) `div` 5 + 1 in
  let m := if decide (mp < 10) then mp + 3 else mp - 9 in
  let y := yoe + era * 400 + (if decide (m ≤ 2) then 1 else 0) in
  (y, m, d).

Definition getFullYear (d : Date) : Z := (civil (localDay d)).1.1.
Definition getMonth (d : Date) : Z := (civil (localDay d)).1.2 - 1.
Definition getDate (d : Date) : Z := (civil (localDay d)).2.

(** [setDate] moves the date by whole days; a day of the month out of range
    rolls over into the neighbouring months. The offset of local time is
    taken to be the same on both days. *)
Definition setDate (d : Date) (dayOfMonth : Z) : Date :=
  mkDate (getTime d + (dayOfMonth - getDate d) * 86400000) (getTimezoneOffset d).

(** [!x] for a number: [undefined], [NaN] and zero are falsy. *)
Definition falsy_num (x : option Q) : bool :=
  match x with
  | None => true
  | Some q => Qeq_bool q 0
  end.

(** [!s] for a string: [undefined] and the empty string are falsy. *)
Definition truthy_str (x : option string) : bool :=
  match x with
  | None | Some EmptyString => false
  | Some _ => true
  end.

(** [x + y] on numbers. *)
Definition add (x y : option Q) : option Q :=
  match x, y with
  | Some a, Some b => Some (a + b)%Q
  | _, _ => None
  end.

(** [Math.max(0, x)]. *)
Definition max0 (x : Q) : Q := if Qlt_le_dec 0 x then x else 0%Q.

(** [[...new Set(l)]]: the elements of [l] in order of first insertion. *)
Definition set_add (acc : list string) (x : string) : list string :=
  if decide (x ∈ acc) then acc else acc ++ [x].

Definition Set_of (l : list string) : list string := foldl set_add [] l.

End JS.

Import JS.

Arguments truthy_str : simpl never.
Arguments falsy_num : simpl never.
Arguments max0 : simpl never.
Arguments Set_of : simpl never.

(** ** Data model *)

Record TrackerDetails := mkDetails {
  branches : option (list string);
  tasks : option Q;
  debugs : option Q;
  seconds : option Q
}.

Record DayData := mkDay {
  projects : option (gmap string TrackerDetails);
  saves : option (gmap string Q)
}.

Inductive SchemaVersion := v1 | v2.

Definition CURRENT_SCHEMA_VERSION : SchemaVersion := v2.

Record TrackerFile := mkFile {
  version : SchemaVersion;
  days : gmap string DayData
}.

Record TimeManager := mkManager {
  store : TrackerFile;
  activeProjects : gmap string Date
}.

#[global] Instance SchemaVersion_eq_dec : EqDecision SchemaVersion.
Proof. solve_decision. Defined.

(** [new TimeManager()]. *)
Definition newTimeManager : TimeManager :=
  mkManager (mkFile CURRENT_SCHEMA_VERSION ∅) ∅.

(** ** Exceptions *)

Inductive exn := IOError | SyntaxError | TypeError.

Inductive result (A : Type) :=
  | Ok (a : A)
  | Throw (e : exn).
Arguments Ok {A} a.
Arguments Throw {A} e.

(** ** The tracker file

    The text of a file is kept as what [JSON.parse] makes of it: a document
    that parses is taken to have the shape of [TrackerFile], any member
    below [days] possibly missing. [JSON.stringify] drops the members that
    are [undefined], so on this shape it is the inverse of [JSON.parse]. A
    write is taken to succeed. *)
Inductive contents :=
  | Garbage
  | Json (f : TrackerFile).

Inductive file :=
  | Missing
  | Unreadable
  | Text (c : contents).

Definition readFile (disk : file) : result contents :=
  match disk with
  | Missing | Unreadable => Throw IOError
  | Text c => Ok c
  end.

Definition writeFile (c : contents) : file := Text c.

Definition JSON_parse (c : contents) : result TrackerFile :=
  match c with
  | Garbage => Throw SyntaxError
  | Json f => Ok f
  end.

Definition JSON_stringify (f : TrackerFile) : contents := Json f.

(** ** Methods

    A method of an object with state [S]: it runs on the object and returns
    or throws, leaving the object as it was at that point. *)
Definition M (S A : Type) : Type := S → result A * S.

Definition ret {S A} (a : A) : M S A := λ s, (Ok a, s).
Definition throw {S A} (e : exn) : M S A := λ s, (Throw e, s).
Definition bind {S A B} (c : M S A) (k : A → M S B) : M S B :=
  λ s, match c s with
       | (Ok a, s') => k a s'
       | (Throw e, s') => (Throw e, s')
       end.
Definition try_catch {S A} (c : M S A) (h : exn → M S A) : M S A :=
  λ s, match c s with
       | (Ok a, s') => (Ok a, s')
       | (Throw e, s') => h e s'
       end.
Definition lift {S A} (r : result A) : M S A := λ s, (r, s).

#[global] Instance M_ret {S} : MRet (M S) := @ret S.
#[global] Instance M_bind {S} : MBind (M S) := λ A B k c, bind c k.

(** [for (const x of l) body(x)]: stops at the first exception. *)
Fixpoint for_each {S A} (l : list A) (body : A → M S unit) : M S unit :=
  match l with
  | [] => ret tt
  | x :: l' => body x;; for_each l' body
  end.

(** The methods of [TimeManager] and the members they read and write. *)
Abbreviation Method := (M TimeManager).

Definition get_store : Method TrackerFile := λ s, (Ok (store s), s).
Definition set_store (f : TrackerFile) : Method unit :=
  λ s, (Ok tt, mkManager f (activeProjects s)).
Definition get_active : Method (gmap string Date) := λ s, (Ok (activeProjects s), s).
Definition set_active (a : gmap string Date) : Method unit :=
  λ s, (Ok tt, mkManager (store s) a).

(** ** Clock helpers of the module *)

Definition secondsSize (now pastTime : Date) : Q :=
  (getTime now - getTime pastTime) # 1000.

Definition dateString (now : Date) (minusDays : Z) : string :=
  let specificDate := setDate now (getDate now - minusDays) in
  pretty (getDate specificDate) +:+ "/" +:+
  pretty (getMonth specificDate + 1) +:+ "/" +:+
  pretty (getFullYear specificDate).

Arguments secondsSize : simpl never.
Arguments dateString : simpl never.

(** ** [TimeManager] *)

Record WorkspaceFolder := mkFolder { name : string }.

Record ProjectFilter := mkFilter { id : option string; all : option bool }.

(** [{ seconds: 0, branches: [], tasks: 0, debugs: 0 }] *)
Definition freshDetails : TrackerDetails :=
  mkDetails (Some []) (Some 0%Q) (Some 0%Q) (Some 0%Q).

(** The four repairs that [fixProject] makes on an entry that exists. An
    array, even an empty one, is truthy. *)
Definition fixDetails (d : TrackerDetails) : TrackerDetails :=
  mkDetails
    (match branches d with None => Some [] | Some b => Some b end)
    (if falsy_num (tasks d) then Some 0%Q else tasks d)
    (if falsy_num (debugs d) then Some 0%Q else debugs d)
    (if falsy_num (seconds d) then Some 0%Q else seconds d).

Definition fixProject (pid : string) (ps : gmap string TrackerDetails)
  : gmap string TrackerDetails :=
  match ps !! pid with
  | Some d => <[pid := fixDetails d]> ps
  | None => <[pid := freshDetails]> ps
  end.

(** [for (const k in m) body(k)] on a state that cannot throw. *)
Definition for_in {A S} (m : gmap string A) (body : string → S → S) (s : S) : S :=
  foldl (λ acc k, body k acc) s (map_to_list m).*1.

(** The body of [validateDaySchema] on the entry of the chosen day. *)
Definition validateDay (day : option DayData) (project : ProjectFilter) : DayData :=
  let day0 := default (mkDay (Some ∅) (Some ∅)) day in
  let ps := default ∅ (projects day0) in
  let sv := default ∅ (saves day0) in
  let ps' :=
    if truthy_str (id project) then fixProject (default "" (id project)) ps
    else if decide (all project = Some true) then for_in ps fixProject ps
    else ps in
  mkDay (Some ps') (Some sv).

Definition validateDaySchema (chosenDay : string) (project : ProjectFilter) : Method unit :=
  s ← get_store;
  set_store
    (mkFile (version s)
            (<[chosenDay := validateDay (days s !! chosenDay) project]> (days s))).

Definition load (disk : file) : Method unit :=
  try_catch
    (contents ← lift (readFile disk);
     parsed ← lift (JSON_parse contents);
     set_store parsed;;
     if decide (version parsed ≠ CURRENT_SCHEMA_VERSION) then
       for_each (map_to_list (days parsed)).*1
                (λ day, validateDaySchema day (mkFilter None (Some true)));;
       s ← get_store;
       set_store (mkFile CURRENT_SCHEMA_VERSION (days s))
     else mret tt)
    (λ _, mret tt).

(** The loop of [checkForChanges] over [Object.keys(this.activeProjects)].
    Reading a member of [undefined] and assigning into [undefined] throw. *)
Fixpoint mergeActive (pids : list string)
    (memProjects updatedProjects : option (gmap string TrackerDetails))
  : result (option (gmap string TrackerDetails)) :=
  match pids with
  | [] => Ok updatedProjects
  | pid :: rest =>
      match memProjects with
      | None => Throw TypeError
      | Some mp =>
          match mp !! pid with
          | Some d =>
              match updatedProjects with
              | None => Throw TypeError
              | Some up => mergeActive rest memProjects (Some (<[pid := d]> up))
              end
          | None => mergeActive rest memProjects updatedProjects
          end
      end
  end.

(** [days] is a member of every [TrackerFile], so of the three tests of the
    guard only the two on today's entries can fire. *)
Definition checkForChanges (disk : file) (now : Date) : Method unit :=
  loadedContents ← lift (readFile disk);
  loadedStore ← lift (JSON_parse loadedContents);
  let today := dateString now 0 in
  s ← get_store;
  match days s !! today, days loadedStore !! today with
  | Some memDay, Some loadedDay =>
      a ← get_active;
      updatedProjects ←
        lift (mergeActive (map_to_list a).*1 (projects memDay) (projects loadedDay));
      set_store
        (mkFile (version s)
                (<[today := mkDay updatedProjects (saves memDay)]> (days s)))
  | _, _ => mret tt
  end.

(** [save] returns the file it has written. *)
Definition save (disk : file) (now : Date) : Method file :=
  checkForChanges disk now;;
  s ← get_store;
  let contents := JSON_stringify s in
  mret (writeFile contents).

Definition getTracking (m : TimeManager) : list string :=
  (map_to_list (activeProjects m)).*1.

(** One turn of the loop of [updateDetails] for each member that [details]
    (a [Partial<TrackerDetails>]) carries: an array is merged into a set,
    a member listed in [ADD_PROPS] is added. Every member that is not an
    array is in [ADD_PROPS], so the overwriting branch has no case. *)
Definition applyDetails (existingData details : TrackerDetails) : TrackerDetails :=
  mkDetails
    (match branches details with
     | Some bs => Some (Set_of (default [] (branches existingData) ++ bs))
     | None => branches existingData
     end)
    (match tasks details with
     | Some v => add (tasks existingData) (Some v)
     | None => tasks existingData
     end)
    (match debugs details with
     | Some v => add (debugs existingData) (Some v)
     | None => debugs existingData
     end)
    (match seconds details with
     | Some v => add (seconds existingData) (Some v)
     | None => seconds existingData
     end).

(** Whether the loop over the members of [details] has a turn at all. *)
Definition hasMember (details : TrackerDetails) : bool :=
  bool_decide (is_Some (branches details)) || bool_decide (is_Some (tasks details))
  || bool_decide (is_Some (debugs details)) || bool_decide (is_Some (seconds details)).

(** [existingData] is [undefined] when the entry is missing; the loop then
    throws on its first turn. *)
Definition updateDetails (now : Date) (projectId : string) (details : TrackerDetails)
  : Method unit :=
  let today := dateString now 0 in
  validateDaySchema today (mkFilter (Some projectId) None);;
  s ← get_store;
  match days s !! today with
  | Some day =>
      match projects day with
      | Some ps =>
          match ps !! projectId with
          | Some existingData =>
              set_store
                (mkFile (version s)
                   (<[today :=
                        mkDay (Some (<[projectId := applyDetails existingData details]> ps))
                              (saves day)]> (days s)))
          | None => if hasMember details then throw TypeError else mret tt
          end
      | None => throw TypeError
      end
  | None => throw TypeError
  end.

Definition addBranch (now : Date) (ws : WorkspaceFolder) (branch : string) : Method unit :=
  updateDetails now (name ws) (mkDetails (Some [branch]) None None None).

Definition incrementTasks (now : Date) (ws : WorkspaceFolder) : Method unit :=
  updateDetails now (name ws) (mkDetails None (Some 1%Q) None None).

Definition incrementDebugs (now : Date) (ws : WorkspaceFolder) : Method unit :=
  updateDetails now (name ws) (mkDetails None None (Some 1%Q) None).

Definition addSave (now : Date) (ext : string) : Method unit :=
  let today := dateString now 0 in
  validateDaySchema today (mkFilter None None);;
  s ← get_store;
  match days s !! today with
  | Some day =>
      match saves day with
      | Some sv =>
          let count := if falsy_num (sv !! ext) then 0%Q else default 0%Q (sv !! ext) in
          set_store
            (mkFile (version s)
               (<[today := mkDay (projects day) (Some (<[ext := (count + 1)%Q]> sv))]>
                  (days s)))
      | None => throw TypeError
      end
  | None => throw TypeError
  end.

Definition startTracking (now : Date) (ws : WorkspaceFolder) : Method unit :=
  a ← get_active;
  set_active (<[name ws := now]> a).

Definition updateDaySeconds (now : Date) (specificProject : string) : Method unit :=
  a ← get_active;
  match a !! specificProject with
  | None => mret tt
  | Some start =>
      let seconds := max0 (secondsSize now start) in
      updateDetails now specificProject (mkDetails None None None (Some seconds));;
      a' ← get_active;
      set_active (<[specificProject := now]> a')
  end.

Definition updateAllDaySeconds (now : Date) : Method unit :=
  a ← get_active;
  for_each (map_to_list a).*1 (λ wsName, updateDaySeconds now wsName).

Definition endTracking (now : Date) (ws : WorkspaceFolder) : Method unit :=
  updateDaySeconds now (name ws);;
  a ← get_active;
  set_active (delete (name ws) a).

(** The live adjustment of [getStats] on one entry of the copy. *)
Definition liveSeconds (now : Date) (active : gmap string Date)
    (wsName : string) (d : TrackerDetails) : TrackerDetails :=
  match active !! wsName with
  | Some activeProjectStarted =>
      let secondsSinceThen := secondsSize now activeProjectStarted in
      mkDetails (branches d) (tasks d) (debugs d)
                (add (seconds d) (Some secondsSinceThen))
  | None => d
  end.

(** [getStats]: [None] is [undefined]. The copy made through
    [JSON.stringify] and [JSON.parse] is the value itself here; the module
    [Heap] below keeps the identities of the objects. *)
Definition getStats (now : Date) (day : string) (m : TimeManager) : option DayData :=
  match days (store m) !! day with
  | Some stored =>
      let storedStats := stored in
      if decide (day = dateString now 0) then
        match projects storedStats with
        | Some ps =>
            Some (mkDay
                    (Some (for_in ps
                             (λ wsName, alter (liveSeconds now (activeProjects m) wsName) wsName)
                             ps))
                    (saves storedStats))
        | None => Some storedStats
        end
      else Some storedStats
  | None => None
  end.

(** [getDays]: without an amount, or with the amount zero, the keys of the
    store object itself, reversed. *)
Definition getDays (now : Date) (lastAmount : option Z) : list string :=
  match lastAmount with
  | Some n =>
      if decide (n = 0) then ["days"; "version"]
      else (λ i : nat, dateString now (Z.of_nat i)) <$> seq 0 (Z.to_nat n)
  | None => ["days"; "version"]
  end.

(** One turn of the loop of [getStatsForPeriod]. *)
Definition addDayStats (project : string) (dayStats : option DayData)
    (stats : TrackerDetails) : result TrackerDetails :=
  match dayStats with
  | None => Ok stats
  | Some d =>
      match projects d with
      | None => Throw TypeError
      | Some ps =>
          match ps !! project with
          | None => Ok stats
          | Some e =>
              Ok (mkDetails
                    (match branches e with
                     | Some bs => Some (Set_of (default [] (branches stats) ++ bs))
                     | None => branches stats
                     end)
                    (add (tasks stats) (tasks e))
                    (add (debugs stats) (debugs e))
                    (add (seconds stats) (seconds e)))
          end
      end
  end.

Fixpoint sumDays (now : Date) (project : string) (dayKeys : list string)
    (stats : TrackerDetails) (m : TimeManager) : result TrackerDetails :=
  match dayKeys with
  | [] => Ok stats
  | day :: rest =>
      match addDayStats project (getStats now day m) stats with
      | Ok stats' => sumDays now project rest stats' m
      | Throw e => Throw e
      end
  end.

Definition getStatsForPeriod (now : Date) (project : string) (days : Z)
    (m : TimeManager) : result TrackerDetails :=
  let dayKeys := getDays now (Some days) in
  let stats := freshDetails in
  sumDays now project dayKeys stats m.

(** ** Reading the store *)

Definition projectsAt (f : TrackerFile) (day : string) : gmap string TrackerDetails :=
  default ∅ (days f !! day ≫= projects).

Definition savesAt (f : TrackerFile) (day : string) : gmap string Q :=
  default ∅ (days f !! day ≫= saves).

(** The entry of a project once [fixProject] has run on it. *)
Definition touch (pid : string) (ps : gmap string TrackerDetails) : TrackerDetails :=
  match ps !! pid with
  | Some d => fixDetails d
  | None => freshDetails
  end.

Definition setDay (m : TimeManager) (day : string) (d : DayData) : TimeManager :=
  mkManager (mkFile (version (store m)) (<[day := d]> (days (store m))))
            (activeProjects m).

Arguments setDay : simpl never.

(** The seconds and the branches on record for a project on a day: zero and
    none when there is no entry. *)
Definition recordedSeconds (f : TrackerFile) (day p : string) : Q :=
  default 0%Q (projectsAt f day !! p ≫= seconds).

Definition branchesAt (f : TrackerFile) (day p : string) : list string :=
  default [] (projectsAt f day !! p ≫= branches).

(** What a settle at [now] adds for [p]: the clamped time since the start of
    its session, nothing without a session. *)
Definition settled (now : Date) (active : gmap string Date) (p : string) : Q :=
  match active !! p with
  | Some start => max0 (secondsSize now start)
  | None => 0%Q
  end.

(** How many times [b] occurs in a list of branches. *)
Definition occurrences (b : string) (l : list string) : nat :=
  length (filter (λ x, x = b) l).

(** Today's ledger holds an entry for [p] in repaired form whose branches are
    distinct and include [b]. *)
Definition hasBranch (today p b : string) (m : TimeManager) : Prop :=
  ∃ ps sv e bs,
    days (store m) !! today = Some (mkDay (Some ps) (Some sv))
    ∧ ps !! p = Some e
    ∧ fixDetails e = e
    ∧ branches e = Some bs
    ∧ NoDup bs
    ∧ b ∈ bs.

(** No project has a negative number of seconds on record. *)
Definition nonnegStore (f : TrackerFile) : Prop :=
  ∀ day p, (0 <= recordedSeconds f day p)%Q.

(** ** Per-day values of a project, for the aggregation

    What a day holds for [p] as a query sees it: the stored entry, with the
    session in progress added when the day is today. *)
Definition reported (now : Date) (m : TimeManager) (day p : string)
  : option TrackerDetails :=
  (if decide (day = dateString now 0)
   then liveSeconds now (activeProjects m) p else λ e, e)
  <$> projectsAt (store m) day !! p.

(** The key of the day at offset [i] backward from today. *)
Definition dayKey (now : Date) (i : nat) : string := dateString now (Z.of_nat i).

Definition Qsum (l : list Q) : Q := foldr Qplus 0%Q l.

(** Sum of a numeric member of [p] over the days at offsets [0..n-1]; a day
    without an entry counts zero. *)
Definition periodSum (member : TrackerDetails → option Q)
    (now : Date) (m : TimeManager) (p : string) (n : nat) : Q :=
  Qsum ((λ i, default 0%Q (reported now m (dayKey now i) p ≫= member)) <$> seq 0 n).

(** The branch lists of [p] over the days at offsets [0..n-1], one after the
    other; a day without an entry gives none. *)
Definition periodBranches (now : Date) (m : TimeManager) (p : string) (n : nat)
  : list string :=
  mjoin ((λ i, default [] (reported now m (dayKey now i) p ≫= branches)) <$> seq 0 n).

(** ** The schema invariant *)

Definition completeDetails (d : TrackerDetails) : Prop :=
  is_Some (branches d) ∧ is_Some (tasks d) ∧ is_Some (debugs d) ∧ is_Some (seconds d).

Definition completeDay (d : DayData) : Prop :=
  is_Some (saves d) ∧
  match projects d with
  | Some ps => map_Forall (λ _, completeDetails) ps
  | None => False
  end.

Definition completeStore (f : TrackerFile) : Prop :=
  map_Forall (λ _, completeDay) (days f).

#[global] Instance completeDetails_dec d : Decision (completeDetails d).
Proof. unfold completeDetails. apply _. Defined.

#[global] Instance completeDay_dec d : Decision (completeDay d).
Proof. unfold completeDay. destruct (projects d); apply _. Defined.

#[global] Instance completeStore_dec f : Decision (completeStore f).
Proof. unfold completeStore. apply _. Defined.

(** A method keeps the schema on an instance when it returns normally there
    and the store it leaves satisfies the invariant. *)
Definition keepsSchema (c : Method unit) (m : TimeManager) : Prop :=
  ∃ m', c m = (Ok tt, m') ∧ completeStore (store m').

(** ** The ledger as a graph of objects

    [getStats] hands a ledger to its caller, and JavaScript objects are
    shared by reference. Here a ledger is a graph in a heap: [getStats] is
    modelled again with the objects it allocates and writes, so that what a
    caller can reach from the result is told apart from what the store
    holds. *)

Module Heap.

Abbreviation loc := positive (only parsing).

Inductive object :=
  | Details (branches : option loc) (tasks debugs seconds : option Q)
  | Branches (items : list string)
  | Projects (entries : gmap string loc)
  | Saves (counts : gmap string Q)
  | Day (projects saves : option loc).

Abbreviation heap := (gmap positive object) (only parsing).

(** A new object gets a location that is not in use. *)
Definition alloc (o : object) (h : heap) : loc * heap :=
  let l := fresh (dom h) in (l, <[l := o]> h).

(** [JSON.stringify] walks the graph from a ledger. A member that is
    [undefined] is left out; so is, to keep the walk total, a reference that
    does not lead to an object of the kind its member has. *)
Definition readBranches (h : heap) (b : option loc) : option (list string) :=
  match b with
  | Some l => match h !! l with Some (Branches items) => Some items | _ => None end
  | None => None
  end.

Definition readDetails (h : heap) (l : loc) : option TrackerDetails :=
  match h !! l with
  | Some (Details b t d s) => Some (mkDetails (readBranches h b) t d s)
  | _ => None
  end.

Definition readProjects (h : heap) (l : loc) : option (gmap string TrackerDetails) :=
  match h !! l with
  | Some (Projects entries) => Some (omap (readDetails h) entries)
  | _ => None
  end.

Definition readSaves (h : heap) (l : loc) : option (gmap string Q) :=
  match h !! l with
  | Some (Saves counts) => Some counts
  | _ => None
  end.

Definition stringify (h : heap) (l : loc) : option DayData :=
  match h !! l with
  | Some (Day p s) => Some (mkDay (p ≫= readProjects h) (s ≫= readSaves h))
  | _ => None
  end.

(** [JSON.parse] builds the graph of a ledger out of new objects. *)
Definition parseBranches (b : option (list string)) (h : heap) : option loc * heap :=
  match b with
  | Some items => let '(l, h') := alloc (Branches items) h in (Some l, h')
  | None => (None, h)
  end.

Definition parseDetails (d : TrackerDetails) (h : heap) : loc * heap :=
  let '(b, h1) := parseBranches (branches d) h in
  alloc (Details b (tasks d) (debugs d) (seconds d)) h1.

Definition parseEntry (k : string) (d : TrackerDetails)
    (acc : gmap string loc * heap) : gmap string loc * heap :=
  let '(l, h') := parseDetails d acc.2 in (<[k := l]> acc.1, h').

Definition parseProjects (ps : gmap string TrackerDetails) (h : heap) : loc * heap :=
  let '(entries, h1) := map_fold parseEntry (∅, h) ps in
  alloc (Projects entries) h1.

Definition parseDay (d : DayData) (h : heap) : loc * heap :=
  let '(p, h1) :=
    match projects d with
    | Some ps => let '(l, h') := parseProjects ps h in (Some l, h')
    | None => (None, h)
    end in
  let '(s, h2) :=
    match saves d with
    | Some sv => let '(l, h') := alloc (Saves sv) h1 in (Some l, h')
    | None => (None, h1)
    end in
  alloc (Day p s) h2.

(** [o.seconds += q] on the object at a location. *)
Definition addSeconds (q : Q) (o : object) : object :=
  match o with
  | Details b t d s => Details b t d (add s (Some q))
  | _ => o
  end.

(** The entries of [storedStats.projects], none when the member is missing. *)
Definition entriesOf (h : heap) (l : loc) : gmap string loc :=
  match h !! l with
  | Some (Day (Some pl) _) =>
      match h !! pl with Some (Projects entries) => entries | _ => ∅ end
  | _ => ∅
  end.

(** One turn of the loop of [getStats] over the copy. *)
Definition liveTurn (now : Date) (active : gmap string Date)
    (entries : gmap string loc) (wsName : string) (h : heap) : heap :=
  match active !! wsName with
  | Some activeProjectStarted =>
      let secondsSinceThen := secondsSize now activeProjectStarted in
      match entries !! wsName with
      | Some dl => alter (addSeconds secondsSinceThen) dl h
      | None => h
      end
  | None => h
  end.

(** [getStats] on the heap: [days] gives the ledger object of each day of the
    store. The result is the location of the copy, or [None] for
    [undefined], and the heap after the call. *)
Definition getStats (now : Date) (day : string)
    (days : gmap string loc) (active : gmap string Date) (h : heap)
  : option loc * heap :=
  match days !! day with
  | Some l =>
      match stringify h l with
      | Some json =>
          let '(storedStats, h1) := parseDay json h in
          if decide (day = dateString now 0) then
            let entries := entriesOf h1 storedStats in
            (Some storedStats, for_in entries (liveTurn now active entries) h1)
          else (Some storedStats, h1)
      | None => (None, h)
      end
  | None => (None, h)
  end.

(** The locations of the objects of a ledger. *)
Definition locsDetails (h : heap) (l : loc) : gset loc :=
  {[l]} ∪ match h !! l with
          | Some (Details (Some b) _ _ _) => {[b]}
          | _ => ∅
          end.

Definition locsProjects (h : heap) (l : loc) : gset loc :=
  {[l]} ∪ match h !! l with
          | Some (Projects entries) =>
              map_fold (λ _ dl acc, locsDetails h dl ∪ acc) ∅ entries
          | _ => ∅
          end.

Definition locsDay (h : heap) (l : loc) : gset loc :=
  {[l]} ∪ match h !! l with
          | Some (Day p s) =>
              from_option (locsProjects h) ∅ p ∪ from_option singleton ∅ s
          | _ => ∅
          end.

(** A location stands for a value when the graph under it spells the value
    out, every reference leading to an object of its kind: what [JSON.parse]
    builds. Two entries of a projects object are two objects. *)
Definition repDetails (h : heap) (l : loc) (d : TrackerDetails) : Prop :=
  ∃ b,
    h !! l = Some (Details b (tasks d) (debugs d) (seconds d))
    ∧ match b, branches d with
      | Some bl, Some items => h !! bl = Some (Branches items)
      | None, None => True
      | _, _ => False
      end.

Definition repProjects (h : heap) (l : loc) (ps : gmap string TrackerDetails) : Prop :=
  ∃ entries,
    h !! l = Some (Projects entries)
    ∧ (∀ k, match entries !! k, ps !! k with
            | Some dl, Some d => repDetails h dl d
            | None, None => True
            | _, _ => False
            end)
    ∧ (∀ k1 k2 dl, entries !! k1 = Some dl → entries !! k2 = Some dl → k1 = k2).

Definition repDay (h : heap) (l : loc) (d : DayData) : Prop :=
  ∃ p s,
    h !! l = Some (Day p s)
    ∧ match p, projects d with
      | Some pl, Some ps => repProjects h pl ps
      | None, None => True
      | _, _ => False
      end
    ∧ match s, saves d with
      | Some sl, Some sv => h !! sl = Some (Saves sv)
      | None, None => True
      | _, _ => False
      end.

(** The ledger that a result of [getStats] spells out. *)
Definition ledgerAt (h : heap) (r : option loc) : option DayData :=
  r ≫= stringify h.

(** The instance that a heap and the ledger objects of the days stand for. *)
Definition instance (days : gmap string loc) (active : gmap string Date) (h : heap)
  : TimeManager :=
  mkManager (mkFile CURRENT_SCHEMA_VERSION (omap (stringify h) days)) active.

End Heap.

(** ** Running a method *)

Definition state_after {S A} (c : M S A) (m : S) : S := (c m).2.

Definition value_of {S A} (c : M S A) (m : S) : result A := (c m).1.

(** Whatever way [c] ends, the state it leaves is related by [P] to the one
    it started on. *)
Definition preserves {S A} (P : S → S → Prop) (c : M S A) : Prop :=
  ∀ s r s', c s = (r, s') → P s s'.

(** ** The variant with one file per day

    In this variant a [DayManager] owns the file of one day and the
    [TimeManager] holds one [DayManager] per day it has touched. Loading,
    merging and saving are the methods of [DayManager]; they follow the
    year-file methods above, with the day's ledger in the place of
    [days[today]], and the merge reads the file under a [try] of its own. *)

Module PerDay.

Record TrackerFile := mkFile {
  version : SchemaVersion;
  day : option DayData
}.

Definition CURRENT_SCHEMA_VERSION : SchemaVersion := v1.

(** The text of the file of a day; [Blank] is the empty text, falsy as a
    string and refused by [JSON.parse]. *)
Inductive contents :=
  | Blank
  | Garbage
  | Json (f : TrackerFile).

Inductive file :=
  | Missing
  | Unreadable
  | Text (c : contents).

Definition readFile (disk : file) : result contents :=
  match disk with
  | Missing | Unreadable => Throw IOError
  | Text c => Ok c
  end.

Definition writeFile (c : contents) : file := Text c.

Definition JSON_parse (c : contents) : result TrackerFile :=
  match c with
  | Blank | Garbage => Throw SyntaxError
  | Json f => Ok f
  end.

Definition JSON_stringify (f : TrackerFile) : contents := Json f.

Record DayManager := mkDayManager {
  doesExist : bool;
  store : TrackerFile
}.

(** [new DayManager(dateString)] *)
Definition newDayManager : DayManager :=
  mkDayManager false (mkFile CURRENT_SCHEMA_VERSION (Some (mkDay (Some ∅) (Some ∅)))).

Definition get_store : M DayManager TrackerFile := λ s, (Ok (store s), s).
Definition set_store (f : TrackerFile) : M DayManager unit :=
  λ s, (Ok tt, mkDayManager (doesExist s) f).
Definition set_exists (b : bool) : M DayManager unit :=
  λ s, (Ok tt, mkDayManager b (store s)).

(** The static [validateDaySchema] on [this.store.day]: reading a member of
    a day that is [undefined] throws. *)
Definition validate (project : ProjectFilter) : M DayManager unit :=
  s ← get_store;
  match day s with
  | Some dayObj => set_store (mkFile (version s) (Some (validateDay (Some dayObj) project)))
  | None => throw TypeError
  end.

Definition load (disk : file) : M DayManager unit :=
  try_catch
    (contents ← lift (readFile disk);
     parsed ← lift (JSON_parse contents);
     set_store parsed;;
     (if decide (version parsed ≠ CURRENT_SCHEMA_VERSION) then
        validate (mkFilter None (Some true));;
        s ← get_store;
        set_store (mkFile CURRENT_SCHEMA_VERSION (day s))
      else mret tt);;
     set_exists true)
    (λ _, set_exists false).

Definition checkForChanges (disk : file) (activeProjects : gmap string Date)
  : M DayManager unit :=
  let loadedContents :=
    match readFile disk with
    | Ok (Json f) => Some (Json f)
    | Ok Garbage => Some Garbage
    | Ok Blank | Throw _ => None
    end in
  match loadedContents with
  | None => mret tt
  | Some c =>
      loadedStore ← lift (JSON_parse c);
      s ← get_store;
      match day s, day loadedStore with
      | Some memDay, Some loadedDay =>
          updatedProjects ←
            lift (mergeActive (map_to_list activeProjects).*1
                    (projects memDay) (projects loadedDay));
          set_store (mkFile (version s) (Some (mkDay updatedProjects (saves memDay))))
      | _, _ => mret tt
      end
  end.

(** [save] returns the file it has written. *)
Definition save (disk : file) (activeProjects : gmap string Date) : M DayManager file :=
  checkForChanges disk activeProjects;;
  s ← get_store;
  let contents := JSON_stringify s in
  set_exists true;;
  mret (writeFile contents).

(** [TimeManager.getStats] of this variant on a day whose [DayManager] is
    resident: a copy of the ledger when the file of the day exists, and no
    live adjustment. [JSON.stringify] of a ledger that is [undefined] gives
    [undefined], which [JSON.parse] refuses. *)
Definition getStats (d : DayManager) : result (option DayData) :=
  if doesExist d then
    match day (store d) with
    | Some stats => Ok (Some stats)
    | None => Throw SyntaxError
    end
  else Ok None.

(** The key of a day in this variant. *)
Definition dateString (now : Date) (minusDays : Z) : string :=
  let specificDate := setDate now (getDate now - minusDays) in
  pretty (getDate specificDate) +:+ "-" +:+
  pretty (getMonth specificDate + 1) +:+ "-" +:+
  pretty (getFullYear specificDate).

(** [DayManager.updateDetails] and [DayManager.addSave]: as in the year-file
    manager, on the ledger of the day that the manager owns. *)
Definition updateDetails (projectId : string) (details : TrackerDetails)
  : M DayManager unit :=
  validate (mkFilter (Some projectId) None);;
  s ← get_store;
  match day s with
  | Some d =>
      match projects d with
      | Some ps =>
          match ps !! projectId with
          | Some existingProjects =>
              set_store
                (mkFile (version s)
                   (Some (mkDay
                            (Some (<[projectId := applyDetails existingProjects details]> ps))
                            (saves d))))
          | None => if hasMember details then throw TypeError else mret tt
          end
      | None => throw TypeError
      end
  | None => throw TypeError
  end.

Definition addSave (ext : string) : M DayManager unit :=
  validate (mkFilter None None);;
  s ← get_store;
  match day s with
  | Some d =>
      match saves d with
      | Some sv =>
          let count := if falsy_num (sv !! ext) then 0%Q else default 0%Q (sv !! ext) in
          set_store
            (mkFile (version s)
               (Some (mkDay (projects d) (Some (<[ext := (count + 1)%Q]> sv)))))
      | None => throw TypeError
      end
  | None => throw TypeError
  end.

(** [TimeManager] of this variant: the managers of the days it has touched
    and the sessions. *)
Record TimeManager := mkManager {
  days : gmap string DayManager;
  activeProjects : gmap string Date
}.

Definition newTimeManager : TimeManager := mkManager ∅ ∅.

(** The directory of the tracker: the file of each day under its key; a key
    without a file is a file that is missing. [mkdir] is taken to succeed. *)
Definition fileOf (dir : gmap string file) (key : string) : file :=
  default Missing (dir !! key).

Definition get_active : M TimeManager (gmap string Date) :=
  λ m, (Ok (activeProjects m), m).
Definition set_active (a : gmap string Date) : M TimeManager unit :=
  λ m, (Ok tt, mkManager (days m) a).
Definition set_manager (key : string) (d : DayManager) : M TimeManager unit :=
  λ m, (Ok tt, mkManager (<[key := d]> (days m)) (activeProjects m)).

(** A method called on [this.days[key]]: a [TypeError] when there is no
    manager under the key. The manager is an object of its own, kept under
    the key with whatever the method did to it. *)
Definition on_manager {A} (key : string) (c : M DayManager A) : M TimeManager A :=
  λ m, match days m !! key with
       | Some d =>
           match c d with
           | (r, d') => (r, mkManager (<[key := d']> (days m)) (activeProjects m))
           end
       | None => (Throw TypeError, m)
       end.

Definition getTracking (m : TimeManager) : list string :=
  (map_to_list (activeProjects m)).*1.

Definition tm_load (now : Date) (dir : gmap string file) : M TimeManager unit :=
  let today := dateString now 0 in
  let todayManager := state_after (load (fileOf dir today)) newDayManager in
  set_manager today todayManager.

(** [save] returns the directory as it is afterwards. *)
Definition tm_save (now : Date) (dir : gmap string file)
  : M TimeManager (gmap string file) :=
  let today := dateString now 0 in
  λ m, match days m !! today with
       | None => (Ok dir, m)
       | Some _ =>
           match on_manager today (save (fileOf dir today) (activeProjects m)) m with
           | (Ok written, m') => (Ok (<[today := written]> dir), m')
           | (Throw e, m') => (Throw e, m')
           end
       end.

(** [getStats(day)]: the manager of a day that has none yet is created and
    loaded first. *)
Definition ensure_manager (day : string) (dir : gmap string file)
  : M TimeManager unit :=
  λ m, match days m !! day with
       | Some _ => (Ok tt, m)
       | None =>
           set_manager day (state_after (load (fileOf dir day)) newDayManager) m
       end.

Definition read_manager (day : string) : M TimeManager (option DayData) :=
  λ m, match days m !! day with
       | Some d => (getStats d, m)
       | None => (Ok None, m)
       end.

Definition tm_getStats (day : string) (dir : gmap string file)
  : M TimeManager (option DayData) :=
  ensure_manager day dir;;
  read_manager day.

Definition getDays (now : Date) (lastAmount : Z) : list string :=
  (λ i : nat, dateString now (Z.of_nat i)) <$> seq 0 (Z.to_nat lastAmount).

Fixpoint sumDays (project : string) (dayKeys : list string) (dir : gmap string file)
    (stats : TrackerDetails) : M TimeManager TrackerDetails :=
  match dayKeys with
  | [] => mret stats
  | day :: rest =>
      dayStats ← tm_getStats day dir;
      stats' ← lift (addDayStats project dayStats stats);
      sumDays project rest dir stats'
  end.

Definition getStatsForPeriod (now : Date) (project : string) (days : Z)
    (dir : gmap string file) : M TimeManager TrackerDetails :=
  sumDays project (getDays now days) dir freshDetails.

Definition startTracking (now : Date) (ws : WorkspaceFolder) : M TimeManager unit :=
  a ← get_active;
  set_active (<[name ws := now]> a).

Definition updateDaySeconds (now : Date) (specificProject : string)
  : M TimeManager unit :=
  a ← get_active;
  match a !! specificProject with
  | None => mret tt
  | Some start =>
      let seconds := max0 (secondsSize now start) in
      on_manager (dateString now 0)
        (updateDetails specificProject (mkDetails None None None (Some seconds)));;
      a' ← get_active;
      set_active (<[specificProject := now]> a')
  end.

Definition updateAllDaySeconds (now : Date) : M TimeManager unit :=
  a ← get_active;
  for_each (map_to_list a).*1 (λ wsName, updateDaySeconds now wsName).

Definition endTracking (now : Date) (ws : WorkspaceFolder) : M TimeManager unit :=
  updateDaySeconds now (name ws);;
  a ← get_active;
  set_active (delete (name ws) a).

Definition addBranch (now : Date) (ws : WorkspaceFolder) (branch : string)
  : M TimeManager unit :=
  on_manager (dateString now 0)
    (updateDetails (name ws) (mkDetails (Some [branch]) None None None)).

Definition incrementTasks (now : Date) (ws : WorkspaceFolder) : M TimeManager unit :=
  on_manager (dateString now 0)
    (updateDetails (name ws) (mkDetails None (Some 1%Q) None None)).

Definition incrementDebugs (now : Date) (ws : WorkspaceFolder) : M TimeManager unit :=
  on_manager (dateString now 0)
    (updateDetails (name ws) (mkDetails None None (Some 1%Q) None)).

Definition tm_addSave (now : Date) (ext : string) : M TimeManager unit :=
  on_manager (dateString now 0) (addSave ext).

(** The calls that record something. *)
Inductive Call :=
  | StartTracking (ws : WorkspaceFolder)
  | EndTracking (ws : WorkspaceFolder)
  | UpdateAllDaySeconds
  | AddBranch (ws : WorkspaceFolder) (branch : string)
  | IncrementTasks (ws : WorkspaceFolder)
  | IncrementDebugs (ws : WorkspaceFolder)
  | AddSave (ext : string).

Definition call (c : Date * Call) : M TimeManager unit :=
  match c.2 with
  | StartTracking ws => startTracking c.1 ws
  | EndTracking ws => endTracking c.1 ws
  | UpdateAllDaySeconds => updateAllDaySeconds c.1
  | AddBranch ws branch => addBranch c.1 ws branch
  | IncrementTasks ws => incrementTasks c.1 ws
  | IncrementDebugs ws => incrementDebugs c.1 ws
  | AddSave ext => tm_addSave c.1 ext
  end.

(** The calls made one after the other, each caller going on whether the
    call before threw or not. *)
Definition calls (l : list (Date * Call)) (m : TimeManager) : TimeManager :=
  foldl (λ m c, state_after (call c) m) m l.

(** The managers stay where they are, each with its flag. *)
Definition sameManagers (m m' : TimeManager) : Prop :=
  ∀ key, doesExist <$> days m' !! key = doesExist <$> days m !! key.

End PerDay.

(** ** An instance in order

    The store satisfies the schema and holds no negative seconds, and no
    session runs under the empty name. *)
Definition sane (m : TimeManager) : Prop :=
  completeStore (store m)
  ∧ nonnegStore (store m)
  ∧ activeProjects m !! "" = None.

(** [c] started in a state where [P] holds returns normally, in a state
    where [Q] holds of its result. *)
Definition returns {S A} (P : S → Prop) (c : M S A) (Q : A → S → Prop) : Prop :=
  ∀ s, P s → ∃ a s', c s = (Ok a, s') ∧ Q a s'.

(** ** The extension around the year-file manager

    [activate] creates the tracker, loads the file and registers the
    handlers; afterwards the host calls a handler per event. One event reads
    one value of the clock. The folders of the workspace, the branch that
    Git reports and the extension of a file name come from the host and are
    carried by the events. A handler that throws ends there; the tracker and
    the status bar stay as the handler left them. The promise of [save] is
    not awaited by the heartbeat: its rejection reaches nobody. The events
    are those delivered between [activate] and the disposal of the
    subscriptions. *)

Module Extension.

(** [Math.trunc] and [x % y] on numbers: the remainder has the sign of the
    dividend. *)
Definition Qtrunc (x : Q) : Z := Z.quot (Qnum x) (Z.pos (Qden x)).

Definition rem (x y : Q) : Q := (x - y * inject_Z (Qtrunc (x / y)))%Q.

Definition hoursOf (seconds : Q) : Z := Qfloor (seconds / 3600).

Definition minutesOf (seconds : Q) : Z := Qfloor (rem seconds 3600 / 60).

(** An integer below [10^21] in magnitude prints in decimal; [NaN] prints
    as [NaN]. *)
Definition formatSeconds (seconds : option Q) : string :=
  match seconds with
  | Some s =>
      let hours := hoursOf s in
      let minutes := minutesOf s in
      pretty hours +:+ "h " +:+ pretty minutes +:+ "m"
  | None => "NaNh NaNm"
  end.

Definition newline : string := String (Ascii.ascii_of_nat 10) "".

(** [...(d.branches!.length ? [line] : [])] *)
Definition branchLine (d : TrackerDetails) : result (list string) :=
  match branches d with
  | Some bs =>
      Ok (if decide (length bs = 0%nat) then []
          else ["* $(git-branch) worked on " +:+ String.concat ", " bs])
  | None => Throw TypeError
  end.

(** One turn of the loop of [getStatsMd]; [last] tells whether the project
    is the last of the list. *)
Definition projectMd (now : Date) (m : TimeManager) (id : string) (last : bool)
  : result (list string) :=
  match getStatsForPeriod now id 1 m with
  | Throw e => Throw e
  | Ok today =>
      match getStatsForPeriod now id 7 m with
      | Throw e => Throw e
      | Ok week =>
          match branchLine today, branchLine week with
          | Ok tb, Ok wb =>
              Ok (["### " +:+ id; ""; "#### Today"; "";
                   "* $(history) " +:+ formatSeconds (seconds today)]
                  ++ tb
                  ++ [""; "#### This Week"; "";
                      "* $(history) " +:+ formatSeconds (seconds week)]
                  ++ wb
                  ++ (if last then [] else [""; "---"; ""]))
          | Throw e, _ => Throw e
          | _, Throw e => Throw e
          end
      end
  end.

Fixpoint projectsMd (now : Date) (m : TimeManager) (projectIds : list string)
  : result (list string) :=
  match projectIds with
  | [] => Ok []
  | id :: rest =>
      match projectMd now m id (bool_decide (rest = [])) with
      | Throw e => Throw e
      | Ok lines =>
          match projectsMd now m rest with
          | Throw e => Throw e
          | Ok more => Ok (lines ++ more)
          end
      end
  end.

Definition getStatsMd (now : Date) (workspaceFolders : option (list WorkspaceFolder))
    (m : TimeManager) : result string :=
  let projectIds :=
    match workspaceFolders with
    | Some folders => name <$> folders
    | None => []
    end in
  match projectsMd now m projectIds with
  | Throw e => Throw e
  | Ok markdown => Ok (String.concat newline markdown)
  end.

(** The tracker, its file and the status bar item. *)
Record World := mkWorld {
  disk : file;
  tracker : TimeManager;
  interval : bool;
  text : string;
  shown : bool;
  tooltip : option string
}.

Definition get_tracker : M World TimeManager := λ w, (Ok (tracker w), w).
Definition get_disk : M World file := λ w, (Ok (disk w), w).
Definition set_disk (d : file) : M World unit :=
  λ w, (Ok tt, mkWorld d (tracker w) (interval w) (text w) (shown w) (tooltip w)).
Definition set_tracker (m : TimeManager) : M World unit :=
  λ w, (Ok tt, mkWorld (disk w) m (interval w) (text w) (shown w) (tooltip w)).
Definition set_interval (b : bool) : M World unit :=
  λ w, (Ok tt, mkWorld (disk w) (tracker w) b (text w) (shown w) (tooltip w)).
Definition set_text (s : string) : M World unit :=
  λ w, (Ok tt, mkWorld (disk w) (tracker w) (interval w) s (shown w) (tooltip w)).
Definition show : M World unit :=
  λ w, (Ok tt, mkWorld (disk w) (tracker w) (interval w) (text w) true (tooltip w)).
Definition set_tooltip (s : string) : M World unit :=
  λ w, (Ok tt, mkWorld (disk w) (tracker w) (interval w) (text w) (shown w) (Some s)).

Definition with_tracker (w : World) (m : TimeManager) : World :=
  mkWorld (disk w) m (interval w) (text w) (shown w) (tooltip w).

(** A method of the tracker run from a handler. *)
Definition on_tracker {A} (c : Method A) : M World A :=
  λ w, match c (tracker w) with
       | (r, m) =>
           (r, mkWorld (disk w) m (interval w) (text w) (shown w) (tooltip w))
       end.

Definition updateStats (now : Date) (workspaceFolders : option (list WorkspaceFolder))
  : M World unit :=
  m ← get_tracker;
  md ← lift (getStatsMd now workspaceFolders m);
  set_tooltip md.

(** [tracker.save()] with nobody awaiting: the file is written when [save]
    gets that far, and a rejection is dropped. *)
Definition backupSave (now : Date) : M World unit :=
  try_catch
    (d ← get_disk;
     written ← on_tracker (save d now);
     set_disk written)
    (λ _, mret tt).

(** The callback of [setInterval]. *)
Definition heartbeat (now : Date) (workspaceFolders : option (list WorkspaceFolder))
  : M World unit :=
  m ← get_tracker;
  set_text ("$(clock) " +:+ pretty (length (getTracking m)));;
  on_tracker (updateAllDaySeconds now);;
  updateStats now workspaceFolders;;
  backupSave now.

Definition activate (now : Date) (workspaceFolders : option (list WorkspaceFolder))
  : M World unit :=
  set_tracker newTimeManager;;
  d ← get_disk;
  on_tracker (load d);;
  match workspaceFolders with
  | Some folders =>
      set_text ("$(clock) " +:+ pretty (length folders));;
      show;;
      set_interval true;;
      for_each folders (λ folder, on_tracker (startTracking now folder))
  | None => mret tt
  end.

(** The world before [activate]: the file as it is on disk, nothing shown. *)
Definition boot (d : file) : World := mkWorld d newTimeManager false "" false None.

(** The world once [activate] has run. *)
Definition activated (now : Date) (workspaceFolders : option (list WorkspaceFolder))
    (d : file) : World :=
  state_after (activate now workspaceFolders) (boot d).

(** The scope of a task: one of the two global scopes, which are numbers,
    or a folder. *)
Inductive TaskScope :=
  | Global
  | Workspace
  | Folder (ws : WorkspaceFolder).

Inductive Event :=
  | Tick (now : Date) (workspaceFolders : option (list WorkspaceFolder))
  | DidSaveTextDocument (now : Date) (ws : option WorkspaceFolder)
      (branch : option string) (extname : string)
  | DidChangeWorkspaceFolders (now : Date) (added removed : list WorkspaceFolder)
  | DidStartTask (now : Date) (scope : option TaskScope)
  | DidStartDebugSession (now : Date) (workspaceFolder : option WorkspaceFolder).

Definition handler (e : Event) : M World unit :=
  match e with
  | Tick now workspaceFolders =>
      λ w, if interval w then heartbeat now workspaceFolders w else (Ok tt, w)
  | DidSaveTextDocument now ws branch extname =>
      match ws with
      | Some ws =>
          if truthy_str branch
          then on_tracker (addBranch now ws (default "" branch))
          else mret tt
      | None => mret tt
      end;;
      on_tracker (addSave now extname)
  | DidChangeWorkspaceFolders now added removed =>
      for_each added (λ folder, on_tracker (startTracking now folder));;
      for_each removed (λ folder, on_tracker (endTracking now folder))
  | DidStartTask now scope =>
      match scope with
      | Some (Folder ws) => on_tracker (incrementTasks now ws)
      | _ => mret tt
      end
  | DidStartDebugSession now workspaceFolder =>
      match workspaceFolder with
      | Some ws => on_tracker (incrementDebugs now ws)
      | None => mret tt
      end
  end.

(** The host runs the handler and carries on whatever it does. *)
Definition step (w : World) (e : Event) : World := state_after (handler e) w.

Definition run (events : list Event) (w : World) : World := foldl step w events.

(** The folders that an event names all have a name. *)
Definition named (e : Event) : Prop :=
  match e with
  | Tick _ _ => True
  | DidSaveTextDocument _ ws _ _ => from_option (λ ws, name ws ≠ "") True ws
  | DidChangeWorkspaceFolders _ added removed =>
      Forall (λ ws, name ws ≠ "") added ∧ Forall (λ ws, name ws ≠ "") removed
  | DidStartTask _ scope =>
      match scope with
      | Some (Folder ws) => name ws ≠ ""
      | _ => True
      end
  | DidStartDebugSession _ ws => from_option (λ ws, name ws ≠ "") True ws
  end.

(** The projects that have a session once the host has reported a change of
    the folders. *)
Definition tracked (sessions : gset string) (e : Event) : gset string :=
  match e with
  | DidChangeWorkspaceFolders _ added removed =>
      (sessions ∪ list_to_set (name <$> added)) ∖ list_to_set (name <$> removed)
  | _ => sessions
  end.

(** The tracker and the file are in order: the tracker is sane and a file
    that parses satisfies the schema and holds no negative seconds. *)
Definition healthy (w : World) : Prop :=
  sane (tracker w)
  ∧ ∀ f, disk w = Text (Json f) → completeStore f ∧ nonnegStore f.

(** The file is untouched, or it held a document that parsed and holds one
    now. *)
Definition fileKept (w w' : World) : Prop :=
  disk w' = disk w
  ∨ ((∃ f, disk w = Text (Json f)) ∧ ∃ f', disk w' = Text (Json f')).

(** The same projects have a session. *)
Definition sameSessions (w w' : World) : Prop :=
  dom (activeProjects (tracker w')) = dom (activeProjects (tracker w)).

End Extension.

(** ** The branch that Git reports

    The Git extension is looked up through the host. What the host answers
    can change from one call to the next: the extension may be missing, the
    way to its API may throw, or the API is there; the repositories and their
    heads are read through the API at each call. *)

Module Git.

(** [Branch], with its optional [name]; [Repository], with the optional
    [HEAD] of its state. *)
Record Branch := mkBranch { branch_name : option string }.

Record Repository := mkRepository { HEAD : option Branch }.

(** What [extensions.getExtension(`vscode.git`)?.exports.getAPI(1)] comes to. *)
Inductive Lookup :=
  | NoExtension
  | Fails
  | Api.

#[global] Instance Lookup_eq_dec : EqDecision Lookup.
Proof. solve_decision. Defined.

Record Host := mkHost {
  lookup : Lookup;
  getRepository : string → option Repository
}.

(** The two variables of the module; both start [undefined]. *)
Record Cache := mkCache {
  gitLookedUp : bool;
  gitAPI : bool
}.

Definition initial : Cache := mkCache false false.

(** [getGitAPI]: whether there is an API to use. An exception on the way
    to the API is caught and leaves [gitAPI] as it was; [gitLookedUp] is set
    in every case. *)
Definition getGitAPI (host : Host) : M Cache bool :=
  λ s,
    let s' :=
      if gitLookedUp s then s
      else
        mkCache true
          match lookup host with
          | Api => true
          | NoExtension => false
          | Fails => gitAPI s
          end in
    (Ok (gitAPI s'), s').

(** [getGitBranch] on the folder with the given [uri]. *)
Definition getGitBranch (host : Host) (uri : string) : M Cache (option string) :=
  bind (getGitAPI host) (λ gitApi : bool,
    if gitApi then
      match getRepository host uri with
      | Some repo => ret (HEAD repo ≫= branch_name)
      | None => ret None
      end
    else ret None).

End Git.

(** ** The first manager

    The manager as it was before the ledgers had a schema: a day holds its
    projects, an entry its seconds and, once a branch has been seen, its
    branches. Nothing is loaded, so the store holds what the methods have
    put there. A listener can be told of every change of the sessions. *)

Module First.

Record TrackerDetails := mkDetails {
  branches : option (list string);
  seconds : option Q
}.

Record Day := mkDay { projects : gmap string TrackerDetails }.

(** [notified] lists, latest first, the number of sessions that the
    listener has been handed at each call. *)
Record TimeManager := mkManager {
  store : gmap string Day;
  activeProjects : gmap string Date;
  changeEvent : bool;
  notified : list nat
}.

Definition newTimeManager : TimeManager := mkManager ∅ ∅ false [].

(** The month is the one [getMonth] gives, counted from zero. *)
Definition dateString (now : Date) : string :=
  pretty (getDate now) +:+ "/" +:+ pretty (getMonth now) +:+ "/" +:+
  pretty (getFullYear now).

Definition trigger (m : TimeManager) : TimeManager :=
  if changeEvent m
  then mkManager (store m) (activeProjects m) true
         (size (activeProjects m) :: notified m)
  else m.

Definition startTracking (now : Date) (ws : WorkspaceFolder) (m : TimeManager)
  : TimeManager :=
  trigger (mkManager (store m) (<[name ws := now]> (activeProjects m))
             (changeEvent m) (notified m)).

(** The entry of today for the project, when there is one. *)
Definition getProjectDetails (now : Date) (ws : WorkspaceFolder) (m : TimeManager)
  : option TrackerDetails :=
  store m !! dateString now ≫= λ day, projects day !! name ws.

Definition put (now : Date) (ws : WorkspaceFolder) (e : TrackerDetails)
    (m : TimeManager) : TimeManager :=
  let today := dateString now in
  let ps := from_option projects ∅ (store m !! today) in
  mkManager (<[today := mkDay (<[name ws := e]> ps)]> (store m))
    (activeProjects m) (changeEvent m) (notified m).

(** [addBranch]. With an entry, [details] is the entry itself: it gets its
    list of branches there and then, and the branch is pushed onto that
    list before [updateDetails] copies the entry over itself. Without an
    entry, [details] is a new object and [updateDetails] starts the entry at
    zero seconds. *)
Definition addBranch (now : Date) (ws : WorkspaceFolder) (branch : string)
    (m : TimeManager) : TimeManager :=
  match getProjectDetails now ws m with
  | Some e =>
      let bs := default [] (branches e) in
      if decide (branch ∈ bs) then put now ws (mkDetails (Some bs) (seconds e)) m
      else put now ws (mkDetails (Some (bs ++ [branch])) (seconds e)) m
  | None => put now ws (mkDetails (Some [branch]) (Some 0%Q)) m
  end.

Definition endTracking (now : Date) (ws : WorkspaceFolder) (m : TimeManager)
  : TimeManager :=
  match activeProjects m !! name ws with
  | None => m
  | Some start =>
      let seconds' := max0 (secondsSize now start) in
      let e := default (mkDetails None (Some 0%Q)) (getProjectDetails now ws m) in
      let m1 := put now ws (mkDetails (branches e) (add (seconds e) (Some seconds'))) m in
      trigger (mkManager (store m1) (delete (name ws) (activeProjects m1))
                 (changeEvent m1) (notified m1))
  end.

(** The seconds and the branches on record. *)
Definition recordedSeconds (m : TimeManager) (day p : string) : Q :=
  default 0%Q ((store m !! day ≫= λ d, projects d !! p) ≫= seconds).

Definition branchesAt (m : TimeManager) (day p : string) : list string :=
  default [] ((store m !! day ≫= λ d, projects d !! p) ≫= branches).

(** Every entry has its seconds. *)
Definition timed (m : TimeManager) : Prop :=
  ∀ day d p e, store m !! day = Some d → projects d !! p = Some e → is_Some (seconds e).

End First.

(** ** The calendar, backward

    The day number of a date of the proleptic Gregorian calendar: the
    inverse of [civil], used to tell the keys of different days apart. *)

Module Calendar.

Definition from_civil (ymd : Z * Z * Z) : Z :=
  let '(y, m, d) := ymd in
  let y' := if decide (m ≤ 2) then y - 1 else y in
  let era := y' `div` 400 in
  let yoe := y' - era * 400 in
  let mp := if decide (2 < m) then m - 3 else m + 9 in
  let doy := (153 * mp + 2) `div` 5 + d - 1 in
  let doe := yoe * 365 + yoe `div` 4 - yoe `div` 100 + doy in
  era * 146097 + doe - 719468.

(** A month of the year and a day of the month. *)
Definition in_calendar (ymd : Z * Z * Z) : bool :=
  bool_decide (1 ≤ ymd.1.2 ≤ 12) && bool_decide (1 ≤ ymd.2 ≤ 31).

(** [from_civil] undoes [civil] on the [n] days from [i] on, and [civil]
    gives dates of the calendar there. *)
Fixpoint round_trips (n : nat) (i : Z) : bool :=
  match n with
  | O => true
  | S n' =>
      let ymd := civil i in
      bool_decide (from_civil ymd = i) && in_calendar ymd
      && round_trips n' (i + 1)
  end.

(** The separators of the keys, and a string without a given character. *)
Definition slash : Ascii.ascii := Ascii.ascii_of_nat 47.
Definition dash : Ascii.ascii := Ascii.ascii_of_nat 45.

Fixpoint lacks (c : Ascii.ascii) (s : string) : bool :=
  match s with
  | EmptyString => true
  | String c' s' => negb (bool_decide (c' = c)) && lacks c s'
  end.

End Calendar.

(** ** The session in progress in a report

    What the live adjustment of [getStats] adds to the seconds of [p] on
    [day]: the time since the start of its session when [day] is today and
    the ledger of today holds an entry for [p]. *)
Definition liveShare (now : Date) (m : TimeManager) (day p : string) : Q :=
  if decide (day = dateString now 0) then
    match projectsAt (store m) day !! p, activeProjects m !! p with
    | Some _, Some start => secondsSize now start
    | _, _ => 0%Q
    end
  else 0%Q.

(** The time of a session that no report shows yet: the session of a
    project without an entry in the ledger of today. *)
Definition unreported (now : Date) (m : TimeManager) (p : string) : Q :=
  match projectsAt (store m) (dateString now 0) !! p, activeProjects m !! p with
  | None, Some start => secondsSize now start
  | _, _ => 0%Q
  end.

(** No session has started after [now]. *)
Definition startedBy (now : Date) (m : TimeManager) : Prop :=
  map_Forall (λ _ start, getTime start ≤ getTime now) (activeProjects m).

(** No entry of the file holds negative seconds; this can be checked entry
    by entry. *)
Definition nonnegEntries (f : TrackerFile) : Prop :=
  map_Forall (λ _ d,
    map_Forall (λ _ e, Qle_bool 0 (default 0%Q (seconds e)) = true)
               (default ∅ (projects d)))
    (days f).

(** ** The other counters on record *)

Definition recordedTasks (f : TrackerFile) (day p : string) : Q :=
  default 0%Q (projectsAt f day !! p ≫= tasks).

Definition recordedDebugs (f : TrackerFile) (day p : string) : Q :=
  default 0%Q (projectsAt f day !! p ≫= debugs).

(** How many saves of documents with extension [ext] a day has on record. *)
Definition saveCount (f : TrackerFile) (day ext : string) : Q :=
  default 0%Q (savesAt f day !! ext).

(** ** Scenarios

    Two windows of the editor, [A] and [B], share one tracker file. *)

Module Scenario.

(** 3 November 2026, 10:00 UTC, and [s] seconds later. *)
Definition t0 : Date := mkDate 1793700000000 0.
Definition after (s : Z) : Date := mkDate (getTime t0 + s * 1000) 0.
Definition today : string := dateString t0 0.

Definition X : WorkspaceFolder := mkFolder "X".
Definition Y : WorkspaceFolder := mkFolder "Y".

Definition emptyFile : TrackerFile := mkFile v2 ∅.

(** The file that [save] leaves, the file as it was when [save] throws. *)
Definition saved (disk : file) (now : Date) (m : TimeManager) : file :=
  match value_of (save disk now) m with
  | Ok disk' => disk'
  | Throw _ => disk
  end.

(** [B] loads the empty file, tracks [Y] for five seconds, records a branch
    and a save of a [.ts] document, and saves. *)
Definition B0 : TimeManager :=
  state_after (load (Text (Json emptyFile))) newTimeManager.
Definition B1 : TimeManager := state_after (startTracking t0 Y) B0.
Definition B2 : TimeManager := state_after (updateAllDaySeconds (after 5)) B1.
Definition B3 : TimeManager := state_after (addBranch (after 6) Y "main") B2.
Definition B4 : TimeManager := state_after (addSave (after 6) ".ts") B3.
Definition diskB : file := saved (Text (Json emptyFile)) (after 7) B4.
Definition fileB : TrackerFile := store (state_after (save (Text (Json emptyFile)) (after 7)) B4).

(** [A] has loaded the empty file before [B] wrote and tracks [X]. In [A1]
    nothing is settled yet; in [A2] the heartbeat has run after thirty
    seconds and a [.v] document has been saved. *)
Definition A0 : TimeManager :=
  state_after (load (Text (Json emptyFile))) newTimeManager.
Definition A1 : TimeManager := state_after (startTracking t0 X) A0.
Definition A2 : TimeManager :=
  state_after (addSave (after 31) ".v")
    (state_after (updateAllDaySeconds (after 30)) A1).

(** [A3] has saved a [.v] document and settled nothing: today's ledger is
    there, the entry of [X] is not. The file [fileX] holds an entry for [X]
    left by an earlier run. *)
Definition A3 : TimeManager := state_after (addSave (after 1) ".v") A1.
Definition fileX : TrackerFile :=
  mkFile v2
    {[ today := mkDay (Some {[ "X" := mkDetails (Some ["main"]) (Some 2%Q)
                                        (Some 0%Q) (Some 99%Q) ]})
                      (Some ∅) ]}.

(** A window [C] that has loaded yesterday's ledger, tracks [X], records a
    branch and runs the heartbeat after thirty seconds. *)
Definition histFile : TrackerFile :=
  mkFile v2
    {[ "2/11/2026" := mkDay (Some {[ "X" := mkDetails (Some ["main"]) (Some 1%Q)
                                              (Some 0%Q) (Some 100%Q) ]})
                            (Some ∅) ]}.
Definition C0 : TimeManager :=
  state_after (load (Text (Json histFile))) newTimeManager.
Definition C1 : TimeManager := state_after (startTracking t0 X) C0.
Definition C2 : TimeManager := state_after (addBranch (after 1) X "dev") C1.
Definition C3 : TimeManager := state_after (updateAllDaySeconds (after 30)) C2.

(** Today's ledger of [C] as objects in a heap, and a query made forty
    seconds after the start of the session. *)
Definition heapC : positive * gmap positive Heap.object :=
  Heap.parseDay (default (mkDay None None) (days (store C3) !! today)) ∅.
Definition refsC : gmap string positive := {[ today := heapC.1 ]}.
Definition queryC : option positive * gmap positive Heap.object :=
  Heap.getStats (after 40) today refsC (activeProjects C3) heapC.2.

(** A window [D] of the current version opens a file that the previous
    version of the tracker wrote earlier in the day: schema [v1], entries
    with [seconds] and [branches] alone. It tracks [X], runs the heartbeat
    and saves; a new window [E] then loads the file that [D] wrote. *)
Definition v1File : TrackerFile :=
  mkFile v1
    {[ today := mkDay (Some {[ "X" := mkDetails (Some ["main"]) None None (Some 60%Q);
                               "Y" := mkDetails (Some []) None None (Some 30%Q) ]})
                      (Some ∅) ]}.
Definition D0 : TimeManager :=
  state_after (load (Text (Json v1File))) newTimeManager.
Definition D1 : TimeManager := state_after (startTracking t0 X) D0.
Definition D2 : TimeManager := state_after (updateAllDaySeconds (after 30)) D1.
Definition D3 : TimeManager := state_after (save (Text (Json v1File)) (after 31)) D2.
Definition diskD : file := saved (Text (Json v1File)) (after 31) D2.
Definition E0 : TimeManager := state_after (load diskD) newTimeManager.

End Scenario.

(** * Properties *)

(** ** The calendar keys *)

Example dateString_epoch : dateString (mkDate 0 0) 0 = "1/1/1970".
Proof. vm_compute. reflexivity. Qed.

Example dateString_2026 :
  dateString (mkDate 1793664000000 0) 0 = "3/11/2026"
  ∧ dateString (mkDate 1793664000000 0) 3 = "31/10/2026"
  ∧ dateString (mkDate 1793664000000 (-60)) 0 = "3/11/2026"
  ∧ dateString (mkDate 1793664000000 60) 0 = "2/11/2026"
  ∧ dateString (mkDate 1709251200000 0) 1 = "29/2/2024".
Proof. vm_compute. repeat split; reflexivity. Qed.

(** ** Loops over the keys of a dictionary *)

Section for_in.
Context {A : Type}.
Implicit Types (m : gmap string A) (g : string → A → A).

Lemma foldl_alter_lookup g (l : list string) m i :
  NoDup l →
  foldl (λ acc k, alter (g k) k acc) m l !! i
  = if decide (i ∈ l) then g i <$> m !! i else m !! i.
Proof.
  revert m. induction l as [|k l IH]; intros m Hnd; simpl.
  - done.
  - apply NoDup_cons in Hnd as [Hk Hnd]. rewrite IH by done.
    destruct (decide (i = k)) as [->|Hne].
    + rewrite decide_False by done. rewrite decide_True by left.
      by rewrite lookup_alter_eq.
    + rewrite lookup_alter_ne by done.
      destruct (decide (i ∈ l)) as [Hin|Hin].
      * rewrite decide_True by (by right). done.
      * rewrite decide_False; [done|]. by intros [?|?]%elem_of_cons.
Qed.

(** A loop whose turn for [k] rewrites the entry of [k] alone is a map over
    the entries. *)
Lemma for_in_alter g m :
  for_in m (λ k, alter (g k) k) m = map_imap (λ k d, Some (g k d)) m.
Proof.
  apply map_eq; intros i. unfold for_in.
  rewrite foldl_alter_lookup by apply NoDup_fst_map_to_list.
  rewrite map_lookup_imap. destruct (m !! i) as [d|] eqn:Hi; simpl.
  - rewrite decide_True; [done|].
    apply list_elem_of_fmap. exists (i, d). split; [done|].
    by apply elem_of_map_to_list.
  - by case_decide.
Qed.
End for_in.

(** ** Normalisation *)

Lemma fixProject_touch pid ps : fixProject pid ps = <[pid := touch pid ps]> ps.
Proof. unfold fixProject, touch. by destruct (ps !! pid). Qed.

Lemma fixProject_alter pid ps :
  is_Some (ps !! pid) → fixProject pid ps = alter fixDetails pid ps.
Proof.
  intros [d Hd]. unfold fixProject. rewrite Hd.
  apply map_eq; intros i. destruct (decide (i = pid)) as [->|Hne].
  - by rewrite lookup_insert_eq, lookup_alter_eq, Hd.
  - by rewrite lookup_insert_ne, lookup_alter_ne.
Qed.

Lemma foldl_fixProject_alter (l : list string) (ps : gmap string TrackerDetails) :
  Forall (λ k, is_Some (ps !! k)) l →
  foldl (λ acc k, fixProject k acc) ps l
  = foldl (λ acc k, alter fixDetails k acc) ps l.
Proof.
  revert ps. induction l as [|k l IH]; intros ps Hl; [done|].
  apply Forall_cons in Hl as [Hk Hl]. simpl.
  rewrite fixProject_alter by done. apply IH.
  eapply Forall_impl; [exact Hl|]. intros j [d Hj]; simpl.
  destruct (decide (j = k)) as [->|Hne].
  - rewrite lookup_alter_eq, Hj. by eexists.
  - rewrite lookup_alter_ne by done. by eexists.
Qed.

(** The loop of [validateDaySchema] with [{all: true}] repairs every entry. *)
Lemma for_in_fixProject ps : for_in ps fixProject ps = fixDetails <$> ps.
Proof.
  unfold for_in. rewrite foldl_fixProject_alter.
  - pose proof (for_in_alter (λ _, fixDetails) ps) as H. unfold for_in in H.
    rewrite H. apply map_eq; intros i.
    rewrite map_lookup_imap, lookup_fmap. by destruct (ps !! i).
  - apply Forall_forall. intros k [[k' d] [-> Hin]]%list_elem_of_fmap.
    apply elem_of_map_to_list in Hin. by eexists.
Qed.

Lemma fixDetails_complete d : completeDetails (fixDetails d).
Proof.
  unfold completeDetails, fixDetails; simpl.
  destruct (branches d), (falsy_num (tasks d)) eqn:Ht,
    (falsy_num (debugs d)) eqn:Hd, (falsy_num (seconds d)) eqn:Hs;
    repeat split; try (by eexists);
    try (destruct (tasks d); [by eexists | done]);
    try (destruct (debugs d); [by eexists | done]);
    try (destruct (seconds d); [by eexists | done]).
Qed.

Lemma fixDetails_id d : completeDetails d →
  fixDetails d = mkDetails (branches d)
                   (if falsy_num (tasks d) then Some 0%Q else tasks d)
                   (if falsy_num (debugs d) then Some 0%Q else debugs d)
                   (if falsy_num (seconds d) then Some 0%Q else seconds d).
Proof. intros ([b Hb] & _). unfold fixDetails. by rewrite Hb. Qed.

Lemma freshDetails_complete : completeDetails freshDetails.
Proof. repeat split; by eexists. Qed.

Lemma touch_complete pid ps : completeDetails (touch pid ps).
Proof.
  unfold touch. destruct (ps !! pid);
    [apply fixDetails_complete | apply freshDetails_complete].
Qed.

(** ** What the mutation path computes *)

Lemma validateDay_projects day project :
  projects (validateDay day project)
  = Some (let ps := default ∅ (day ≫= projects) in
          if truthy_str (id project) then fixProject (default "" (id project)) ps
          else if decide (all project = Some true) then fixDetails <$> ps
          else ps).
Proof.
  unfold validateDay; simpl. rewrite for_in_fixProject.
  by destruct day as [[? ?]|].
Qed.

Lemma validateDay_saves day project :
  saves (validateDay day project) = Some (default ∅ (day ≫= saves)).
Proof. unfold validateDay; simpl. by destruct day as [[? ?]|]. Qed.

Lemma truthy_str_Some (s : string) : s ≠ "" → truthy_str (Some s) = true.
Proof. by destruct s. Qed.

(** [updateDetails] on a project whose name is not empty: the entry is
    repaired or created, and the delta is applied to it. *)
Lemma updateDetails_run now p details m :
  p ≠ "" →
  let today := dateString now 0 in
  let ps := projectsAt (store m) today in
  updateDetails now p details m
  = (Ok tt,
     setDay m today
       (mkDay (Some (<[p := applyDetails (touch p ps) details]> ps))
              (Some (savesAt (store m) today)))).
Proof.
  intros Hp today ps. unfold updateDetails, validateDaySchema.
  unfold mbind, M_bind, bind, get_store, set_store; simpl.
  rewrite lookup_insert_eq. fold today.
  rewrite validateDay_projects, validateDay_saves; simpl.
  rewrite truthy_str_Some by done. rewrite fixProject_touch, lookup_insert_eq.
  unfold setDay. do 3 f_equal.
  rewrite insert_insert_eq. f_equal.
  fold (projectsAt (store m) today). fold ps.
  by rewrite insert_insert_eq.
Qed.

Lemma addSave_run now ext m :
  let today := dateString now 0 in
  let sv := savesAt (store m) today in
  let count := if falsy_num (sv !! ext) then 0%Q else default 0%Q (sv !! ext) in
  addSave now ext m
  = (Ok tt,
     setDay m today
       (mkDay (Some (projectsAt (store m) today))
              (Some (<[ext := (count + 1)%Q]> sv)))).
Proof.
  intros today sv count. unfold addSave, validateDaySchema.
  unfold mbind, M_bind, bind, get_store, set_store; simpl.
  rewrite lookup_insert_eq. fold today.
  rewrite validateDay_projects, validateDay_saves; simpl.
  unfold setDay. do 3 f_equal. by rewrite insert_insert_eq.
Qed.

Lemma startTracking_run now ws m :
  startTracking now ws m
  = (Ok tt, mkManager (store m) (<[name ws := now]> (activeProjects m))).
Proof. done. Qed.

(** A settle of a project that has a session and a name. *)
Lemma updateDaySeconds_active now p start m :
  p ≠ "" →
  activeProjects m !! p = Some start →
  let today := dateString now 0 in
  let ps := projectsAt (store m) today in
  let delta := mkDetails None None None (Some (max0 (secondsSize now start))) in
  updateDaySeconds now p m
  = (Ok tt,
     mkManager
       (store (setDay m today
                 (mkDay (Some (<[p := applyDetails (touch p ps) delta]> ps))
                        (Some (savesAt (store m) today)))))
       (<[p := now]> (activeProjects m))).
Proof.
  intros Hp Hstart today ps delta. unfold updateDaySeconds.
  unfold mbind, M_bind, bind, get_active at 1; simpl. rewrite Hstart.
  rewrite updateDetails_run by done. done.
Qed.

(** A settle of a project that has no session does nothing. *)
Lemma updateDaySeconds_idle now p m :
  activeProjects m !! p = None → updateDaySeconds now p m = (Ok tt, m).
Proof.
  intros Hnone. unfold updateDaySeconds.
  unfold mbind, M_bind, bind, get_active; simpl. by rewrite Hnone.
Qed.

Lemma TimeManager_eta m : mkManager (store m) (activeProjects m) = m.
Proof. by destruct m. Qed.

Lemma endTracking_active now ws start m :
  name ws ≠ "" →
  activeProjects m !! name ws = Some start →
  let today := dateString now 0 in
  let ps := projectsAt (store m) today in
  let delta := mkDetails None None None (Some (max0 (secondsSize now start))) in
  endTracking now ws m
  = (Ok tt,
     mkManager
       (store (setDay m today
                 (mkDay (Some (<[name ws := applyDetails (touch (name ws) ps) delta]> ps))
                        (Some (savesAt (store m) today)))))
       (delete (name ws) (activeProjects m))).
Proof.
  intros Hp Hstart today ps delta. unfold endTracking.
  unfold mbind, M_bind, bind. rewrite (updateDaySeconds_active _ _ start) by done.
  unfold get_active, set_active; simpl. by rewrite delete_insert_eq.
Qed.

Lemma endTracking_idle now ws m :
  activeProjects m !! name ws = None → endTracking now ws m = (Ok tt, m).
Proof.
  intros Hnone. unfold endTracking. unfold mbind, M_bind, bind.
  rewrite updateDaySeconds_idle by done.
  unfold get_active, set_active; simpl.
  rewrite delete_id by done. by rewrite TimeManager_eta.
Qed.

(** ** Reading the store after a write *)

Lemma projectsAt_setDay m day d :
  projectsAt (store (setDay m day d)) day = default ∅ (projects d).
Proof. unfold projectsAt, setDay; simpl. by rewrite lookup_insert_eq. Qed.

Lemma projectsAt_setDay_ne m day day' d :
  day ≠ day' → projectsAt (store (setDay m day d)) day' = projectsAt (store m) day'.
Proof. intros. unfold projectsAt, setDay; simpl. by rewrite lookup_insert_ne. Qed.

Lemma savesAt_setDay m day d :
  savesAt (store (setDay m day d)) day = default ∅ (saves d).
Proof. unfold savesAt, setDay; simpl. by rewrite lookup_insert_eq. Qed.

Lemma touch_seconds p ps :
  ∃ s, seconds (touch p ps) = Some s ∧ (s == default 0 (ps !! p ≫= seconds))%Q.
Proof.
  unfold touch. destruct (ps !! p) as [d|]; simpl; [|by exists 0%Q].
  unfold falsy_num. destruct (seconds d) as [q|]; [|by exists 0%Q].
  destruct (Qeq_bool q 0) eqn:Hq.
  - exists 0%Q. split; [done|]. symmetry. by apply Qeq_bool_eq.
  - by exists q.
Qed.

Lemma max0_nonneg q : (0 <= max0 q)%Q.
Proof.
  unfold max0. destruct (Qlt_le_dec 0 q); [by apply Qlt_le_weak | apply Qle_refl].
Qed.

Lemma max0_of_nonneg q : (0 <= q)%Q → (max0 q == q)%Q.
Proof.
  intros Hq. unfold max0. destruct (Qlt_le_dec 0 q); [done|]. by apply Qle_antisym.
Qed.

Lemma max0_of_neg q : (q < 0)%Q → max0 q = 0%Q.
Proof.
  intros Hq. unfold max0. destruct (Qlt_le_dec 0 q) as [H|H]; [|done].
  exfalso. eapply Qlt_irrefl, Qlt_trans; eauto.
Qed.

Lemma secondsSize_nonneg now start :
  getTime start ≤ getTime now ↔ (0 <= secondsSize now start)%Q.
Proof. unfold secondsSize, Qle; simpl. lia. Qed.

(** ** Settling a session *)

(** The record of [p] after its entry has been touched and [e] seconds have
    been added to it. *)
Lemma recordedSeconds_settled m today p e :
  let ps := projectsAt (store m) today in
  let delta := mkDetails None None None (Some e) in
  let m' := setDay m today
              (mkDay (Some (<[p := applyDetails (touch p ps) delta]> ps))
                     (Some (savesAt (store m) today))) in
  (recordedSeconds (store m') today p == recordedSeconds (store m) today p + e)%Q.
Proof.
  intros ps delta m'. unfold recordedSeconds, m'.
  rewrite projectsAt_setDay; simpl. rewrite lookup_insert_eq; simpl.
  destruct (touch_seconds p ps) as (s & -> & Hs); simpl.
  fold ps. by rewrite Hs.
Qed.

Lemma recordedSeconds_settled_ne m today p q d sv :
  p ≠ q →
  let ps := projectsAt (store m) today in
  let m' := setDay m today (mkDay (Some (<[p := d]> ps)) sv) in
  recordedSeconds (store m') today q = recordedSeconds (store m) today q.
Proof.
  intros Hne ps m'. unfold recordedSeconds, m'.
  rewrite projectsAt_setDay; simpl. by rewrite lookup_insert_ne.
Qed.


Lemma settled_nonneg now active p : (0 <= settled now active p)%Q.
Proof.
  unfold settled. destruct (active !! p); [apply max0_nonneg | apply Qle_refl].
Qed.

Lemma days_setDay_ne m day day' d :
  day ≠ day' → days (store (setDay m day d)) !! day' = days (store m) !! day'.
Proof. intros. unfold setDay; simpl. by rewrite lookup_insert_ne. Qed.

(** One settle, with or without a session. *)
Lemma updateDaySeconds_spec now k m :
  (is_Some (activeProjects m !! k) → k ≠ "") →
  let today := dateString now 0 in
  ∃ m',
    updateDaySeconds now k m = (Ok tt, m')
    ∧ (∀ q, activeProjects m' !! q
            = if decide (q = k) then (λ _, now) <$> activeProjects m !! q
              else activeProjects m !! q)
    ∧ (∀ day, day ≠ today → days (store m') !! day = days (store m) !! day)
    ∧ (∀ q, (recordedSeconds (store m') today q
             == recordedSeconds (store m) today q
                + (if decide (q = k) then settled now (activeProjects m) k else 0))%Q).
Proof.
  intros Hk today. destruct (activeProjects m !! k) as [start|] eqn:Hstart.
  - eexists. split; [apply updateDaySeconds_active; eauto|]. cbn.
    split; [|split].
    + intros q. case_decide as Hq.
      * subst q. by rewrite lookup_insert_eq, Hstart.
      * by rewrite lookup_insert_ne.
    + intros day Hday. by rewrite days_setDay_ne.
    + intros q. case_decide as Hq.
      * subst q. unfold settled. rewrite Hstart. apply recordedSeconds_settled.
      * rewrite Qplus_0_r. by rewrite recordedSeconds_settled_ne.
  - exists m. split; [by apply updateDaySeconds_idle|]. split; [|split].
    + intros q. case_decide; [subst q; by rewrite Hstart | done].
    + done.
    + intros q. unfold settled. rewrite Hstart.
      case_decide; by rewrite Qplus_0_r.
Qed.

Lemma for_each_cons {S A} (x : A) l (body : A → M S unit) (m : S) :
  for_each (x :: l) body m
  = match body x m with
    | (Ok _, m1) => for_each l body m1
    | (Throw e, m1) => (Throw e, m1)
    end.
Proof. done. Qed.

(** A loop of settles over distinct projects. *)
Lemma settle_each now l m :
  NoDup l →
  (∀ k, k ∈ l → is_Some (activeProjects m !! k) → k ≠ "") →
  let today := dateString now 0 in
  ∃ m',
    for_each l (updateDaySeconds now) m = (Ok tt, m')
    ∧ (∀ q, activeProjects m' !! q
            = if decide (q ∈ l) then (λ _, now) <$> activeProjects m !! q
              else activeProjects m !! q)
    ∧ (∀ day, day ≠ today → days (store m') !! day = days (store m) !! day)
    ∧ (∀ q, (recordedSeconds (store m') today q
             == recordedSeconds (store m) today q
                + (if decide (q ∈ l) then settled now (activeProjects m) q else 0))%Q).
Proof.
  intros Hnd Hname today. subst today. revert m Hname.
  induction l as [|k l IH]; intros m Hname.
  - exists m. split; [done|]. split; [|split].
    + intros q. by rewrite decide_False by apply not_elem_of_nil.
    + done.
    + intros q. rewrite decide_False by apply not_elem_of_nil.
      by rewrite Qplus_0_r.
  - apply NoDup_cons in Hnd as [Hk Hnd].
    destruct (updateDaySeconds_spec now k m) as (m1 & Hrun & Hact & Hdays & Hrec).
    { apply Hname. by left. }
    destruct (IH Hnd m1) as (m' & Hrun' & Hact' & Hdays' & Hrec').
    { intros k' Hin. rewrite Hact. rewrite decide_False by (intros ->; done).
      apply Hname. by right. }
    exists m'. rewrite for_each_cons, Hrun. split; [done|]. split; [|split].
    + intros q. rewrite Hact', Hact.
      destruct (decide (q = k)) as [->|Hq].
      * rewrite decide_False by done. by rewrite decide_True by left.
      * destruct (decide (q ∈ l)) as [Hin|Hin].
        -- by rewrite decide_True by (by right).
        -- rewrite decide_False; [done|]. by intros [?|?]%elem_of_cons.
    + intros day Hday. by rewrite Hdays', Hdays.
    + intros q. specialize (Hrec' q). specialize (Hrec q).
      rewrite Hrec', Hrec.
      destruct (decide (q = k)) as [->|Hq].
      * rewrite decide_False by done. rewrite decide_True by left.
        by rewrite Qplus_0_r.
      * destruct (decide (q ∈ l)) as [Hin|Hin].
        -- rewrite decide_True by (by right).
           unfold settled. rewrite Hact, decide_False by done.
           by rewrite Qplus_0_r.
        -- rewrite (decide_False (P := q ∈ k :: l));
             [by rewrite Qplus_0_r | by intros [?|?]%elem_of_cons].
Qed.

Lemma elem_of_keys {A} (a : gmap string A) q :
  q ∈ (map_to_list a).*1 ↔ is_Some (a !! q).
Proof.
  split.
  - intros [[q' d] [-> Hin]]%list_elem_of_fmap.
    apply elem_of_map_to_list in Hin. by eexists.
  - intros [d Hd]. apply list_elem_of_fmap. exists (q, d).
    split; [done | by apply elem_of_map_to_list].
Qed.

(** The heartbeat: every session is settled and restarted at [now]. *)
Lemma updateAllDaySeconds_spec now m :
  activeProjects m !! "" = None →
  let today := dateString now 0 in
  ∃ m',
    updateAllDaySeconds now m = (Ok tt, m')
    ∧ activeProjects m' = (λ _, now) <$> activeProjects m
    ∧ (∀ day, day ≠ today → days (store m') !! day = days (store m) !! day)
    ∧ (∀ q, (recordedSeconds (store m') today q
             == recordedSeconds (store m) today q
                + settled now (activeProjects m) q)%Q).
Proof.
  intros Hname today. subst today.
  destruct (settle_each now (map_to_list (activeProjects m)).*1 m)
    as (m' & Hrun & Hact & Hdays & Hrec).
  { apply NoDup_fst_map_to_list. }
  { intros k _ Hk ->. rewrite Hname in Hk. by destruct Hk. }
  exists m'. split; [done|]. split; [|split; [done|]].
  - apply map_eq; intros q. rewrite Hact, lookup_fmap.
    case_decide as Hq; [done|].
    destruct (activeProjects m !! q) eqn:Hlook; [|done].
    exfalso. apply Hq, elem_of_keys. by eexists.
  - intros q. specialize (Hrec q). rewrite Hrec. case_decide as Hq; [done|].
    unfold settled. destruct (activeProjects m !! q) eqn:Hlook; [|done].
    exfalso. apply Hq, elem_of_keys. by eexists.
Qed.

Lemma endTracking_spec now ws m :
  (is_Some (activeProjects m !! name ws) → name ws ≠ "") →
  let today := dateString now 0 in
  ∃ m',
    endTracking now ws m = (Ok tt, m')
    ∧ activeProjects m' = delete (name ws) (activeProjects m)
    ∧ (∀ day, day ≠ today → days (store m') !! day = days (store m) !! day)
    ∧ (∀ q, (recordedSeconds (store m') today q
             == recordedSeconds (store m) today q
                + (if decide (q = name ws) then settled now (activeProjects m) q else 0))%Q).
Proof.
  intros Hname today. subst today.
  destruct (updateDaySeconds_spec now (name ws) m Hname)
    as (m1 & Hrun & Hact & Hdays & Hrec).
  exists (mkManager (store m1) (delete (name ws) (activeProjects m1))).
  split; [|split; [|split]].
  - unfold endTracking, mbind, M_bind, bind. by rewrite Hrun.
  - cbn. apply map_eq; intros q. destruct (decide (q = name ws)) as [->|Hq].
    + by rewrite !lookup_delete_eq.
    + rewrite !lookup_delete_ne by done. by rewrite Hact, decide_False.
  - done.
  - intros q. cbn. specialize (Hrec q). rewrite Hrec.
    case_decide as Hq; [by subst q | done].
Qed.

Lemma recordedSeconds_ext f f' day p :
  days f !! day = days f' !! day →
  recordedSeconds f day p = recordedSeconds f' day p.
Proof. intros H. unfold recordedSeconds, projectsAt. by rewrite H. Qed.

(** Adding amounts that are not negative, on today's ledger alone, keeps
    the records from going below zero. *)
Lemma nonnegStore_grows today (inc : string → Q) f f' :
  (∀ day, day ≠ today → days f' !! day = days f !! day) →
  (∀ q, (recordedSeconds f' today q == recordedSeconds f today q + inc q)%Q) →
  (∀ q, (0 <= inc q)%Q) →
  nonnegStore f → nonnegStore f'.
Proof.
  intros Hdays Hrec Hinc Hnn day p.
  destruct (decide (day = today)) as [->|Hday].
  - rewrite Hrec. apply Qle_trans with (recordedSeconds f today p + 0)%Q.
    + rewrite Qplus_0_r. apply Hnn.
    + apply Qplus_le_r, Hinc.
  - rewrite (recordedSeconds_ext f' f) by auto. apply Hnn.
Qed.


(** ** Branch sets *)

Section Set_of.
Implicit Types (l acc : list string) (x b : string).

Lemma elem_of_set_add acc b x : x ∈ set_add acc b ↔ x ∈ acc ∨ x = b.
Proof.
  unfold set_add. case_decide as Hin.
  - split; [auto|]. by intros [?| ->].
  - rewrite elem_of_app, list_elem_of_singleton. tauto.
Qed.

Lemma NoDup_set_add acc b : NoDup acc → NoDup (set_add acc b).
Proof.
  intros Hnd. unfold set_add. case_decide as Hin; [done|].
  apply NoDup_app. split; [done|]. split; [|apply NoDup_singleton].
  intros x Hx ->%list_elem_of_singleton. done.
Qed.

Lemma elem_of_foldl_set_add l acc x :
  x ∈ foldl set_add acc l ↔ x ∈ acc ∨ x ∈ l.
Proof.
  revert acc. induction l as [|b l IH]; intros acc; simpl.
  - rewrite elem_of_nil. tauto.
  - rewrite IH, elem_of_set_add, elem_of_cons. tauto.
Qed.

Lemma NoDup_foldl_set_add l acc : NoDup acc → NoDup (foldl set_add acc l).
Proof.
  revert acc. induction l as [|b l IH]; intros acc Hnd; simpl; [done|].
  by apply IH, NoDup_set_add.
Qed.

Lemma foldl_set_add_NoDup l acc :
  NoDup (acc ++ l) → foldl set_add acc l = acc ++ l.
Proof.
  revert acc. induction l as [|b l IH]; intros acc Hnd; simpl.
  - by rewrite app_nil_r.
  - assert (b ∉ acc) as Hb.
    { apply NoDup_app in Hnd as (_ & Hdis & _). intros Hin.
      apply (Hdis b Hin). by left. }
    unfold set_add at 2. rewrite decide_False by done.
    rewrite IH; rewrite <- app_assoc; done.
Qed.

Lemma elem_of_Set_of l x : x ∈ Set_of l ↔ x ∈ l.
Proof.
  unfold Set_of. rewrite elem_of_foldl_set_add, elem_of_nil. tauto.
Qed.

Lemma NoDup_Set_of l : NoDup (Set_of l).
Proof. apply NoDup_foldl_set_add, NoDup_nil_2. Qed.

Lemma Set_of_NoDup l : NoDup l → Set_of l = l.
Proof. intros. unfold Set_of. by rewrite foldl_set_add_NoDup. Qed.

Lemma Set_of_snoc l b : Set_of (l ++ [b]) = set_add (Set_of l) b.
Proof. unfold Set_of. by rewrite foldl_app. Qed.

(** Adding a member that is there already changes nothing. *)
Lemma Set_of_snoc_elem l b : NoDup l → b ∈ l → Set_of (l ++ [b]) = l.
Proof.
  intros Hnd Hin. rewrite Set_of_snoc, Set_of_NoDup by done.
  unfold set_add. by rewrite decide_True.
Qed.

Lemma occurrences_notin b l : b ∉ l → occurrences b l = 0%nat.
Proof.
  unfold occurrences. induction l as [|x l IH]; intros Hb; [done|].
  apply not_elem_of_cons in Hb as [Hne Hb]. rewrite filter_cons.
  rewrite decide_False by congruence. by apply IH.
Qed.

Lemma occurrences_NoDup b l : NoDup l → b ∈ l → occurrences b l = 1%nat.
Proof.
  unfold occurrences. induction l as [|x l IH]; intros Hnd Hin.
  - by apply elem_of_nil in Hin.
  - apply NoDup_cons in Hnd as [Hx Hnd]. rewrite filter_cons.
    destruct (decide (x = b)) as [->|Hne]; simpl.
    + f_equal. by apply occurrences_notin.
    + apply IH; [done|]. apply elem_of_cons in Hin as [?|?]; [congruence|done].
Qed.
End Set_of.

(** ** Recording a branch *)

Lemma fixDetails_idemp d : fixDetails (fixDetails d) = fixDetails d.
Proof.
  unfold fixDetails; simpl. f_equal.
  - by destruct (branches d).
  - destruct (falsy_num (tasks d)) eqn:H; [done | by rewrite H].
  - destruct (falsy_num (debugs d)) eqn:H; [done | by rewrite H].
  - destruct (falsy_num (seconds d)) eqn:H; [done | by rewrite H].
Qed.

Lemma fixDetails_touch p ps : fixDetails (touch p ps) = touch p ps.
Proof. unfold touch. destruct (ps !! p); [apply fixDetails_idemp | done]. Qed.

Lemma branches_touch p ps :
  branches (touch p ps) = Some (default [] (ps !! p ≫= branches)).
Proof.
  unfold touch. destruct (ps !! p) as [d|]; simpl; [|done].
  by destruct (branches d).
Qed.

Lemma touch_insert p e ps : touch p (<[p := e]> ps) = fixDetails e.
Proof. unfold touch. by rewrite lookup_insert_eq. Qed.

Lemma setDay_setDay m day d d' : setDay (setDay m day d) day d' = setDay m day d'.
Proof. unfold setDay; simpl. by rewrite insert_insert_eq. Qed.

Lemma branchesAt_setDay m day p ps sv :
  branchesAt (store (setDay m day (mkDay (Some ps) sv))) day p
  = default [] (ps !! p ≫= branches).
Proof. unfold branchesAt. by rewrite projectsAt_setDay. Qed.

Lemma branchesAt_ext f f' day p :
  days f !! day = days f' !! day → branchesAt f day p = branchesAt f' day p.
Proof. intros H. unfold branchesAt, projectsAt. by rewrite H. Qed.

Lemma addBranch_run now ws b m :
  name ws ≠ "" →
  let today := dateString now 0 in
  let ps := projectsAt (store m) today in
  let delta := mkDetails (Some [b]) None None None in
  addBranch now ws b m
  = (Ok tt,
     setDay m today
       (mkDay (Some (<[name ws := applyDetails (touch (name ws) ps) delta]> ps))
              (Some (savesAt (store m) today)))).
Proof. intros Hp. by apply updateDetails_run. Qed.

(** One call: the branch joins the set of the project, the sets of the other
    projects and of the other days stay as they are. *)
Lemma addBranch_spec now ws b m :
  name ws ≠ "" →
  let today := dateString now 0 in
  ∃ m',
    addBranch now ws b m = (Ok tt, m')
    ∧ activeProjects m' = activeProjects m
    ∧ branchesAt (store m') today (name ws)
      = Set_of (branchesAt (store m) today (name ws) ++ [b])
    ∧ (∀ day q, (day, q) ≠ (today, name ws) →
         branchesAt (store m') day q = branchesAt (store m) day q).
Proof.
  intros Hp today. eexists. split; [by apply addBranch_run|].
  split; [done|]. split.
  - rewrite branchesAt_setDay, lookup_insert_eq; simpl.
    by rewrite branches_touch.
  - intros day q Hne. destruct (decide (day = dateString now 0)) as [->|Hday].
    + rewrite branchesAt_setDay, lookup_insert_ne; [done|].
      intros Heq. apply Hne. by rewrite Heq.
    + apply branchesAt_ext. by rewrite days_setDay_ne.
Qed.

Lemma projectsAt_setDay_Some m day ps sv :
  projectsAt (store (setDay m day (mkDay (Some ps) sv))) day = ps.
Proof. by rewrite projectsAt_setDay. Qed.

Lemma savesAt_setDay_Some m day ps sv :
  savesAt (store (setDay m day (mkDay ps (Some sv)))) day = sv.
Proof. by rewrite savesAt_setDay. Qed.

Lemma applyDetails_branch_again e b :
  fixDetails e = e →
  let delta := mkDetails (Some [b]) None None None in
  applyDetails (fixDetails (applyDetails e delta)) delta = applyDetails e delta.
Proof.
  destruct e as [br t d s]. unfold fixDetails, applyDetails; simpl.
  intros [= Hbr Ht Hd Hs]. rewrite Ht, Hd, Hs. do 2 f_equal.
  apply Set_of_snoc_elem; [apply NoDup_Set_of|].
  apply elem_of_Set_of, elem_of_app. right. by left.
Qed.

(** The same call again, on the same day, leaves the whole instance as it
    is. *)
Lemma addBranch_twice now now' ws b m m1 :
  name ws ≠ "" →
  dateString now' 0 = dateString now 0 →
  addBranch now ws b m = (Ok tt, m1) →
  addBranch now' ws b m1 = (Ok tt, m1).
Proof.
  intros Hp Hday. rewrite !addBranch_run by done. rewrite Hday.
  intros [= <-]. rewrite projectsAt_setDay_Some, savesAt_setDay_Some.
  rewrite setDay_setDay, touch_insert, insert_insert_eq.
  by rewrite applyDetails_branch_again by apply fixDetails_touch.
Qed.

Lemma fixDetails_applyDetails_branch e b :
  fixDetails e = e →
  let delta := mkDetails (Some [b]) None None None in
  fixDetails (applyDetails e delta) = applyDetails e delta.
Proof.
  destruct e as [br t d s]. unfold fixDetails, applyDetails; simpl.
  intros [= Hbr Ht Hd Hs]. by rewrite Ht, Hd, Hs.
Qed.

Lemma addBranch_establishes now ws b m m' :
  name ws ≠ "" →
  addBranch now ws b m = (Ok tt, m') →
  hasBranch (dateString now 0) (name ws) b m'.
Proof.
  intros Hp. rewrite addBranch_run by done. intros [= <-].
  set (ps := projectsAt (store m) (dateString now 0)).
  eexists _, _, _, _. split; [apply lookup_insert_eq|].
  split; [apply lookup_insert_eq|]. split; [|split; [|split]].
  - apply fixDetails_applyDetails_branch, fixDetails_touch.
  - reflexivity.
  - apply NoDup_Set_of.
  - apply elem_of_Set_of, elem_of_app. right. by left.
Qed.

Lemma addBranch_preserves now ws b' p b m m' :
  name ws ≠ "" →
  addBranch now ws b' m = (Ok tt, m') →
  hasBranch (dateString now 0) p b m →
  hasBranch (dateString now 0) p b m'.
Proof.
  intros Hp. rewrite addBranch_run by done. intros [= <-].
  intros (ps & sv & e & bs & Hday & He & Hfix & Hbs & Hnd & Hb).
  assert (projectsAt (store m) (dateString now 0) = ps) as ->.
  { unfold projectsAt. by rewrite Hday. }
  destruct (decide (p = name ws)) as [->|Hne].
  - eexists _, _, _, _. split; [apply lookup_insert_eq|].
    split; [apply lookup_insert_eq|]. unfold touch. rewrite He, Hfix.
    split; [|split; [|split]].
    + by apply fixDetails_applyDetails_branch.
    + unfold applyDetails; simpl. rewrite Hbs. reflexivity.
    + apply NoDup_Set_of.
    + apply elem_of_Set_of, elem_of_app. by left.
  - exists (<[name ws := applyDetails (touch (name ws) ps)
                         (mkDetails (Some [b']) None None None)]> ps).
    eexists _, e, bs. split; [apply lookup_insert_eq|].
    split; [by rewrite lookup_insert_ne|]. done.
Qed.

Lemma hasBranch_occurrences today p b m :
  hasBranch today p b m →
  NoDup (branchesAt (store m) today p)
  ∧ occurrences b (branchesAt (store m) today p) = 1%nat.
Proof.
  intros (ps & sv & e & bs & Hday & He & Hfix & Hbs & Hnd & Hb).
  assert (branchesAt (store m) today p = bs) as ->.
  { unfold branchesAt, projectsAt. rewrite Hday; simpl. rewrite He; simpl.
    by rewrite Hbs. }
  split; [done | by apply occurrences_NoDup].
Qed.

Lemma setDay_id m day d : days (store m) !! day = Some d → setDay m day d = m.
Proof.
  intros H. unfold setDay. rewrite insert_id by done. by destruct m as [[? ?] ?].
Qed.

(** Recording again a branch that is on record changes nothing. *)
Lemma hasBranch_again now ws b m :
  name ws ≠ "" →
  hasBranch (dateString now 0) (name ws) b m →
  addBranch now ws b m = (Ok tt, m).
Proof.
  intros Hp (ps & sv & e & bs & Hday & He & Hfix & Hbs & Hnd & Hb).
  rewrite addBranch_run by done. f_equal.
  assert (projectsAt (store m) (dateString now 0) = ps) as ->.
  { unfold projectsAt. by rewrite Hday. }
  assert (savesAt (store m) (dateString now 0) = sv) as ->.
  { unfold savesAt. by rewrite Hday. }
  unfold touch. rewrite He, Hfix.
  assert (applyDetails e (mkDetails (Some [b]) None None None) = e) as ->.
  { destruct e as [br t d s]. unfold applyDetails; simpl in *. subst br; simpl.
    by rewrite Set_of_snoc_elem. }
  rewrite insert_id by done. by apply setDay_id.
Qed.

(** A run of calls of [addBranch] made on one day. *)
Lemma addBranch_calls today (calls : list (Date * WorkspaceFolder * string)) m :
  Forall (λ c, dateString c.1.1 0 = today ∧ name c.1.2 ≠ "") calls →
  ∃ m',
    for_each calls (λ c, addBranch c.1.1 c.1.2 c.2) m = (Ok tt, m')
    ∧ (∀ p b, hasBranch today p b m → hasBranch today p b m')
    ∧ (∀ now ws b, (now, ws, b) ∈ calls → hasBranch today (name ws) b m').
Proof.
  revert m. induction calls as [|[[now ws] b] calls IH]; intros m Hcalls.
  - exists m. split; [done|]. split; [done|]. intros ??? Hin.
    by apply elem_of_nil in Hin.
  - apply Forall_cons in Hcalls as [[Hday Hp] Hcalls]. simpl in Hday, Hp.
    destruct (addBranch_spec now ws b m Hp) as (m1 & Hrun & _).
    destruct (IH m1 Hcalls) as (m' & Hrun' & Hkeep & Hnew).
    exists m'. rewrite for_each_cons; simpl. rewrite Hrun.
    split; [done|]. split.
    + intros p b0 Hb0. apply Hkeep. subst today.
      by eapply addBranch_preserves.
    + intros now0 ws0 b0 [[= -> -> ->]|Hin]%elem_of_cons.
      * apply Hkeep. subst today. by eapply addBranch_establishes.
      * by eapply Hnew.
Qed.


(** ** Queries *)

Lemma getStats_lookup now day m p :
  (getStats now day m ≫= projects) ≫= (.!! p) = reported now m day p.
Proof.
  unfold getStats, reported, projectsAt.
  destruct (days (store m) !! day) as [[ps sv]|] eqn:Hday; simpl; [|done].
  case_decide as Htoday; simpl.
  - destruct ps as [ps|]; simpl; [|by rewrite lookup_empty].
    rewrite for_in_alter, map_lookup_imap. by destruct (ps !! p).
  - destruct ps as [ps|]; simpl; [|by rewrite lookup_empty].
    by destruct (ps !! p).
Qed.

(** The query leaves the saves and the other members of the ledger alone. *)
Lemma getStats_saves now day m :
  saves <$> getStats now day m = saves <$> days (store m) !! day.
Proof.
  unfold getStats. destruct (days (store m) !! day) as [[ps sv]|]; simpl; [|done].
  case_decide; [|done]. by destruct ps.
Qed.

Lemma getStats_is_Some now day m :
  is_Some (getStats now day m) ↔ is_Some (days (store m) !! day).
Proof.
  unfold getStats. destruct (days (store m) !! day) as [[ps sv]|]; simpl.
  - case_decide; [destruct ps|]; split; by eexists.
  - done.
Qed.

Lemma getStats_projects_is_Some now day m d :
  getStats now day m = Some d →
  ∃ d0, days (store m) !! day = Some d0
        ∧ (is_Some (projects d) ↔ is_Some (projects d0)).
Proof.
  unfold getStats. destruct (days (store m) !! day) as [[ps sv]|]; simpl; [|done].
  intros Hd. eexists; split; [done|]. simpl.
  case_decide; [destruct ps|]; injection Hd as <-; simpl; split; by eauto.
Qed.

Lemma Set_of_app l1 l2 : Set_of (l1 ++ l2) = foldl set_add (Set_of l1) l2.
Proof. unfold Set_of. by rewrite foldl_app. Qed.

Lemma Set_of_app_Set_of l1 l2 : Set_of (Set_of l1 ++ l2) = Set_of (l1 ++ l2).
Proof.
  rewrite !Set_of_app. f_equal. apply Set_of_NoDup, NoDup_Set_of.
Qed.

Lemma completeStore_day f day d :
  completeStore f → days f !! day = Some d → completeDay d.
Proof. intros Hf Hd. by apply (Hf day d). Qed.

Lemma completeStore_entry f day p e :
  completeStore f → projectsAt f day !! p = Some e → completeDetails e.
Proof.
  intros Hf. unfold projectsAt.
  destruct (days f !! day) as [d|] eqn:Hd; simpl; [|by rewrite lookup_empty].
  destruct (completeStore_day f day d Hf Hd) as [_ Hps].
  destruct (projects d) as [ps|]; [|done]. simpl. intros He. by apply (Hps p e).
Qed.

Lemma liveSeconds_complete now active p e :
  completeDetails e → completeDetails (liveSeconds now active p e).
Proof.
  intros (Hb & Ht & Hd & [s Hs]). unfold liveSeconds.
  destruct (active !! p); [|done]. repeat split; simpl; try done.
  rewrite Hs. by eexists.
Qed.

Lemma reported_complete now m day p e :
  completeStore (store m) → reported now m day p = Some e → completeDetails e.
Proof.
  intros Hf. unfold reported.
  destruct (projectsAt (store m) day !! p) as [e0|] eqn:He0; simpl; [|done].
  intros [= <-]. pose proof (completeStore_entry _ _ _ _ Hf He0) as Hc.
  case_decide; [by apply liveSeconds_complete | done].
Qed.

(** One turn of the aggregation on a store that satisfies the schema. *)
Lemma addDayStats_spec now m p day l0 t0 d0 s0 :
  completeStore (store m) →
  let e := reported now m day p in
  ∃ t d s,
    addDayStats p (getStats now day m)
      (mkDetails (Some (Set_of l0)) (Some t0) (Some d0) (Some s0))
    = Ok (mkDetails (Some (Set_of (l0 ++ default [] (e ≫= branches))))
                    (Some t) (Some d) (Some s))
    ∧ (t == t0 + default 0 (e ≫= tasks))%Q
    ∧ (d == d0 + default 0 (e ≫= debugs))%Q
    ∧ (s == s0 + default 0 (e ≫= seconds))%Q.
Proof.
  intros Hf e. subst e.
  pose proof (getStats_lookup now day m p) as Hlook.
  pose proof (reported_complete now m day p) as Hcomplete.
  destruct (getStats now day m) as [d1|] eqn:Hstats; simpl in Hlook.
  - destruct (getStats_projects_is_Some _ _ _ _ Hstats) as (dd & Hdd & Hiff).
    destruct (completeStore_day _ _ _ Hf Hdd) as [_ Hps].
    destruct (projects dd) as [ps0|]; [|done].
    destruct (proj2 Hiff) as [ps Hps1]; [by eexists|].
    rewrite Hps1 in Hlook; simpl in Hlook. unfold addDayStats. rewrite Hps1, Hlook.
    destruct (reported now m day p) as [e|]; simpl.
    + destruct (Hcomplete e Hf eq_refl) as ([bs ->] & [t ->] & [d ->] & [s ->]).
      simpl. rewrite Set_of_app_Set_of. by eexists _, _, _.
    + rewrite app_nil_r. exists t0, d0, s0. by rewrite !Qplus_0_r.
  - rewrite <- Hlook; simpl. rewrite app_nil_r.
    exists t0, d0, s0. by rewrite !Qplus_0_r.
Qed.

Lemma sumDays_spec now m p keys l0 t0 d0 s0 :
  completeStore (store m) →
  let member f := (λ day, default 0%Q (reported now m day p ≫= f)) <$> keys in
  ∃ t d s,
    sumDays now p keys (mkDetails (Some (Set_of l0)) (Some t0) (Some d0) (Some s0)) m
    = Ok (mkDetails
            (Some (Set_of (l0 ++ mjoin ((λ day, default [] (reported now m day p ≫= branches))
                                        <$> keys))))
            (Some t) (Some d) (Some s))
    ∧ (t == t0 + Qsum (member tasks))%Q
    ∧ (d == d0 + Qsum (member debugs))%Q
    ∧ (s == s0 + Qsum (member seconds))%Q.
Proof.
  intros Hf member. subst member. revert l0 t0 d0 s0.
  induction keys as [|day keys IH]; intros l0 t0 d0 s0; simpl.
  - rewrite app_nil_r. exists t0, d0, s0. by rewrite !Qplus_0_r.
  - destruct (addDayStats_spec now m p day l0 t0 d0 s0 Hf)
      as (t1 & d1 & s1 & -> & Ht1 & Hd1 & Hs1).
    destruct (IH (l0 ++ default [] (reported now m day p ≫= branches)) t1 d1 s1)
      as (t & d & s & -> & Ht & Hd & Hs).
    exists t, d, s. rewrite <- app_assoc. split; [done|].
    rewrite Ht, Hd, Hs, Ht1, Hd1, Hs1. by rewrite !Qplus_assoc.
Qed.

Lemma getDays_positive now n :
  0 < n → getDays now (Some n) = dayKey now <$> seq 0 (Z.to_nat n).
Proof. intros Hn. unfold getDays. rewrite decide_False by lia. done. Qed.


(** What one turn of the aggregation reads of the instance. *)
Lemma addDayStats_getStats now m p day stats :
  addDayStats p (getStats now day m) stats
  = match days (store m) !! day with
    | None => Ok stats
    | Some d =>
        match projects d with
        | None => Throw TypeError
        | Some _ => addDayStats p (Some (mkDay (Some (from_option (λ e, {[p := e]}) ∅
                                                        (reported now m day p))) None)) stats
        end
    end.
Proof.
  pose proof (getStats_lookup now day m p) as Hlook.
  destruct (getStats now day m) as [d1|] eqn:Hstats.
  - destruct (getStats_projects_is_Some _ _ _ _ Hstats) as (dd & -> & Hiff).
    destruct (projects dd) as [ps0|].
    + destruct (proj2 Hiff) as [ps Hps1]; [by eexists|].
      simpl in Hlook. rewrite Hps1 in Hlook; simpl in Hlook.
      unfold addDayStats. rewrite Hps1; simpl. rewrite Hlook.
      destruct (reported now m day p); simpl;
        [by rewrite lookup_singleton_eq | by rewrite lookup_empty].
    + unfold addDayStats. destruct (projects d1) eqn:Hp1; [|done].
      destruct (proj1 Hiff); by eauto.
  - destruct (days (store m) !! day) eqn:Hday; [|done].
    assert (is_Some (getStats now day m)) as [? ?]; [|congruence].
    apply getStats_is_Some. by eexists.
Qed.

Lemma sumDays_ext now p keys stats m m' :
  store m = store m' →
  (∀ day, day ∈ keys → reported now m day p = reported now m' day p) →
  sumDays now p keys stats m = sumDays now p keys stats m'.
Proof.
  intros Hstore. revert stats.
  induction keys as [|day keys IH]; intros stats Hrep; simpl; [done|].
  rewrite !addDayStats_getStats, <- Hstore, (Hrep day) by left.
  destruct (days (store m) !! day) as [d|]; [destruct (projects d)|]; try done.
  - destruct (addDayStats _ _ _); [|done]. apply IH. intros ??. apply Hrep. by right.
  - apply IH. intros ??. apply Hrep. by right.
Qed.


(** ** Loading *)

Lemma try_catch_returns {S A} (c : M S A) (a : A) (m : S) :
  ∃ a' m', try_catch c (λ _, mret a) m = (Ok a', m').
Proof. unfold try_catch. destruct (c m) as [[a'|e] m']; by eexists _, _. Qed.

Lemma load_unusable disk m :
  disk = Missing ∨ disk = Unreadable ∨ disk = Text Garbage →
  load disk m = (Ok tt, m).
Proof. by intros [->|[->| ->]]. Qed.

Lemma load_current f m :
  version f = CURRENT_SCHEMA_VERSION →
  load (Text (Json f)) m = (Ok tt, mkManager f (activeProjects m)).
Proof.
  intros Hv. unfold load, try_catch, mbind, M_bind, bind, lift; simpl.
  by rewrite decide_False by (by intros ?).
Qed.

(** The migration loop over the days of the file. *)
Lemma validate_each (l : list string) v ds a :
  NoDup l →
  ∃ ds',
    for_each l (λ day, validateDaySchema day (mkFilter None (Some true)))
             (mkManager (mkFile v ds) a)
    = (Ok tt, mkManager (mkFile v ds') a)
    ∧ ∀ day, ds' !! day
             = if decide (day ∈ l)
               then Some (validateDay (ds !! day) (mkFilter None (Some true)))
               else ds !! day.
Proof.
  revert ds. induction l as [|k l IH]; intros ds Hnd.
  - exists ds. split; [done|]. intros day.
    by rewrite decide_False by apply not_elem_of_nil.
  - apply NoDup_cons in Hnd as [Hk Hnd].
    destruct (IH (<[k := validateDay (ds !! k) (mkFilter None (Some true))]> ds) Hnd)
      as (ds' & Hrun & Hlook).
    exists ds'. rewrite for_each_cons.
    unfold validateDaySchema at 1, mbind, M_bind, bind, get_store, set_store; simpl.
    split; [exact Hrun|]. intros day. rewrite Hlook.
    destruct (decide (day = k)) as [->|Hne].
    + rewrite decide_False by done. rewrite decide_True by left.
      by rewrite lookup_insert_eq.
    + rewrite lookup_insert_ne by done.
      destruct (decide (day ∈ l)) as [Hin|Hin].
      * by rewrite decide_True by (by right).
      * rewrite decide_False; [done|]. by intros [?|?]%elem_of_cons.
Qed.

Lemma load_older f m :
  version f ≠ CURRENT_SCHEMA_VERSION →
  load (Text (Json f)) m
  = (Ok tt,
     mkManager
       (mkFile CURRENT_SCHEMA_VERSION
          ((λ d, validateDay (Some d) (mkFilter None (Some true))) <$> days f))
       (activeProjects m)).
Proof.
  intros Hv. unfold load, try_catch, mbind, M_bind, bind, lift; simpl.
  rewrite decide_True by done.
  destruct (validate_each (map_to_list (days f)).*1 (version f) (days f)
              (activeProjects m)) as (ds' & Hrun & Hlook).
  { apply NoDup_fst_map_to_list. }
  unfold set_store at 1; simpl. destruct f as [v ds]; simpl in *.
  rewrite Hrun. unfold get_store, set_store; simpl. do 3 f_equal.
  apply map_eq; intros day. rewrite Hlook, lookup_fmap.
  destruct (ds !! day) as [d|] eqn:Hd; simpl.
  - rewrite decide_True; [done|]. apply elem_of_keys. by eexists.
  - rewrite decide_False; [done|]. rewrite elem_of_keys, Hd. by intros [? ?].
Qed.

Lemma validateDay_all_complete day :
  completeDay (validateDay day (mkFilter None (Some true))).
Proof.
  unfold completeDay. rewrite validateDay_saves, validateDay_projects.
  split; [by eexists|]. simpl.
  unfold truthy_str; simpl.
  intros p e [e0 [<- _]]%lookup_fmap_Some. apply fixDetails_complete.
Qed.

(** A file of an older version is complete once loaded; a file of the
    current version is taken as it is. *)
Lemma load_complete f m m' :
  (version f = CURRENT_SCHEMA_VERSION → completeStore f) →
  load (Text (Json f)) m = (Ok tt, m') →
  completeStore (store m').
Proof.
  intros Hcur. destruct (decide (version f = CURRENT_SCHEMA_VERSION)) as [Hv|Hv].
  - rewrite load_current by done. intros [= <-]. by apply Hcur.
  - rewrite load_older by done. intros [= <-]. simpl.
    intros day d [d0 [<- _]]%lookup_fmap_Some. apply validateDay_all_complete.
Qed.

(** ** The mutation path keeps the schema *)

Lemma completeStore_setDay m day d :
  completeStore (store m) → completeDay d → completeStore (store (setDay m day d)).
Proof.
  intros Hf Hd day' d'. unfold setDay; simpl.
  destruct (decide (day' = day)) as [->|Hne].
  - rewrite lookup_insert_eq. by intros [= <-].
  - rewrite lookup_insert_ne by done. apply Hf.
Qed.

Lemma applyDetails_complete e details :
  completeDetails e → completeDetails (applyDetails e details).
Proof.
  intros ([bs Hbs] & [t Ht] & [d Hd] & [s Hs]).
  unfold applyDetails, completeDetails; simpl. rewrite Hbs, Ht, Hd, Hs.
  destruct details as [[?|] [?|] [?|] [?|]]; simpl; repeat split; by eexists.
Qed.

Lemma completeDay_touched f day p e sv :
  completeStore f →
  completeDetails e →
  completeDay (mkDay (Some (<[p := e]> (projectsAt f day))) (Some sv)).
Proof.
  intros Hf He. split; [by eexists|]. simpl. intros q e'.
  destruct (decide (q = p)) as [->|Hne].
  - rewrite lookup_insert_eq. by intros [= <-].
  - rewrite lookup_insert_ne by done. by apply completeStore_entry.
Qed.

Lemma updateDetails_complete now p details m m' :
  p ≠ "" →
  completeStore (store m) →
  updateDetails now p details m = (Ok tt, m') →
  completeStore (store m').
Proof.
  intros Hp Hf. rewrite updateDetails_run by done. intros [= <-].
  apply completeStore_setDay; [done|]. apply completeDay_touched; [done|].
  apply applyDetails_complete, touch_complete.
Qed.

Lemma addSave_complete now ext m m' :
  completeStore (store m) →
  addSave now ext m = (Ok tt, m') →
  completeStore (store m').
Proof.
  intros Hf. rewrite addSave_run. intros [= <-].
  apply completeStore_setDay; [done|]. split; [by eexists|]. simpl.
  intros q e. by apply completeStore_entry.
Qed.

Lemma updateDaySeconds_complete now p m m' :
  (is_Some (activeProjects m !! p) → p ≠ "") →
  completeStore (store m) →
  updateDaySeconds now p m = (Ok tt, m') →
  completeStore (store m').
Proof.
  intros Hp Hf. destruct (activeProjects m !! p) as [start|] eqn:Hstart.
  - rewrite (updateDaySeconds_active _ _ start) by eauto. intros [= <-]. cbn.
    apply completeStore_setDay; [done|]. apply completeDay_touched; [done|].
    apply applyDetails_complete, touch_complete.
  - rewrite updateDaySeconds_idle by done. by intros [= <-].
Qed.

Lemma settle_each_complete now l m m' :
  (∀ k, k ∈ l → k ≠ "") →
  completeStore (store m) →
  for_each l (updateDaySeconds now) m = (Ok tt, m') →
  completeStore (store m').
Proof.
  revert m. induction l as [|k l IH]; intros m Hl Hf.
  - by intros [= <-].
  - rewrite for_each_cons.
    destruct (updateDaySeconds_spec now k m) as (m1 & Hrun & _).
    { intros _. apply Hl. by left. }
    rewrite Hrun. apply IH.
    + intros ??. apply Hl. by right.
    + eapply updateDaySeconds_complete; [|done|exact Hrun].
      intros _. apply Hl. by left.
Qed.

(** Every operation of the mutation interface keeps the schema, entries
    being created as [{ seconds: 0, branches: [], tasks: 0, debugs: 0 }] and
    then updated. *)
Lemma mutation_complete now ws b ext m :
  name ws ≠ "" →
  activeProjects m !! "" = None →
  completeStore (store m) →
  (∀ m', startTracking now ws m = (Ok tt, m') → completeStore (store m'))
  ∧ (∀ m', endTracking now ws m = (Ok tt, m') → completeStore (store m'))
  ∧ (∀ m', updateAllDaySeconds now m = (Ok tt, m') → completeStore (store m'))
  ∧ (∀ m', addBranch now ws b m = (Ok tt, m') → completeStore (store m'))
  ∧ (∀ m', incrementTasks now ws m = (Ok tt, m') → completeStore (store m'))
  ∧ (∀ m', incrementDebugs now ws m = (Ok tt, m') → completeStore (store m'))
  ∧ (∀ m', addSave now ext m = (Ok tt, m') → completeStore (store m')).
Proof.
  intros Hp Hname Hf. repeat apply conj; intros m1.
  - by intros [= <-].
  - unfold endTracking, mbind, M_bind, bind.
    destruct (updateDaySeconds now (name ws) m) as [[[]|e] m2] eqn:Hrun; [|done].
    intros [= <-]. simpl. by eapply updateDaySeconds_complete.
  - apply settle_each_complete; [|done].
    intros k Hk ->. apply elem_of_keys in Hk as [? Hk]. congruence.
  - unfold addBranch. by apply updateDetails_complete.
  - unfold incrementTasks. by apply updateDetails_complete.
  - unfold incrementDebugs. by apply updateDetails_complete.
  - by apply addSave_complete.
Qed.

Lemma keepsSchema_intro (c : Method unit) m :
  (∃ m', c m = (Ok tt, m')) →
  (∀ m', c m = (Ok tt, m') → completeStore (store m')) →
  keepsSchema c m.
Proof. intros [m' Hrun] Hkeep. exists m'. split; [done | by apply Hkeep]. Qed.

Lemma load_returns f m : ∃ m', load (Text (Json f)) m = (Ok tt, m').
Proof.
  destruct (decide (version f = CURRENT_SCHEMA_VERSION)) as [Hv|Hv].
  - eexists. by apply load_current.
  - eexists. by apply load_older.
Qed.

Lemma load_keeps_schema f m :
  (version f = CURRENT_SCHEMA_VERSION → completeStore f) →
  keepsSchema (load (Text (Json f))) m.
Proof.
  intros Hcur. apply keepsSchema_intro; [apply load_returns|].
  intros m'. by apply load_complete.
Qed.

(** The operations return normally and keep the schema. *)
Lemma mutation_keeps_schema now ws b ext m :
  name ws ≠ "" →
  activeProjects m !! "" = None →
  completeStore (store m) →
  keepsSchema (startTracking now ws) m
  ∧ keepsSchema (endTracking now ws) m
  ∧ keepsSchema (updateAllDaySeconds now) m
  ∧ keepsSchema (addBranch now ws b) m
  ∧ keepsSchema (incrementTasks now ws) m
  ∧ keepsSchema (incrementDebugs now ws) m
  ∧ keepsSchema (addSave now ext) m.
Proof.
  intros Hp Hname Hf.
  destruct (mutation_complete now ws b ext m Hp Hname Hf)
    as (Hs & He & Hu & Hb & Ht & Hd & Hsv).
  repeat apply conj; apply keepsSchema_intro; try done.
  - eexists. apply startTracking_run.
  - destruct (endTracking_spec now ws m) as (m' & Hrun & _); [done|by eexists].
  - destruct (updateAllDaySeconds_spec now m Hname) as (m' & Hrun & _). by eexists.
  - eexists. unfold addBranch. by apply updateDetails_run.
  - eexists. unfold incrementTasks. by apply updateDetails_run.
  - eexists. unfold incrementDebugs. by apply updateDetails_run.
  - eexists. apply addSave_run.
Qed.

(** ** Saving *)

Lemma mergeActive_cons pid rest mp up :
  mergeActive (pid :: rest) (Some mp) (Some up)
  = match mp !! pid with
    | Some d => mergeActive rest (Some mp) (Some (<[pid := d]> up))
    | None => mergeActive rest (Some mp) (Some up)
    end.
Proof. done. Qed.

Lemma mergeActive_Some pids mp up :
  ∃ merged,
    mergeActive pids (Some mp) (Some up) = Ok (Some merged)
    ∧ ∀ p, merged !! p
           = match (if decide (p ∈ pids) then mp !! p else None) with
             | Some e => Some e
             | None => up !! p
             end.
Proof.
  revert up. induction pids as [|pid rest IH]; intros up.
  - exists up. split; [done|]. intros p.
    by rewrite decide_False by apply not_elem_of_nil.
  - rewrite mergeActive_cons. destruct (mp !! pid) as [d|] eqn:Hd.
    + destruct (IH (<[pid := d]> up)) as (merged & -> & Hlook).
      exists merged. split; [done|]. intros p. rewrite Hlook.
      destruct (decide (p = pid)) as [->|Hne].
      * rewrite (decide_True (P := pid ∈ pid :: rest)) by left. rewrite Hd.
        case_decide; [done | by rewrite lookup_insert_eq].
      * rewrite lookup_insert_ne by done.
        destruct (decide (p ∈ rest)) as [Hin|Hin].
        -- by rewrite decide_True by (by right).
        -- rewrite decide_False; [done|]. by intros [?|?]%elem_of_cons.
    + destruct (IH up) as (merged & -> & Hlook).
      exists merged. split; [done|]. intros p. rewrite Hlook.
      destruct (decide (p = pid)) as [->|Hne].
      * rewrite (decide_True (P := pid ∈ pid :: rest)) by left. rewrite Hd.
        case_decide; done.
      * destruct (decide (p ∈ rest)) as [Hin|Hin].
        -- by rewrite decide_True by (by right).
        -- rewrite decide_False; [done|]. by intros [?|?]%elem_of_cons.
Qed.

Lemma save_unfold disk now m :
  save disk now m
  = match checkForChanges disk now m with
    | (Ok _, m') => (Ok (Text (Json (store m'))), m')
    | (Throw e, m') => (Throw e, m')
    end.
Proof.
  unfold save, mbind, M_bind, bind.
  by destruct (checkForChanges disk now m) as [[[]|e] m'].
Qed.

(** When one of the two ledgers for today is missing, nothing is merged. *)
Lemma checkForChanges_skip loaded now m :
  let today := dateString now 0 in
  days (store m) !! today = None ∨ days loaded !! today = None →
  checkForChanges (Text (Json loaded)) now m = (Ok tt, m).
Proof.
  intros today Hnone. unfold checkForChanges, mbind, M_bind, bind, lift; simpl.
  fold today. destruct Hnone as [-> | Hl]; [done|].
  rewrite Hl. by destruct (days (store m) !! today).
Qed.

(** When both are there, with their projects: the entry of a project that
    has a session and an entry in memory comes from memory, every other
    entry of the result comes from the file. *)
Lemma checkForChanges_merge loaded now m memDay loadedDay mp lp :
  let today := dateString now 0 in
  days (store m) !! today = Some memDay →
  projects memDay = Some mp →
  days loaded !! today = Some loadedDay →
  projects loadedDay = Some lp →
  ∃ merged,
    checkForChanges (Text (Json loaded)) now m
    = (Ok tt, setDay m today (mkDay (Some merged) (saves memDay)))
    ∧ ∀ p, merged !! p
           = match activeProjects m !! p, mp !! p with
             | Some _, Some e => Some e
             | _, _ => lp !! p
             end.
Proof.
  intros today Hmem Hmp Hloaded Hlp.
  unfold checkForChanges, mbind, M_bind, bind, lift, get_store, get_active; simpl.
  fold today. rewrite Hmem, Hloaded, Hmp, Hlp.
  destruct (mergeActive_Some (map_to_list (activeProjects m)).*1 mp lp)
    as (merged & -> & Hlook).
  exists merged. split; [done|]. intros p. rewrite Hlook.
  destruct (activeProjects m !! p) as [start|] eqn:Hact.
  - rewrite decide_True; [done|]. apply elem_of_keys. by eexists.
  - rewrite decide_False; [done|]. rewrite elem_of_keys, Hact. by intros [? ?].
Qed.

(** Whatever the file holds, [checkForChanges] touches nothing but the
    projects of today's ledger. *)
Lemma checkForChanges_frame disk now m r m' :
  checkForChanges disk now m = (r, m') →
  let today := dateString now 0 in
  activeProjects m' = activeProjects m
  ∧ version (store m') = version (store m)
  ∧ (∀ day, day ≠ today → days (store m') !! day = days (store m) !! day)
  ∧ (∀ day, days (store m') !! day ≫= saves = days (store m) !! day ≫= saves)
  ∧ (∀ day, is_Some (days (store m') !! day) ↔ is_Some (days (store m) !! day)).
Proof.
  unfold checkForChanges, mbind, M_bind, bind, lift, get_store, get_active; simpl.
  destruct (readFile disk) as [c|]; simpl; [|by intros [= <- <-]].
  destruct (JSON_parse c) as [loaded|]; simpl; [|by intros [= <- <-]].
  destruct (days (store m) !! dateString now 0) as [memDay|] eqn:Hmem;
    [|by intros [= <- <-]].
  destruct (days loaded !! dateString now 0) as [loadedDay|];
    [|by intros [= <- <-]].
  destruct (mergeActive _ _ _) as [up|]; simpl; [|by intros [= <- <-]].
  unfold set_store; simpl. intros [= <- <-]; simpl.
  split; [done|]. split; [done|]. split; [|split].
  - intros day Hday. by rewrite lookup_insert_ne.
  - intros day. destruct (decide (day = dateString now 0)) as [->|Hday].
    + by rewrite lookup_insert_eq, Hmem.
    + by rewrite lookup_insert_ne.
  - intros day. destruct (decide (day = dateString now 0)) as [->|Hday].
    + rewrite lookup_insert_eq, Hmem. split; by eexists.
    + by rewrite lookup_insert_ne.
Qed.

(** On a file that parses, between two stores that satisfy the schema,
    [save] returns normally. *)
Lemma save_returns loaded now m :
  completeStore (store m) → completeStore loaded →
  ∃ m', save (Text (Json loaded)) now m = (Ok (Text (Json (store m'))), m').
Proof.
  intros Hm Hl. rewrite save_unfold.
  destruct (days (store m) !! dateString now 0) as [memDay|] eqn:Hmem.
  2: { exists m. by rewrite checkForChanges_skip by (by left). }
  destruct (days loaded !! dateString now 0) as [loadedDay|] eqn:Hld.
  2: { exists m. by rewrite checkForChanges_skip by (by right). }
  pose proof (completeStore_day _ _ _ Hm Hmem) as [_ Hp].
  pose proof (completeStore_day _ _ _ Hl Hld) as [_ Hq].
  destruct (projects memDay) as [mp|] eqn:Hmp; [|done].
  destruct (projects loadedDay) as [lp|] eqn:Hlp; [|done].
  destruct (checkForChanges_merge loaded now m _ _ _ _ Hmem Hmp Hld Hlp)
    as (merged & -> & _).
  by eexists.
Qed.

(** C9. The merge made by [save] reaches the projects of today's ledger and
    nothing else. The file that [save] writes is the store of the instance;
    its saves, on every day, are those the instance held in memory before
    the call, whatever the file held, and so are the ledgers of the other
    days. On a file that parses, between two stores that satisfy the schema,
    [save] does return and write. *)
Theorem save_writes_memory_saves now m :
  let today := dateString now 0 in
  (∀ disk disk' m',
     save disk now m = (Ok disk', m') →
     disk' = Text (Json (store m'))
     ∧ (∀ day, savesAt (store m') day = savesAt (store m) day)
     ∧ (∀ day, days (store m') !! day ≫= saves = days (store m) !! day ≫= saves)
     ∧ (∀ day, day ≠ today → days (store m') !! day = days (store m) !! day)
     ∧ activeProjects m' = activeProjects m)
  ∧ (∀ loaded,
       completeStore (store m) → completeStore loaded →
       ∃ m', save (Text (Json loaded)) now m = (Ok (Text (Json (store m'))), m')).
Proof.
  intros today. split; [|intros loaded; apply save_returns].
  intros disk disk' m'. rewrite save_unfold.
  destruct (checkForChanges disk now m) as [[[]|e] m1] eqn:Hcheck; [|done].
  intros [= <- <-].
  destruct (checkForChanges_frame _ _ _ _ _ Hcheck) as (Hact & _ & Hdays & Hsaves & _).
  split; [done|]. split; [|split; [done|split; [done|done]]].
  intros day. unfold savesAt. by rewrite Hsaves.
Qed.

(** C1, as the code has it. When the file can be read and both the instance
    and the file hold a ledger for today, each with its projects, [save]
    writes for today: the in-memory entry of every project that has a
    session and an in-memory entry, and the entry of the file (none when the
    file has none) for every other project. When one of the two ledgers for
    today is missing, nothing is merged and the store is written as it is. *)
Theorem save_merges_today loaded now m :
  let today := dateString now 0 in
  (∀ memDay loadedDay mp lp,
     days (store m) !! today = Some memDay →
     projects memDay = Some mp →
     days loaded !! today = Some loadedDay →
     projects loadedDay = Some lp →
     ∃ m',
       save (Text (Json loaded)) now m = (Ok (Text (Json (store m'))), m')
       ∧ (∀ p, projectsAt (store m') today !! p
               = match activeProjects m !! p, mp !! p with
                 | Some _, Some e => Some e
                 | _, _ => lp !! p
                 end)
       ∧ (∀ p, activeProjects m !! p = None →
               projectsAt (store m') today !! p = projectsAt loaded today !! p)
       ∧ (∀ p e, is_Some (activeProjects m !! p) →
                 projectsAt (store m) today !! p = Some e →
                 projectsAt (store m') today !! p = Some e))
  ∧ (days (store m) !! today = None ∨ days loaded !! today = None →
     save (Text (Json loaded)) now m = (Ok (Text (Json (store m))), m)).
Proof.
  intros today. split.
  - intros memDay loadedDay mp lp Hmem Hmp Hloaded Hlp.
    destruct (checkForChanges_merge loaded now m _ _ _ _ Hmem Hmp Hloaded Hlp)
      as (merged & Hrun & Hlook).
    eexists. rewrite save_unfold, Hrun. split; [done|].
    rewrite projectsAt_setDay_Some.
    assert (projectsAt (store m) today = mp) as Hmp'.
    { unfold projectsAt. rewrite Hmem; simpl. by rewrite Hmp. }
    assert (projectsAt loaded today = lp) as Hlp'.
    { unfold projectsAt. rewrite Hloaded; simpl. by rewrite Hlp. }
    split; [done|]. split.
    + intros p Hnone. by rewrite Hlook, Hnone, Hlp'.
    + intros p e [start Hstart] He. rewrite Hlook, Hstart.
      rewrite Hmp' in He. by rewrite He.
  - intros Hnone. by rewrite save_unfold, checkForChanges_skip.
Qed.

(** C8. [load] returns normally on every state of the file and of the
    instance. When the file is missing, cannot be read or does not parse,
    the instance is left as it was; on a new instance that is the empty
    store tagged with the current version. *)
Theorem load_never_throws :
  (∀ disk m, ∃ m', load disk m = (Ok tt, m'))
  ∧ (∀ m, load Missing m = (Ok tt, m)
          ∧ load Unreadable m = (Ok tt, m)
          ∧ load (Text Garbage) m = (Ok tt, m))
  ∧ store (state_after (load Missing) newTimeManager)
    = mkFile CURRENT_SCHEMA_VERSION ∅
  ∧ store (state_after (load Unreadable) newTimeManager)
    = mkFile CURRENT_SCHEMA_VERSION ∅
  ∧ store (state_after (load (Text Garbage)) newTimeManager)
    = mkFile CURRENT_SCHEMA_VERSION ∅.
Proof.
  split; [|by repeat split].
  intros disk m. unfold load.
  destruct (try_catch_returns
              (contents ← lift (readFile disk);
               parsed ← lift (JSON_parse contents);
               set_store parsed;;
               if decide (version parsed ≠ CURRENT_SCHEMA_VERSION) then
                 for_each (map_to_list (days parsed)).*1
                   (λ day, validateDaySchema day (mkFilter None (Some true)));;
                 s ← get_store;
                 set_store (mkFile CURRENT_SCHEMA_VERSION (days s))
               else mret tt) tt m) as ([] & m' & Hrun).
  by exists m'.
Qed.

(** ** The variant with one file per day *)

(** [DayManager.load] returns normally on every file, and marks the day as
    existing exactly when the file was read, parsed and, if of another
    version, normalised. *)
Lemma perday_load_returns disk d :
  ∃ d', PerDay.load disk d = (Ok tt, d').
Proof.
  unfold PerDay.load, try_catch.
  match goal with |- context [match ?c d with _ => _ end] => destruct (c d) as [[[]|e] d'] end;
    by eexists.
Qed.

Lemma perday_load_unusable disk d :
  disk = PerDay.Missing ∨ disk = PerDay.Unreadable
  ∨ disk = PerDay.Text PerDay.Blank ∨ disk = PerDay.Text PerDay.Garbage →
  PerDay.load disk d = (Ok tt, PerDay.mkDayManager false (PerDay.store d)).
Proof. by intros [->|[->|[->| ->]]]. Qed.

Lemma perday_load_current f d :
  PerDay.version f = PerDay.CURRENT_SCHEMA_VERSION →
  PerDay.load (PerDay.Text (PerDay.Json f)) d
  = (Ok tt, PerDay.mkDayManager true f).
Proof.
  intros Hv. unfold PerDay.load, try_catch, mbind, M_bind, bind, lift; simpl.
  by rewrite decide_False by (by intros ?).
Qed.

(** The merge of this variant reads the file under a [try]: with no file,
    or an empty one, [save] writes the store of the day as it is. *)
Lemma perday_save_without_file disk act d :
  disk = PerDay.Missing ∨ disk = PerDay.Unreadable
  ∨ disk = PerDay.Text PerDay.Blank →
  PerDay.save disk act d
  = (Ok (PerDay.Text (PerDay.Json (PerDay.store d))),
     PerDay.mkDayManager true (PerDay.store d)).
Proof. by intros [->|[->| ->]]. Qed.

(** X17. In the variant with one file per day, [DayManager.save] over a file
    that holds a ledger with its projects, from a store that holds one too,
    always merges: for a project with a session and an entry in memory the
    entry of memory is written, for every other project the entry of the
    file; the saves written are those of memory, and the manager is flagged
    as existing. *)
Lemma perday_save_merges loaded act v mp sv up lsv :
  PerDay.day loaded = Some (mkDay (Some up) lsv) →
  ∀ b, ∃ merged,
    PerDay.save (PerDay.Text (PerDay.Json loaded)) act
      (PerDay.mkDayManager b (PerDay.mkFile v (Some (mkDay (Some mp) sv))))
    = (let f := PerDay.mkFile v (Some (mkDay (Some merged) sv)) in
       (Ok (PerDay.Text (PerDay.Json f)), PerDay.mkDayManager true f))
    ∧ ∀ p, merged !! p
           = match (if decide (p ∈ (map_to_list act).*1) then mp !! p else None) with
             | Some e => Some e
             | None => up !! p
             end.
Proof.
  intros Hday b.
  destruct (mergeActive_Some (map_to_list act).*1 mp up) as (merged & Hm & Hlook).
  exists merged. split; [|done].
  unfold PerDay.save, PerDay.checkForChanges, mbind, M_bind, bind, lift; simpl.
  rewrite Hday; simpl. by rewrite Hm.
Qed.

(** [getStats] of this variant gives the stored ledger of a day that
    exists, whatever sessions are in progress. *)
Lemma perday_getStats_stored d stats :
  PerDay.doesExist d = true →
  PerDay.day (PerDay.store d) = Some stats →
  PerDay.getStats d = Ok (Some stats).
Proof. intros He Hd. unfold PerDay.getStats. by rewrite He, Hd. Qed.

Lemma perday_getStats_absent d :
  PerDay.doesExist d = false → PerDay.getStats d = Ok None.
Proof. intros He. unfold PerDay.getStats. by rewrite He. Qed.

(** ** The theorems at work on the two windows *)




Example addBranch_twice_branches :
  branchesAt
    (store (state_after
              (for_each [(Scenario.t0, Scenario.X, "main");
                         (Scenario.after 5, Scenario.X, "dev");
                         (Scenario.after 9, Scenario.X, "main")]
                        (λ c, addBranch c.1.1 c.1.2 c.2)) Scenario.A0))
    Scenario.today "X"
  = ["main"; "dev"].
Proof. vm_compute. reflexivity. Qed.


(** Thirty seconds settled and ten in progress today, a hundred yesterday;
    one task yesterday; the branch of today first. *)
Example getStatsForPeriod_week :
  match getStatsForPeriod (Scenario.after 40) "X" 7 Scenario.C3 with
  | Ok stats =>
      branches stats = Some ["dev"; "main"]
      ∧ (default 0 (seconds stats) == 140)%Q
      ∧ (default 0 (tasks stats) == 1)%Q
      ∧ (default 0 (debugs stats) == 0)%Q
  | Throw _ => False
  end.
Proof. vm_compute. repeat split; reflexivity. Qed.


(** Forty seconds into the session of [X], nothing settled: the query for
    today has no ledger to show and the period shows no second. *)
Example session_without_entry_stats :
  getStats (Scenario.after 40) Scenario.today Scenario.A1 = None
  ∧ getStatsForPeriod (Scenario.after 40) "X" 7 Scenario.A1 = Ok freshDetails.
Proof. split; vm_compute; reflexivity. Qed.

Lemma save_writes_memory_saves_witness :
  save Scenario.diskB (Scenario.after 40) Scenario.A2
  = (Ok (Scenario.saved Scenario.diskB (Scenario.after 40) Scenario.A2),
     state_after (save Scenario.diskB (Scenario.after 40)) Scenario.A2)
  ∧ savesAt Scenario.fileB Scenario.today !! ".ts" = Some 1%Q
  ∧ savesAt (store (state_after (save Scenario.diskB (Scenario.after 40)) Scenario.A2))
      Scenario.today !! ".ts" = None
  ∧ Scenario.saved Scenario.diskB (Scenario.after 40) Scenario.A2
    = Text (Json (store (state_after (save Scenario.diskB (Scenario.after 40))
                           Scenario.A2)))
  ∧ (∀ day, savesAt (store (state_after (save Scenario.diskB (Scenario.after 40))
                              Scenario.A2)) day
            = savesAt (store Scenario.A2) day)
  ∧ completeStore (store Scenario.A2)
  ∧ completeStore Scenario.fileB
  ∧ ∃ m', save (Text (Json Scenario.fileB)) (Scenario.after 40) Scenario.A2
          = (Ok (Text (Json (store m'))), m').
Proof.
  assert (save Scenario.diskB (Scenario.after 40) Scenario.A2
          = (Ok (Scenario.saved Scenario.diskB (Scenario.after 40) Scenario.A2),
             state_after (save Scenario.diskB (Scenario.after 40)) Scenario.A2))
    as Hrun by (vm_compute; reflexivity).
  split; [exact Hrun|]. split; [vm_compute; reflexivity|].
  split; [vm_compute; reflexivity|].
  destruct (save_writes_memory_saves (Scenario.after 40) Scenario.A2) as [Hany Hret].
  destruct (Hany _ _ _ Hrun) as (Hfile & Hsaves & _).
  split; [exact Hfile|]. split; [exact Hsaves|].
  assert (completeStore (store Scenario.A2)) as HA.
  { apply (bool_decide_unpack (completeStore (store Scenario.A2))).
    vm_compute. exact I. }
  assert (completeStore Scenario.fileB) as HB.
  { apply (bool_decide_unpack (completeStore Scenario.fileB)).
    vm_compute. exact I. }
  split; [exact HA|]. split; [exact HB|].
  exact (Hret Scenario.fileB HA HB).
Defined.

(** The claim C1 as it is written fails when the instance holds no ledger
    for today: [A] tracks [X] and has settled nothing, [B] has written the
    counters of [Y] to the file, [Y] has no session in [A]; [A] saves, and
    the file it leaves is its own store, without [Y]. *)
Lemma save_without_ledger_drops_file_entry :
  Scenario.diskB = Text (Json Scenario.fileB)
  ∧ projectsAt Scenario.fileB Scenario.today !! "Y"
    = Some (mkDetails (Some ["main"]) (Some 0%Q) (Some 0%Q) (Some (5000 # 1000)%Q))
  ∧ activeProjects Scenario.A1 !! "X" = Some Scenario.t0
  ∧ activeProjects Scenario.A1 !! "Y" = None
  ∧ days (store Scenario.A1) !! Scenario.today = None
  ∧ save Scenario.diskB (Scenario.after 40) Scenario.A1
    = (Ok (Text (Json (store Scenario.A1))), Scenario.A1)
  ∧ projectsAt (store Scenario.A1) Scenario.today !! "Y" = None.
Proof. repeat split; vm_compute; reflexivity. Qed.

(** A second way: a session whose project has no entry in memory. The
    entry of the file stays, so the counters written for a project with a
    session are not always those of the memory. *)
Example save_keeps_file_entry_of_session :
  activeProjects Scenario.A3 !! "X" = Some Scenario.t0
  ∧ is_Some (days (store Scenario.A3) !! Scenario.today)
  ∧ projectsAt (store Scenario.A3) Scenario.today !! "X" = None
  ∧ projectsAt
      (store (state_after (save (Text (Json Scenario.fileX)) (Scenario.after 40))
                Scenario.A3))
      Scenario.today !! "X"
    = Some (mkDetails (Some ["main"]) (Some 2%Q) (Some 0%Q) (Some 99%Q)).
Proof. repeat split; try (vm_compute; reflexivity). vm_compute. by eexists. Qed.

(** In the year-file variant a missing file makes [save] throw, and nothing
    is written. *)
Example save_missing_file_throws :
  save Missing (Scenario.after 40) Scenario.A2 = (Throw IOError, Scenario.A2).
Proof. reflexivity. Qed.

Lemma save_merges_today_witness :
  let now := Scenario.after 40 in
  let today := dateString now 0 in
  let memDay := default (mkDay None None) (days (store Scenario.A2) !! today) in
  let loadedDay := default (mkDay None None) (days Scenario.fileB !! today) in
  let mp := projectsAt (store Scenario.A2) today in
  let lp := projectsAt Scenario.fileB today in
  days (store Scenario.A2) !! today = Some memDay
  ∧ projects memDay = Some mp
  ∧ days Scenario.fileB !! today = Some loadedDay
  ∧ projects loadedDay = Some lp
  ∧ ∃ m',
      save (Text (Json Scenario.fileB)) now Scenario.A2
      = (Ok (Text (Json (store m'))), m')
      ∧ (∀ p, projectsAt (store m') today !! p
              = match activeProjects Scenario.A2 !! p, mp !! p with
                | Some _, Some e => Some e
                | _, _ => lp !! p
                end)
      ∧ (∀ p, activeProjects Scenario.A2 !! p = None →
              projectsAt (store m') today !! p = projectsAt Scenario.fileB today !! p)
      ∧ (∀ p e, is_Some (activeProjects Scenario.A2 !! p) →
                projectsAt (store Scenario.A2) today !! p = Some e →
                projectsAt (store m') today !! p = Some e).
Proof.
  intros now today memDay loadedDay mp lp.
  assert (days (store Scenario.A2) !! today = Some memDay) as H1
    by (vm_compute; reflexivity).
  assert (projects memDay = Some mp) as H2 by (vm_compute; reflexivity).
  assert (days Scenario.fileB !! today = Some loadedDay) as H3
    by (vm_compute; reflexivity).
  assert (projects loadedDay = Some lp) as H4 by (vm_compute; reflexivity).
  split; [exact H1|]. split; [exact H2|]. split; [exact H3|]. split; [exact H4|].
  exact (proj1 (save_merges_today Scenario.fileB now Scenario.A2)
           memDay loadedDay mp lp H1 H2 H3 H4).
Defined.

(** [A] has settled thirty seconds for [X]; the file it writes holds these
    and the five seconds that [B] had written for [Y]. *)
Example save_merges_two_windows :
  let f := store (state_after (save Scenario.diskB (Scenario.after 40)) Scenario.A2) in
  (recordedSeconds f Scenario.today "X" == 30)%Q
  ∧ (recordedSeconds f Scenario.today "Y" == 5)%Q
  ∧ branchesAt f Scenario.today "Y" = ["main"].
Proof. vm_compute. repeat split; reflexivity. Qed.

(** ** The schema invariant across load, mutation and save *)


(** The aggregate of such an entry has no number for [tasks] and [debugs]. *)
Example merged_entry_stats :
  getStatsForPeriod (Scenario.after 50) "Y" 1 Scenario.E0
  = Ok (mkDetails (Some []) None None (Some (0 + 30)%Q)).
Proof. vm_compute. reflexivity. Qed.

Lemma validateDaySchema_run chosenDay project m :
  validateDaySchema chosenDay project m
  = (Ok tt, setDay m chosenDay (validateDay (days (store m) !! chosenDay) project)).
Proof. done. Qed.



(** ** The copy that [getStats] returns *)

Section heap_facts.
Implicit Types (h : Heap.heap) (l : Heap.loc) (o : Heap.object).

Lemma alloc_spec o h l h' :
  Heap.alloc o h = (l, h') → h !! l = None ∧ h' = <[l := o]> h.
Proof.
  unfold Heap.alloc. intros [= <- <-]. split; [|done].
  apply not_elem_of_dom, is_fresh.
Qed.

Lemma alloc_extends o h l h' : Heap.alloc o h = (l, h') → h ⊆ h'.
Proof. intros [Hl ->]%alloc_spec. by apply insert_subseteq. Qed.

Lemma alloc_lookup o h l h' : Heap.alloc o h = (l, h') → h' !! l = Some o.
Proof. intros [Hl ->]%alloc_spec. apply lookup_insert_eq. Qed.

Lemma alloc_dom o h l h' : Heap.alloc o h = (l, h') → dom h' = {[l]} ∪ dom h.
Proof. intros [Hl ->]%alloc_spec. apply dom_insert_L. Qed.

Lemma alloc_fresh o h l h' : Heap.alloc o h = (l, h') → l ∉ dom h.
Proof. intros [Hl ->]%alloc_spec. by apply not_elem_of_dom. Qed.

(** Growing the heap keeps what a location stands for. *)
Lemma repDetails_mono h h' l d :
  h ⊆ h' → Heap.repDetails h l d → Heap.repDetails h' l d.
Proof.
  intros Hsub (b & Hl & Hb). exists b. split; [by eapply lookup_weaken|].
  destruct b, (branches d); try done. by eapply lookup_weaken.
Qed.

Lemma repProjects_mono h h' l ps :
  h ⊆ h' → Heap.repProjects h l ps → Heap.repProjects h' l ps.
Proof.
  intros Hsub (entries & Hl & Hrep & Hinj). exists entries.
  split; [by eapply lookup_weaken|]. split; [|done].
  intros k. specialize (Hrep k).
  destruct (entries !! k), (ps !! k); try done. by eapply repDetails_mono.
Qed.

(** Reading back what a location stands for. *)
Lemma repDetails_read h l d : Heap.repDetails h l d → Heap.readDetails h l = Some d.
Proof.
  intros (b & Hl & Hb). unfold Heap.readDetails. rewrite Hl.
  destruct d as [br t dd s]; simpl in *. f_equal. f_equal.
  destruct b as [bl|], br as [items|]; try done. simpl. by rewrite Hb.
Qed.

Lemma repProjects_read h l ps : Heap.repProjects h l ps → Heap.readProjects h l = Some ps.
Proof.
  intros (entries & Hl & Hrep & _). unfold Heap.readProjects. rewrite Hl.
  f_equal. apply map_eq; intros k. rewrite lookup_omap. specialize (Hrep k).
  destruct (entries !! k), (ps !! k); try done. simpl. by apply repDetails_read.
Qed.

Lemma repDay_read h l d : Heap.repDay h l d → Heap.stringify h l = Some d.
Proof.
  intros (p & s & Hl & Hp & Hs). unfold Heap.stringify. rewrite Hl.
  destruct d as [ps sv]; simpl in *. f_equal. f_equal.
  - destruct p, ps; try done. simpl. by apply repProjects_read.
  - destruct s, sv; try done. simpl. unfold Heap.readSaves. by rewrite Hs.
Qed.

(** The locations of a ledger. *)
Lemma elem_of_locsDetails h l x :
  x ∈ Heap.locsDetails h l
  ↔ x = l ∨ ∃ t d s, h !! l = Some (Heap.Details (Some x) t d s).
Proof.
  unfold Heap.locsDetails. rewrite elem_of_union, elem_of_singleton.
  destruct (h !! l) as [[[b|] t d s| | | |]|];
    rewrite ?elem_of_singleton, ?elem_of_empty;
    (split; [intros [?|?]; [by left | try done; subst; right; by eexists _, _, _]
            |intros [?|(? & ? & ? & ?)]; [by left | try done; right; congruence]]).
Qed.

Lemma elem_of_locsProjects h l x :
  x ∈ Heap.locsProjects h l
  ↔ x = l ∨ ∃ entries k dl,
              h !! l = Some (Heap.Projects entries)
              ∧ entries !! k = Some dl
              ∧ x ∈ Heap.locsDetails h dl.
Proof.
  unfold Heap.locsProjects. rewrite elem_of_union, elem_of_singleton.
  destruct (h !! l) as [[| |entries| |]|];
    try (rewrite elem_of_empty;
         split; [intros [?|[]]; by left
                |intros [?|(? & ? & ? & ? & _)]; [by left | done]]).
  assert (x ∈ map_fold (λ _ dl acc, Heap.locsDetails h dl ∪ acc) ∅ entries
          ↔ ∃ k dl, entries !! k = Some dl ∧ x ∈ Heap.locsDetails h dl) as ->.
  { apply (map_fold_weak_ind (λ acc m,
      x ∈ acc ↔ ∃ k dl, m !! k = Some dl ∧ x ∈ Heap.locsDetails h dl)).
    - split; [set_solver|]. intros (k & dl & Hk & _). by rewrite lookup_empty in Hk.
    - intros k dl m acc Hk IH. rewrite elem_of_union, IH. split.
      + intros [Hx|(k' & dl' & Hk' & Hx)].
        * exists k, dl. by rewrite lookup_insert_eq.
        * exists k', dl'. rewrite lookup_insert_ne; [done|]. intros ->. congruence.
      + intros (k' & dl' & Hk' & Hx). destruct (decide (k' = k)) as [->|Hne].
        * rewrite lookup_insert_eq in Hk'. injection Hk' as ->. by left.
        * rewrite lookup_insert_ne in Hk' by done. right. by exists k', dl'. }
  split.
  - intros [?|(k & dl & ? & ?)]; [by left|]. right. by exists entries, k, dl.
  - intros [?|(e & k & dl & [= <-] & ? & ?)]; [by left|]. right. by exists k, dl.
Qed.

Lemma elem_of_locsDay h l x :
  x ∈ Heap.locsDay h l
  ↔ x = l ∨ ∃ p s,
              h !! l = Some (Heap.Day p s)
              ∧ ((∃ pl, p = Some pl ∧ x ∈ Heap.locsProjects h pl) ∨ s = Some x).
Proof.
  unfold Heap.locsDay. rewrite elem_of_union, elem_of_singleton.
  destruct (h !! l) as [[| | | |p s]|];
    try (rewrite elem_of_empty;
         split; [intros [?|[]]; by left
                |intros [?|(? & ? & ? & _)]; [by left | done]]).
  rewrite elem_of_union. split.
  - intros [?|[Hp|Hs]]; [by left| |]; right; exists p, s; split; try done.
    + destruct p as [pl|]; simpl in Hp; [|by apply elem_of_empty in Hp].
      left. by exists pl.
    + destruct s as [sl|]; simpl in Hs; [|by apply elem_of_empty in Hs].
      right. f_equal. by apply elem_of_singleton in Hs.
  - intros [?|(p' & s' & [= <- <-] & [(pl & -> & Hx)|Hs])]; [by left| |].
    + right. by left.
    + right. right. subst s. simpl. by apply elem_of_singleton.
Qed.

Lemma locsDetails_mono h h' l d :
  h ⊆ h' → Heap.repDetails h l d → Heap.locsDetails h' l = Heap.locsDetails h l.
Proof.
  intros Hsub (b & Hl & _). unfold Heap.locsDetails.
  pose proof (lookup_weaken _ _ _ _ Hl Hsub) as Hl'. by rewrite Hl', Hl.
Qed.

(** What [JSON.parse] builds: the value, out of objects that were not there. *)
Lemma parseDetails_spec d h l h' :
  Heap.parseDetails d h = (l, h') →
  h ⊆ h'
  ∧ Heap.repDetails h' l d
  ∧ h !! l = None
  ∧ (∀ x, x ∈ Heap.locsDetails h' l → h !! x = None).
Proof.
  unfold Heap.parseDetails, Heap.parseBranches.
  destruct (branches d) as [items|] eqn:Hbr.
  - destruct (Heap.alloc (Heap.Branches items) h) as [bl h1] eqn:Hb.
    destruct (Heap.alloc _ h1) as [l1 h2] eqn:Hd. intros [= <- <-].
    pose proof (alloc_extends _ _ _ _ Hb) as Hsub1.
    pose proof (alloc_extends _ _ _ _ Hd) as Hsub2.
    pose proof (alloc_spec _ _ _ _ Hd) as [Hl1 _].
    assert (h !! l1 = None) as Hl.
    { destruct (h !! l1) eqn:E; [|done].
      by rewrite (lookup_weaken _ _ _ _ E Hsub1) in Hl1. }
    split; [by etrans|]. split; [|split; [done|]].
    + exists (Some bl). split; [by eapply alloc_lookup|]. rewrite Hbr.
      eapply lookup_weaken; [by eapply alloc_lookup | done].
    + intros x [->|(t & dd & s & Hx)]%elem_of_locsDetails; [done|].
      rewrite (alloc_lookup _ _ _ _ Hd) in Hx. injection Hx as <-.
      by apply (alloc_spec _ _ _ _ Hb).
  - destruct (Heap.alloc _ h) as [l1 h2] eqn:Hd. intros [= <- <-].
    pose proof (alloc_spec _ _ _ _ Hd) as [Hl1 _].
    split; [by eapply alloc_extends|]. split; [|split; [done|]].
    + exists None. split; [by eapply alloc_lookup|]. by rewrite Hbr.
    + intros x [->|(t & dd & s & Hx)]%elem_of_locsDetails; [done|].
      by rewrite (alloc_lookup _ _ _ _ Hd) in Hx.
Qed.

(** The loop of [JSON.parse] over the entries of a projects object, from the
    heap [h]. *)
Lemma parseEntries_spec h ps :
  let r := map_fold Heap.parseEntry (∅, h) ps in
  h ⊆ r.2
  ∧ (∀ k, match r.1 !! k, ps !! k with
          | Some dl, Some d =>
              Heap.repDetails r.2 dl d
              ∧ (∀ x, x ∈ Heap.locsDetails r.2 dl → h !! x = None)
          | None, None => True
          | _, _ => False
          end)
  ∧ (∀ k1 k2 dl, r.1 !! k1 = Some dl → r.1 !! k2 = Some dl → k1 = k2).
Proof.
  apply (map_fold_weak_ind (λ r m,
    h ⊆ r.2
    ∧ (∀ k, match r.1 !! k, m !! k with
            | Some dl, Some d =>
                Heap.repDetails r.2 dl d
                ∧ (∀ x, x ∈ Heap.locsDetails r.2 dl → h !! x = None)
            | None, None => True
            | _, _ => False
            end)
    ∧ (∀ k1 k2 dl, r.1 !! k1 = Some dl → r.1 !! k2 = Some dl → k1 = k2))).
  - simpl. split; [done|]. split; [|by intros ??? Hk; rewrite lookup_empty in Hk].
    intros k. by rewrite !lookup_empty.
  - intros i d m [entries h1] Hi (Hsub & Hrep & Hinj). simpl in *.
    unfold Heap.parseEntry; simpl.
    destruct (Heap.parseDetails d h1) as [l h2] eqn:Hparse.
    destruct (parseDetails_spec _ _ _ _ Hparse) as (Hsub2 & Hrepl & Hl & Hlocs).
    simpl. split; [by etrans|]. split.
    + intros k. destruct (decide (k = i)) as [->|Hne].
      * rewrite !lookup_insert_eq. split; [done|]. intros x Hx.
        specialize (Hlocs x Hx). destruct (h !! x) eqn:E; [|done].
        by rewrite (lookup_weaken _ _ _ _ E Hsub) in Hlocs.
      * rewrite !lookup_insert_ne by done. specialize (Hrep k).
        destruct (entries !! k) as [dl|], (m !! k); try done.
        destruct Hrep as [Hrepk Hfresh]. split; [by eapply repDetails_mono|].
        intros x. rewrite (locsDetails_mono h1 h2 dl t) by done. apply Hfresh.
    + intros k1 k2 dl. destruct (decide (k1 = i)) as [->|Hne1],
        (decide (k2 = i)) as [->|Hne2]; try done.
      * rewrite lookup_insert_eq, lookup_insert_ne by done. intros [= <-] Hk2.
        specialize (Hrep k2). rewrite Hk2 in Hrep.
        destruct (m !! k2); [|done]. destruct Hrep as [(b & Hb & _) _].
        congruence.
      * rewrite lookup_insert_eq, lookup_insert_ne by done. intros Hk1 [= <-].
        specialize (Hrep k1). rewrite Hk1 in Hrep.
        destruct (m !! k1); [|done]. destruct Hrep as [(b & Hb & _) _].
        congruence.
      * rewrite !lookup_insert_ne by done. apply Hinj.
Qed.

Lemma locsProjects_mono h h' l ps x :
  h ⊆ h' → Heap.repProjects h l ps →
  x ∈ Heap.locsProjects h' l → x ∈ Heap.locsProjects h l.
Proof.
  intros Hsub (entries & Hl & Hrep & _).
  rewrite !elem_of_locsProjects. intros [->|(es & k & dl & Hes & Hk & Hx)]; [by left|].
  right. rewrite (lookup_weaken _ _ _ _ Hl Hsub) in Hes. injection Hes as <-.
  exists entries, k, dl. split; [done|]. split; [done|].
  specialize (Hrep k). rewrite Hk in Hrep. destruct (ps !! k) as [d|]; [|done].
  by rewrite <- (locsDetails_mono h h' dl d).
Qed.

Lemma parseProjects_spec ps h l h' :
  Heap.parseProjects ps h = (l, h') →
  h ⊆ h'
  ∧ Heap.repProjects h' l ps
  ∧ (∀ x, x ∈ Heap.locsProjects h' l → h !! x = None).
Proof.
  unfold Heap.parseProjects.
  destruct (parseEntries_spec h ps) as (Hsub & Hrep & Hinj).
  destruct (map_fold Heap.parseEntry (∅, h) ps) as [entries h1]. simpl in *.
  intros Halloc.
  pose proof (alloc_extends _ _ _ _ Halloc) as Hsub1.
  pose proof (alloc_lookup _ _ _ _ Halloc) as Hl.
  pose proof (alloc_spec _ _ _ _ Halloc) as [Hfresh _].
  split; [by etrans|]. split.
  - exists entries. split; [done|]. split; [|done]. intros k. specialize (Hrep k).
    destruct (entries !! k), (ps !! k); try done.
    eapply repDetails_mono; [done | apply Hrep].
  - intros x [->|(es & k & dl & Hes & Hk & Hx)]%elem_of_locsProjects.
    + by eapply lookup_weaken_None.
    + rewrite Hl in Hes. injection Hes as <-. specialize (Hrep k).
      rewrite Hk in Hrep. destruct (ps !! k) as [d|]; [|done].
      destruct Hrep as [Hd Hnone]. apply Hnone.
      by rewrite <- (locsDetails_mono h1 h' dl d).
Qed.

Lemma parseDay_spec d h l h' :
  Heap.parseDay d h = (l, h') →
  h ⊆ h'
  ∧ Heap.repDay h' l d
  ∧ (∀ x, x ∈ Heap.locsDay h' l → h !! x = None).
Proof.
  unfold Heap.parseDay.
  assert (∃ p h1,
    match projects d with
    | Some ps => let '(l0, h0) := Heap.parseProjects ps h in (Some l0, h0)
    | None => (None, h)
    end = (p, h1)
    ∧ h ⊆ h1
    ∧ match p, projects d with
      | Some pl, Some ps =>
          Heap.repProjects h1 pl ps
          ∧ (∀ x, x ∈ Heap.locsProjects h1 pl → h !! x = None)
      | None, None => True
      | _, _ => False
      end) as (p & h1 & -> & Hsub1 & Hp).
  { destruct (projects d) as [ps|]; [|by exists None, h].
    destruct (Heap.parseProjects ps h) as [pl h1] eqn:Hparse.
    exists (Some pl), h1. split; [done|].
    by destruct (parseProjects_spec _ _ _ _ Hparse) as (? & ? & ?). }
  assert (∃ s h2,
    match saves d with
    | Some sv => let '(l0, h0) := Heap.alloc (Heap.Saves sv) h1 in (Some l0, h0)
    | None => (None, h1)
    end = (s, h2)
    ∧ h1 ⊆ h2
    ∧ match s, saves d with
      | Some sl, Some sv => h2 !! sl = Some (Heap.Saves sv) ∧ h1 !! sl = None
      | None, None => True
      | _, _ => False
      end) as (s & h2 & -> & Hsub2 & Hs).
  { destruct (saves d) as [sv|]; [|by exists None, h1].
    destruct (Heap.alloc (Heap.Saves sv) h1) as [sl h2] eqn:Halloc.
    exists (Some sl), h2. split; [done|]. split; [by eapply alloc_extends|].
    split; [by eapply alloc_lookup | by eapply alloc_spec]. }
  intros Halloc.
  pose proof (alloc_extends _ _ _ _ Halloc) as Hsub3.
  pose proof (alloc_lookup _ _ _ _ Halloc) as Hl.
  pose proof (alloc_spec _ _ _ _ Halloc) as [Hfresh _].
  assert (h1 ⊆ h') as Hsub13 by (by etrans).
  split; [by etrans|]. split.
  - exists p, s. split; [done|]. split.
    + destruct p, (projects d); try done.
      eapply repProjects_mono; [done | apply Hp].
    + destruct s, (saves d); try done.
      eapply lookup_weaken; [apply Hs | done].
  - intros x [->|(p' & s' & Hl' & Hx)]%elem_of_locsDay.
    + eapply lookup_weaken_None; [|exact Hsub1].
      by eapply lookup_weaken_None.
    + rewrite Hl in Hl'. injection Hl' as <- <-.
      destruct Hx as [(pl & -> & Hx)| ->].
      * destruct (projects d) as [ps|]; [|done]. destruct Hp as [Hrep Hnone].
        apply Hnone. by eapply locsProjects_mono.
      * destruct (saves d); [|done]. destruct Hs as [_ Hnone].
        by eapply lookup_weaken_None.
Qed.

(** The loop of [getStats] over the copy. A turn writes the details object of
    its own entry and no other object. *)
Lemma liveTurn_other now active entries k h l :
  (∀ k', entries !! k' ≠ Some l) →
  Heap.liveTurn now active entries k h !! l = h !! l.
Proof.
  intros Hl. unfold Heap.liveTurn.
  destruct (active !! k); [|done]. destruct (entries !! k) as [dl|] eqn:Hk; [|done].
  rewrite lookup_alter_ne; [done|]. intros ->. by apply (Hl k).
Qed.

Lemma liveTurn_entry now active entries k0 k dl h :
  (∀ k1 k2 l, entries !! k1 = Some l → entries !! k2 = Some l → k1 = k2) →
  entries !! k = Some dl →
  Heap.liveTurn now active entries k0 h !! dl
  = (if decide (k = k0)
     then match active !! k with
          | Some start => Heap.addSeconds (secondsSize now start)
          | None => λ o, o
          end
     else λ o, o) <$> h !! dl.
Proof.
  intros Hinj Hk. unfold Heap.liveTurn. destruct (decide (k = k0)) as [<-|Hne].
  - destruct (active !! k); [|by rewrite option_fmap_id].
    by rewrite Hk, lookup_alter_eq.
  - destruct (active !! k0); [|by rewrite option_fmap_id].
    destruct (entries !! k0) as [dl0|] eqn:Hk0; [|by rewrite option_fmap_id].
    rewrite lookup_alter_ne; [by rewrite option_fmap_id|].
    intros ->. apply Hne. by eapply Hinj.
Qed.

Lemma liveLoop_other now active entries ks h l :
  (∀ k', entries !! k' ≠ Some l) →
  foldl (λ acc k, Heap.liveTurn now active entries k acc) h ks !! l = h !! l.
Proof.
  intros Hl. revert h. induction ks as [|k ks IH]; intros h; [done|].
  simpl. rewrite IH. by apply liveTurn_other.
Qed.

Lemma liveLoop_entry now active entries ks k dl h :
  (∀ k1 k2 l, entries !! k1 = Some l → entries !! k2 = Some l → k1 = k2) →
  NoDup ks →
  entries !! k = Some dl →
  foldl (λ acc k, Heap.liveTurn now active entries k acc) h ks !! dl
  = (if decide (k ∈ ks)
     then match active !! k with
          | Some start => Heap.addSeconds (secondsSize now start)
          | None => λ o, o
          end
     else λ o, o) <$> h !! dl.
Proof.
  intros Hinj Hnd Hk. revert h. induction ks as [|k0 ks IH]; intros h.
  - simpl. by rewrite option_fmap_id.
  - apply NoDup_cons in Hnd as [Hk0 Hnd]. simpl. rewrite IH by done.
    rewrite (liveTurn_entry _ _ _ _ k) by done.
    destruct (decide (k = k0)) as [->|Hne].
    + rewrite decide_False by done. rewrite decide_True by left.
      by rewrite option_fmap_id.
    + rewrite option_fmap_id. destruct (decide (k ∈ ks)) as [Hin|Hin].
      * by rewrite decide_True by (by right).
      * rewrite decide_False; [done|]. by intros [?|?]%elem_of_cons.
Qed.

Lemma repDetails_live now active k h h' dl d :
  Heap.repDetails h dl d →
  h' !! dl
  = match active !! k with
    | Some start => Heap.addSeconds (secondsSize now start)
    | None => λ o, o
    end <$> h !! dl →
  (∀ bl items, h !! bl = Some (Heap.Branches items) → h' !! bl = Some (Heap.Branches items)) →
  Heap.repDetails h' dl (liveSeconds now active k d).
Proof.
  intros (b & Hdl & Hb) Hdl' Hbranches. rewrite Hdl in Hdl'.
  exists b. unfold liveSeconds. destruct (active !! k) as [start|]; simpl in *.
  - split; [done|]. destruct b, (branches d); try done. by apply Hbranches.
  - split; [done|]. destruct b, (branches d); try done. by apply Hbranches.
Qed.

Lemma for_in_empty {S} (body : string → S → S) (s : S) :
  for_in (∅ : gmap string Heap.loc) body s = s.
Proof. unfold for_in. by rewrite map_to_list_empty. Qed.

(** The loop on a copy that [JSON.parse] has built: the copy then stands for
    the ledger with the sessions in progress added, the objects outside of it
    are as they were, and it has the same objects as before. *)
Lemma liveLoop_day now active h1 r json :
  Heap.repDay h1 r json →
  let entries := Heap.entriesOf h1 r in
  let h2 := for_in entries (Heap.liveTurn now active entries) h1 in
  Heap.repDay h2 r
    (mkDay (map_imap (λ k e, Some (liveSeconds now active k e)) <$> projects json)
           (saves json))
  ∧ (∀ x, x ∉ Heap.locsDay h1 r → h2 !! x = h1 !! x)
  ∧ (∀ x, x ∈ Heap.locsDay h2 r → x ∈ Heap.locsDay h1 r).
Proof.
  intros (p & s & Hr & Hp & Hs) entries h2. subst h2 entries.
  unfold Heap.entriesOf. rewrite Hr.
  destruct p as [pl|], (projects json) as [ps|] eqn:Hps; try done.
  2: { rewrite for_in_empty. split; [|done]. by exists None, s. }
  destruct Hp as (entries & Hpl & Hrep & Hinj). rewrite Hpl. unfold for_in.
  set (h2 := foldl _ h1 _).
  assert (∀ k dl, entries !! k = Some dl →
            ∃ d b, ps !! k = Some d
                   ∧ Heap.repDetails h1 dl d
                   ∧ h1 !! dl = Some (Heap.Details b (tasks d) (debugs d) (seconds d)))
    as Hdetails.
  { intros k dl Hk. specialize (Hrep k). rewrite Hk in Hrep.
    destruct (ps !! k) as [d|]; [|done].
    destruct Hrep as (b & Hb & Hbr). exists d, b. split; [done|].
    split; [|done]. by exists b. }
  assert (∀ x, (∀ k, entries !! k ≠ Some x) → h2 !! x = h1 !! x) as Hother.
  { intros x Hx. by apply liveLoop_other. }
  assert (∀ x o, h1 !! x = Some o →
            (∀ b t d s0, o ≠ Heap.Details b t d s0) → h2 !! x = Some o) as Hkind.
  { intros x o Hx Ho. rewrite Hother; [done|]. intros k Hk.
    destruct (Hdetails k x Hk) as (d & b & _ & _ & Hd). rewrite Hd in Hx.
    injection Hx as <-. by eapply Ho. }
  assert (∀ k dl, entries !! k = Some dl →
            h2 !! dl
            = match active !! k with
              | Some start => Heap.addSeconds (secondsSize now start)
              | None => λ o, o
              end <$> h1 !! dl) as Hentry.
  { intros k dl Hk. unfold h2.
    rewrite (liveLoop_entry _ _ _ _ k) by (done || apply NoDup_fst_map_to_list).
    rewrite decide_True; [done|]. apply elem_of_keys. by eexists. }
  split; [|split].
  - exists (Some pl), s. split; [by apply Hkind|]. simpl. split.
    + exists entries. split; [by apply Hkind|]. split; [|done].
      intros k. rewrite map_lookup_imap. specialize (Hrep k).
      destruct (entries !! k) as [dl|] eqn:Hk, (ps !! k) as [d|]; try done. simpl.
      eapply repDetails_live; [done | by apply Hentry |].
      intros bl items Hbl. by apply Hkind.
    + destruct s as [sl|], (saves json); try done. by apply Hkind.
  - intros x Hx. apply Hother. intros k Hk. apply Hx.
    apply elem_of_locsDay. right. exists (Some pl), s. split; [done|]. left.
    exists pl. split; [done|]. apply elem_of_locsProjects. right.
    exists entries, k, x. split; [done|]. split; [done|].
    apply elem_of_locsDetails. by left.
  - intros x. rewrite !elem_of_locsDay. intros [->|(p' & s' & Hr' & Hx)]; [by left|].
    right. rewrite (Hkind _ _ Hr) in Hr' by done. injection Hr' as <- <-.
    exists (Some pl), s. split; [done|].
    destruct Hx as [(pl' & [= <-] & Hx)|Hx]; [left|by right].
    exists pl. split; [done|]. revert Hx. rewrite !elem_of_locsProjects.
    intros [->|(es & k & dl & Hes & Hk & Hx)]; [by left|]. right.
    rewrite (Hkind _ _ Hpl) in Hes by done. injection Hes as <-.
    exists entries, k, dl. split; [done|]. split; [done|].
    revert Hx. rewrite !elem_of_locsDetails.
    intros [->|(t & d & s0 & Hx)]; [by left|]. right.
    rewrite (Hentry k dl Hk) in Hx.
    destruct (Hdetails k dl Hk) as (d0 & b & _ & _ & Hd). rewrite Hd in Hx.
    destruct (active !! k); simpl in Hx; injection Hx as -> _ _ _; by eexists _, _, _.
Qed.

End heap_facts.

(** The ledger that [getStats] reports, written out. *)
Lemma getStats_value now day m stored :
  days (store m) !! day = Some stored →
  getStats now day m
  = Some (if decide (day = dateString now 0)
          then mkDay (map_imap (λ k e, Some (liveSeconds now (activeProjects m) k e))
                        <$> projects stored)
                     (saves stored)
          else stored).
Proof.
  intros Hday. unfold getStats. rewrite Hday. case_decide; [|done].
  destruct stored as [[ps|] sv]; simpl; [|done]. by rewrite for_in_alter.
Qed.



(** The ledger of [C] takes the objects 1 to 5 and the copy the objects 6 to
    10. The entry of [X] is the object 2 in the store and the object 7 in the
    copy: thirty seconds on record, forty reported. *)
Example getStats_deep_copy_objects :
  Scenario.heapC.1 = 5%positive
  ∧ Scenario.queryC.1 = Some 10%positive
  ∧ elements (Heap.locsDay Scenario.heapC.2 5) = [5; 3; 4; 2; 1]%positive
  ∧ elements (Heap.locsDay Scenario.queryC.2 10) = [7; 9; 10; 6; 8]%positive
  ∧ Scenario.heapC.2 !! 2%positive
    = Some (Heap.Details (Some 1%positive) (Some 0%Q) (Some 0%Q)
              (Some (30000 # 1000)%Q))
  ∧ Scenario.queryC.2 !! 2%positive = Scenario.heapC.2 !! 2%positive
  ∧ Scenario.queryC.2 !! 7%positive
    = Some (Heap.Details (Some 6%positive) (Some 0%Q) (Some 0%Q)
              (Some (40000000 # 1000000)%Q)).
Proof. vm_compute. repeat split; reflexivity. Qed.

(** * Further properties *)

(** ** What one update changes *)

Lemma touch_tasks p ps :
  ∃ s, tasks (touch p ps) = Some s ∧ (s == default 0 (ps !! p ≫= tasks))%Q.
Proof.
  unfold touch. destruct (ps !! p) as [d|]; simpl; [|by exists 0%Q].
  unfold falsy_num. destruct (tasks d) as [q|]; [|by exists 0%Q].
  destruct (Qeq_bool q 0) eqn:Hq.
  - exists 0%Q. split; [done|]. symmetry. by apply Qeq_bool_eq.
  - by exists q.
Qed.

Lemma touch_debugs p ps :
  ∃ s, debugs (touch p ps) = Some s ∧ (s == default 0 (ps !! p ≫= debugs))%Q.
Proof.
  unfold touch. destruct (ps !! p) as [d|]; simpl; [|by exists 0%Q].
  unfold falsy_num. destruct (debugs d) as [q|]; [|by exists 0%Q].
  destruct (Qeq_bool q 0) eqn:Hq.
  - exists 0%Q. split; [done|]. symmetry. by apply Qeq_bool_eq.
  - by exists q.
Qed.

(** The frame of [updateDetails]: the entry of [p] for today is replaced,
    and nothing else. *)
Lemma updateDetails_frame now p details m :
  p ≠ "" →
  let today := dateString now 0 in
  ∃ m',
    updateDetails now p details m = (Ok tt, m')
    ∧ projectsAt (store m') today !! p
      = Some (applyDetails (touch p (projectsAt (store m) today)) details)
    ∧ (∀ q, q ≠ p →
            projectsAt (store m') today !! q = projectsAt (store m) today !! q)
    ∧ savesAt (store m') today = savesAt (store m) today
    ∧ (∀ day, day ≠ today → days (store m') !! day = days (store m) !! day)
    ∧ activeProjects m' = activeProjects m.
Proof.
  intros Hp today. eexists. split; [by apply updateDetails_run|].
  fold today. rewrite projectsAt_setDay_Some, savesAt_setDay_Some.
  split; [by rewrite lookup_insert_eq|]. split.
  { intros q Hq. by rewrite lookup_insert_ne. }
  split; [done|]. split; [|done].
  intros day Hday. by rewrite days_setDay_ne.
Qed.

(** The counters of the entry of [p] once it has been touched and updated
    with [details]. *)
Lemma updated_counters p ps details :
  let e := applyDetails (touch p ps) details in
  (default 0 (seconds e) == default 0 (ps !! p ≫= seconds) + default 0 (seconds details))%Q
  ∧ (default 0 (tasks e) == default 0 (ps !! p ≫= tasks) + default 0 (tasks details))%Q
  ∧ (default 0 (debugs e) == default 0 (ps !! p ≫= debugs) + default 0 (debugs details))%Q
  ∧ (branches details = None →
     default [] (branches e) = default [] (ps !! p ≫= branches)).
Proof.
  intros e. unfold e, applyDetails; simpl.
  destruct (touch_seconds p ps) as (s & -> & Hs).
  destruct (touch_tasks p ps) as (t & -> & Ht).
  destruct (touch_debugs p ps) as (d & -> & Hd).
  rewrite branches_touch.
  repeat apply conj.
  - destruct (seconds details); simpl; rewrite Hs; [done | by rewrite Qplus_0_r].
  - destruct (tasks details); simpl; rewrite Ht; [done | by rewrite Qplus_0_r].
  - destruct (debugs details); simpl; rewrite Hd; [done | by rewrite Qplus_0_r].
  - by intros ->.
Qed.




(** ** Sessions from start to end *)

Lemma settled_insert now a p start :
  settled now (<[p := start]> a) p = max0 (secondsSize now start).
Proof. unfold settled. by rewrite lookup_insert_eq. Qed.

Lemma settled_idle now a p : a !! p = None → settled now a p = 0%Q.
Proof. unfold settled. by intros ->. Qed.

Lemma settled_reset now t (a : gmap string Date) p :
  settled now ((λ _, t) <$> a) p
  = match a !! p with
    | Some _ => max0 (secondsSize now t)
    | None => 0%Q
    end.
Proof. unfold settled. rewrite lookup_fmap. by destruct (a !! p). Qed.

Lemma secondsSize_split t0 t1 t2 :
  (secondsSize t1 t0 + secondsSize t2 t1 == secondsSize t2 t0)%Q.
Proof. unfold secondsSize, Qeq, Qplus; simpl. lia. Qed.





(** Midnight between two heartbeats: the ten hours before it go to the first
    day, the rest of the day to the second. *)
Example heartbeats_across_midnight :
  let t1 := Scenario.after 36000 in
  let t2 := Scenario.after 86400 in
  let m2 := state_after (updateAllDaySeconds t2)
              (state_after (updateAllDaySeconds t1) Scenario.A1) in
  dateString t1 0 = "3/11/2026"
  ∧ dateString t2 0 = "4/11/2026"
  ∧ (recordedSeconds (store m2) "3/11/2026" "X" == 36000)%Q
  ∧ (recordedSeconds (store m2) "4/11/2026" "X" == 50400)%Q.
Proof. vm_compute. repeat split; reflexivity. Qed.

(** ** Saving, loading and migrating *)

(** X5. What [save] writes is what [load] reads. When [save] returns on an
    instance whose store carries the current version, [load] of the file it
    has written, on any instance, returns with exactly the store that was
    saved, the merge included, and leaves the sessions of the loading
    instance alone. *)
Theorem save_load_round_trip disk now m disk' m' :
  version (store m) = CURRENT_SCHEMA_VERSION →
  save disk now m = (Ok disk', m') →
  ∀ m0, load disk' m0 = (Ok tt, mkManager (store m') (activeProjects m0)).
Proof.
  intros Hv. rewrite save_unfold.
  destruct (checkForChanges disk now m) as [[[]|e] m1] eqn:Hcheck; [|done].
  intros [= <- <-] m0.
  destruct (checkForChanges_frame _ _ _ _ _ Hcheck) as (_ & Hver & _).
  apply load_current. by rewrite Hver.
Qed.

Lemma save_load_round_trip_witness :
  version (store Scenario.A2) = CURRENT_SCHEMA_VERSION
  ∧ save Scenario.diskB (Scenario.after 40) Scenario.A2
    = (Ok (Scenario.saved Scenario.diskB (Scenario.after 40) Scenario.A2),
       state_after (save Scenario.diskB (Scenario.after 40)) Scenario.A2)
  ∧ load (Scenario.saved Scenario.diskB (Scenario.after 40) Scenario.A2) newTimeManager
    = (Ok tt,
       mkManager
         (store (state_after (save Scenario.diskB (Scenario.after 40)) Scenario.A2))
         (activeProjects newTimeManager)).
Proof.
  assert (version (store Scenario.A2) = CURRENT_SCHEMA_VERSION) as Hv
    by (vm_compute; reflexivity).
  assert (save Scenario.diskB (Scenario.after 40) Scenario.A2
          = (Ok (Scenario.saved Scenario.diskB (Scenario.after 40) Scenario.A2),
             state_after (save Scenario.diskB (Scenario.after 40)) Scenario.A2))
    as Hrun by (vm_compute; reflexivity).
  split; [exact Hv|]. split; [exact Hrun|].
  exact (save_load_round_trip _ _ _ _ _ Hv Hrun newTimeManager).
Defined.

Lemma fixDetails_counters d :
  (default 0 (seconds (fixDetails d)) == default 0 (seconds d))%Q
  ∧ (default 0 (tasks (fixDetails d)) == default 0 (tasks d))%Q
  ∧ (default 0 (debugs (fixDetails d)) == default 0 (debugs d))%Q
  ∧ default [] (branches (fixDetails d)) = default [] (branches d).
Proof.
  unfold fixDetails, falsy_num; simpl. repeat apply conj.
  - destruct (seconds d) as [q|]; [|done].
    destruct (Qeq_bool q 0) eqn:Hq; [|done]. symmetry. by apply Qeq_bool_eq.
  - destruct (tasks d) as [q|]; [|done].
    destruct (Qeq_bool q 0) eqn:Hq; [|done]. symmetry. by apply Qeq_bool_eq.
  - destruct (debugs d) as [q|]; [|done].
    destruct (Qeq_bool q 0) eqn:Hq; [|done]. symmetry. by apply Qeq_bool_eq.
  - by destruct (branches d).
Qed.

Lemma projectsAt_migrated f day :
  projectsAt
    (mkFile CURRENT_SCHEMA_VERSION
       ((λ d, validateDay (Some d) (mkFilter None (Some true))) <$> days f)) day
  = fixDetails <$> projectsAt f day.
Proof.
  unfold projectsAt; simpl. rewrite lookup_fmap.
  destruct (days f !! day) as [d|]; [|simpl; by rewrite fmap_empty].
  change (default ∅ (projects (validateDay (Some d) (mkFilter None (Some true))))
          = fixDetails <$> default ∅ (projects d)).
  rewrite validateDay_projects. unfold truthy_str; simpl.
  by destruct (projects d); simpl; [|rewrite fmap_empty].
Qed.

Lemma savesAt_migrated f day :
  savesAt
    (mkFile CURRENT_SCHEMA_VERSION
       ((λ d, validateDay (Some d) (mkFilter None (Some true))) <$> days f)) day
  = savesAt f day.
Proof.
  unfold savesAt; simpl. rewrite lookup_fmap.
  destruct (days f !! day) as [d|]; [|done].
  change (default ∅ (saves (validateDay (Some d) (mkFilter None (Some true))))
          = default ∅ (saves d)).
  by rewrite validateDay_saves.
Qed.

(** X6. The migration that [load] makes of a file of another version loses
    nothing. The store it leaves carries the current version and satisfies
    the schema; it has the days of the file and, on each, the projects of
    the file; every counter of every project has the value it had in the
    file, a missing one counting as zero and as no branch; the saves are
    those of the file. The sessions of the instance are untouched. *)
Theorem migration_keeps_data f m :
  version f ≠ CURRENT_SCHEMA_VERSION →
  ∃ m',
    load (Text (Json f)) m = (Ok tt, m')
    ∧ version (store m') = CURRENT_SCHEMA_VERSION
    ∧ completeStore (store m')
    ∧ activeProjects m' = activeProjects m
    ∧ (∀ day, is_Some (days (store m') !! day) ↔ is_Some (days f !! day))
    ∧ (∀ day p, is_Some (projectsAt (store m') day !! p)
                ↔ is_Some (projectsAt f day !! p))
    ∧ (∀ day p,
         (recordedSeconds (store m') day p == recordedSeconds f day p)%Q
         ∧ (recordedTasks (store m') day p == recordedTasks f day p)%Q
         ∧ (recordedDebugs (store m') day p == recordedDebugs f day p)%Q
         ∧ branchesAt (store m') day p = branchesAt f day p)
    ∧ (∀ day, savesAt (store m') day = savesAt f day).
Proof.
  intros Hv. eexists. split; [by apply load_older|].
  split; [done|]. split.
  { eapply load_complete; [|by apply load_older]. done. }
  split; [done|]. cbn [store].
  split. { intros day. cbn [days]. rewrite lookup_fmap. apply fmap_is_Some. }
  split. { intros day p. rewrite projectsAt_migrated, lookup_fmap. apply fmap_is_Some. }
  split; [|apply savesAt_migrated].
  intros day p.
  unfold recordedSeconds, recordedTasks, recordedDebugs, branchesAt.
  rewrite projectsAt_migrated, lookup_fmap.
  destruct (projectsAt f day !! p) as [d|]; simpl; [|done].
  apply fixDetails_counters.
Qed.

Lemma migration_keeps_data_witness :
  version Scenario.v1File ≠ CURRENT_SCHEMA_VERSION
  ∧ ∃ m',
      load (Text (Json Scenario.v1File)) newTimeManager = (Ok tt, m')
      ∧ completeStore (store m')
      ∧ (recordedSeconds (store m') Scenario.today "Y"
         == recordedSeconds Scenario.v1File Scenario.today "Y")%Q.
Proof.
  assert (version Scenario.v1File ≠ CURRENT_SCHEMA_VERSION) as Hv by done.
  split; [exact Hv|].
  destruct (migration_keeps_data Scenario.v1File newTimeManager Hv)
    as (m' & Hrun & _ & Hc & _ & _ & _ & Hcount & _).
  exists m'. split; [exact Hrun|]. split; [exact Hc|].
  exact (proj1 (Hcount Scenario.today "Y")).
Defined.

(** ** A project without a name *)

(** X7. The name of a project is tested for truth before its entry is
    repaired, so the empty name gets no entry. On a day whose ledger has no
    entry under the empty name, [addBranch], [incrementTasks] and
    [incrementDebugs] for a folder with that name throw a [TypeError]; by
    then today's ledger exists, with the projects and saves it had and
    still no entry under the empty name. [endTracking] of a session under
    the empty name throws in the same way and the session stays open. *)
Theorem empty_name_throws now ws b m :
  name ws = "" →
  let today := dateString now 0 in
  projectsAt (store m) today !! "" = None →
  ∃ m',
    addBranch now ws b m = (Throw TypeError, m')
    ∧ incrementTasks now ws m = (Throw TypeError, m')
    ∧ incrementDebugs now ws m = (Throw TypeError, m')
    ∧ (is_Some (activeProjects m !! "") →
       endTracking now ws m = (Throw TypeError, m'))
    ∧ is_Some (days (store m') !! today)
    ∧ projectsAt (store m') today = projectsAt (store m) today
    ∧ savesAt (store m') today = savesAt (store m) today
    ∧ (∀ day, day ≠ today → days (store m') !! day = days (store m) !! day)
    ∧ activeProjects m' = activeProjects m.
Proof.
  intros Hname today Hnone.
  set (m' := setDay m today
               (validateDay (days (store m) !! today) (mkFilter (Some "") None))).
  assert (projectsAt (store m') today = projectsAt (store m) today) as Hps.
  { unfold m'. rewrite projectsAt_setDay, validateDay_projects. cbn [id all].
    change (truthy_str (Some "")) with false. cbv iota.
    by rewrite decide_False by done. }
  assert (∀ details, hasMember details = true →
            updateDetails now "" details m = (Throw TypeError, m')) as Hthrow.
  { intros details Hmem.
    unfold updateDetails, mbind, M_bind, bind. rewrite validateDaySchema_run.
    fold today. fold m'. unfold get_store.
    assert (days (store m') !! today
            = Some (validateDay (days (store m) !! today) (mkFilter (Some "") None)))
      as -> by (unfold m', setDay; simpl; by rewrite lookup_insert_eq).
    rewrite validateDay_projects. cbn [id all].
    change (truthy_str (Some "")) with false. cbv iota.
    rewrite decide_False by done.
    fold (projectsAt (store m) today). rewrite Hnone. by rewrite Hmem. }
  exists m'. unfold addBranch, incrementTasks, incrementDebugs. rewrite Hname.
  split; [by apply Hthrow|]. split; [by apply Hthrow|]. split; [by apply Hthrow|].
  split.
  { intros [start Hstart]. unfold endTracking, updateDaySeconds, mbind, M_bind, bind.
    rewrite Hname. unfold get_active. rewrite Hstart.
    by rewrite Hthrow. }
  split. { unfold m', setDay; simpl. rewrite lookup_insert_eq. by eexists. }
  split; [exact Hps|].
  split. { unfold m'. by rewrite savesAt_setDay, validateDay_saves. }
  split; [|done]. intros day Hday. unfold m'. by rewrite days_setDay_ne.
Qed.

Lemma empty_name_throws_witness :
  name (mkFolder "") = ""
  ∧ projectsAt (store Scenario.A1) (dateString (Scenario.after 5) 0) !! "" = None
  ∧ ∃ m',
      addBranch (Scenario.after 5) (mkFolder "") "main" Scenario.A1
      = (Throw TypeError, m')
      ∧ is_Some (days (store m') !! dateString (Scenario.after 5) 0)
      ∧ projectsAt (store m') (dateString (Scenario.after 5) 0)
        = projectsAt (store Scenario.A1) (dateString (Scenario.after 5) 0).
Proof.
  assert (projectsAt (store Scenario.A1) (dateString (Scenario.after 5) 0) !! ""
          = None) as Hnone by (vm_compute; reflexivity).
  split; [reflexivity|]. split; [exact Hnone|].
  destruct (empty_name_throws (Scenario.after 5) (mkFolder "") "main"
              Scenario.A1 eq_refl Hnone)
    as (m' & Hrun & _ & _ & _ & Hday & Hps & _).
  exists m'. split; [exact Hrun|]. split; [exact Hday | exact Hps].
Defined.

(** ** The status bar *)

Section formatSeconds.
Import Extension.

Lemma hoursOf_Z n d : hoursOf (n # d) = n `div` (Z.pos d * 3600).
Proof.
  unfold hoursOf, Qfloor, Qdiv, Qmult, Qinv; simpl.
  by rewrite Z.mul_1_r, Pos2Z.inj_mul.
Qed.

Lemma minutesOf_Z n d :
  0 ≤ n →
  minutesOf (n # d) = (n - 3600 * (n `div` (Z.pos d * 3600)) * Z.pos d) `div` (Z.pos d * 60).
Proof.
  intros Hn. unfold minutesOf, rem, Qtrunc, Qfloor, Qdiv, Qmult, Qinv, Qminus, Qplus, Qopp;
    simpl.
  rewrite !Z.mul_1_r, !Pos.mul_1_r, !Pos2Z.inj_mul.
  rewrite Z.quot_div_nonneg by lia.
  f_equal. lia.
Qed.

(** X8. [formatSeconds] shows a time that is not negative in whole hours and
    minutes, rounded down to the minute: the minutes are below sixty and the
    time shown is at most the time given and less than a minute short of
    it. *)
Theorem formatSeconds_whole_minutes s :
  (0 <= s)%Q →
  let h := hoursOf s in
  let m := minutesOf s in
  formatSeconds (Some s) = pretty h +:+ "h " +:+ pretty m +:+ "m"
  ∧ 0 ≤ h
  ∧ 0 ≤ m < 60
  ∧ (inject_Z (3600 * h + 60 * m) <= s)%Q
  ∧ (s < inject_Z (3600 * h + 60 * m + 60))%Q.
Proof.
  intros Hn. cbv zeta. split; [done|].
  destruct s as [n d]. unfold Qle in Hn; simpl in Hn. rewrite Z.mul_1_r in Hn.
  rewrite hoursOf_Z, minutesOf_Z by done.
  set (D := Z.pos d). assert (0 < D) as HD by done.
  set (h := n `div` (D * 3600)).
  set (r := n - 3600 * h * D).
  set (m := r `div` (D * 60)).
  pose proof (Z.mul_div_le n (D * 3600) ltac:(lia)) as Hh1.
  pose proof (Z.mul_succ_div_gt n (D * 3600) ltac:(lia)) as Hh2.
  fold h in Hh1, Hh2.
  assert (0 ≤ r < 3600 * D) as Hr by (unfold r; lia).
  pose proof (Z.mul_div_le r (D * 60) ltac:(lia)) as Hm1.
  pose proof (Z.mul_succ_div_gt r (D * 60) ltac:(lia)) as Hm2.
  fold m in Hm1, Hm2.
  assert (0 ≤ h) as Hh0 by (apply Z.div_pos; lia).
  assert (0 ≤ m) as Hm0 by (apply Z.div_pos; lia).
  unfold Qle, Qlt; simpl. fold D.
  repeat split; try lia; try nia.
Qed.

End formatSeconds.

(** A quarter to two hours shows as one hour and forty-four minutes; a
    negative time, which no settle produces, shows a negative hour. *)
Example formatSeconds_examples :
  Extension.formatSeconds (Some (6299999 # 1000)%Q) = "1h 44m"
  ∧ Extension.formatSeconds (Some 0%Q) = "0h 0m"
  ∧ Extension.formatSeconds (Some (-1)%Q) = "-1h -1m"
  ∧ Extension.formatSeconds None = "NaNh NaNm".
Proof. repeat split; vm_compute; reflexivity. Qed.

Lemma formatSeconds_whole_minutes_witness :
  (0 <= 6299999 # 1000)%Q
  ∧ Extension.formatSeconds (Some (6299999 # 1000)%Q) = "1h 44m"
  ∧ 0 ≤ Extension.minutesOf (6299999 # 1000) < 60.
Proof.
  assert (0 <= 6299999 # 1000)%Q as Hs by (vm_compute; discriminate).
  split; [exact Hs|]. split; [vm_compute; reflexivity|].
  exact (proj1 (proj2 (proj2 (formatSeconds_whole_minutes _ Hs)))).
Defined.

(** ** Relations that every step of a method keeps *)

Section preserves.
Context {S : Type} (P : S → S → Prop).
Hypothesis P_refl : ∀ s, P s s.
Hypothesis P_trans : ∀ s1 s2 s3, P s1 s2 → P s2 s3 → P s1 s3.

Lemma preserves_ret {A} (a : A) : preserves P (mret a : M S A).
Proof. intros s r s' [= <- <-]. apply P_refl. Qed.

Lemma preserves_throw {A} e : preserves P (throw e : M S A).
Proof. intros s r s' [= <- <-]. apply P_refl. Qed.

Lemma preserves_lift {A} (x : result A) : preserves P (lift x : M S A).
Proof. intros s r s' [= <- <-]. apply P_refl. Qed.

Lemma preserves_bind {A B} (c : M S A) (k : A → M S B) :
  preserves P c → (∀ a, preserves P (k a)) → preserves P (c ≫= k).
Proof.
  intros Hc Hk s r s'. unfold mbind, M_bind, bind.
  destruct (c s) as [[a|e] s1] eqn:Hrun.
  - intros Hrun'. eapply P_trans; [by eapply Hc | by eapply Hk].
  - intros [= <- <-]. by eapply Hc.
Qed.

Lemma preserves_try_catch {A} (c : M S A) (h : exn → M S A) :
  preserves P c → (∀ e, preserves P (h e)) → preserves P (try_catch c h).
Proof.
  intros Hc Hh s r s'. unfold try_catch.
  destruct (c s) as [[a|e] s1] eqn:Hrun.
  - intros [= <- <-]. by eapply Hc.
  - intros Hrun'. eapply P_trans; [by eapply Hc | by eapply Hh].
Qed.

Lemma preserves_for_each {A} (l : list A) (body : A → M S unit) :
  (∀ x, x ∈ l → preserves P (body x)) → preserves P (for_each l body).
Proof.
  induction l as [|x l IH]; intros Hbody.
  - apply (preserves_ret tt).
  - apply preserves_bind.
    + apply Hbody. by left.
    + intros _. apply IH. intros y Hy. apply Hbody. by right.
Qed.

End preserves.

(** ** The file under the extension *)

Section world_file.
Import Extension.

Lemma fileKept_refl w : fileKept w w.
Proof. by left. Qed.

Lemma fileKept_trans w1 w2 w3 : fileKept w1 w2 → fileKept w2 w3 → fileKept w1 w3.
Proof.
  intros [H12|[Hf1 Hf2]] [H23|[Hf2' Hf3]].
  - left. by rewrite H23.
  - rewrite H12 in Hf2'. by right.
  - right. split; [done|]. by rewrite H23.
  - by right.
Qed.

Lemma fileKept_same_disk {A} (c : M World A) :
  (∀ w r w', c w = (r, w') → disk w' = disk w) → preserves fileKept c.
Proof. intros Hc w r w' Hrun. left. by eapply Hc. Qed.

Lemma on_tracker_disk {A} (c : Method A) w r w' :
  on_tracker c w = (r, w') → disk w' = disk w.
Proof. unfold on_tracker. destruct (c (tracker w)). by intros [= <- <-]. Qed.

Lemma fileKept_on_tracker {A} (c : Method A) : preserves fileKept (on_tracker c).
Proof. apply fileKept_same_disk. apply on_tracker_disk. Qed.

(** [save] returns only on a file that parses, and writes one that does. *)
Lemma save_Ok_inv d now m written m' :
  save d now m = (Ok written, m') →
  (∃ f, d = Text (Json f)) ∧ written = Text (Json (store m')).
Proof.
  rewrite save_unfold.
  destruct (checkForChanges d now m) as [[[]|e] m1] eqn:Hcheck; [|done].
  intros [= <- <-]. split; [|done].
  destruct d as [| |[|f]]; try done. by eexists.
Qed.

Lemma fileKept_backupSave now : preserves fileKept (backupSave now).
Proof.
  intros w r w'. unfold backupSave, try_catch, mbind, M_bind, bind, get_disk.
  rewrite (surjective_pairing (on_tracker (save (disk w) now) w)).
  unfold on_tracker.
  destruct (save (disk w) now (tracker w)) as [[written|e] m'] eqn:Hsave; simpl.
  - intros [= <- <-]. apply save_Ok_inv in Hsave as [Hf ->]. right.
    split; [done|]. by eexists.
  - intros [= <- <-]. by left.
Qed.

Lemma fileKept_updateStats now wf : preserves fileKept (updateStats now wf).
Proof.
  apply fileKept_same_disk. intros w r w'.
  unfold updateStats, mbind, M_bind, bind, get_tracker, lift.
  destruct (getStatsMd now wf (tracker w)); by intros [= <- <-].
Qed.

Lemma fileKept_bind {A B} (c : M World A) (k : A → M World B) :
  preserves fileKept c → (∀ a, preserves fileKept (k a)) →
  preserves fileKept (c ≫= k).
Proof. apply preserves_bind, fileKept_trans. Qed.

Lemma fileKept_ret {A} (a : A) : preserves fileKept (mret a : M World A).
Proof. apply preserves_ret, fileKept_refl. Qed.

Lemma fileKept_for_each {A} (l : list A) (body : A → M World unit) :
  (∀ x, preserves fileKept (body x)) → preserves fileKept (for_each l body).
Proof.
  intros Hbody. apply preserves_for_each;
    [apply fileKept_refl | apply fileKept_trans | by intros x _].
Qed.

Lemma fileKept_heartbeat now wf : preserves fileKept (heartbeat now wf).
Proof.
  unfold heartbeat.
  apply fileKept_bind; [|intros m].
  { apply fileKept_same_disk. by intros w r w' [= <- <-]. }
  apply fileKept_bind; [|intros _].
  { apply fileKept_same_disk. by intros w r w' [= <- <-]. }
  apply fileKept_bind; [apply fileKept_on_tracker|intros _].
  apply fileKept_bind; [apply fileKept_updateStats|intros _].
  apply fileKept_backupSave.
Qed.

Lemma fileKept_handler e : preserves fileKept (handler e).
Proof.
  destruct e as [now wf|now ws branch ext|now added removed|now scope|now ws]; simpl.
  - intros w r w'. destruct (interval w).
    + apply fileKept_heartbeat.
    + intros [= <- <-]. apply fileKept_refl.
  - apply fileKept_bind; [|intros _; apply fileKept_on_tracker].
    destruct ws as [ws|]; [|apply fileKept_ret].
    destruct (truthy_str branch); [apply fileKept_on_tracker | apply fileKept_ret].
  - apply fileKept_bind; [|intros _];
      apply fileKept_for_each; intros folder; apply fileKept_on_tracker.
  - destruct scope as [[| |ws]|]; try apply fileKept_ret. apply fileKept_on_tracker.
  - destruct ws as [ws|]; [apply fileKept_on_tracker | apply fileKept_ret].
Qed.

Lemma fileKept_run events w : fileKept w (run events w).
Proof.
  revert w. induction events as [|e events IH]; intros w; [apply fileKept_refl|].
  simpl. eapply fileKept_trans; [|apply IH].
  unfold step, state_after.
  by eapply (fileKept_handler e w (handler e w).1), surjective_pairing.
Qed.

Lemma load_returns_always d m : ∃ m', load d m = (Ok tt, m').
Proof.
  destruct d as [| |[|f]]; try (exists m; by apply load_unusable; auto).
  apply load_returns.
Qed.

Lemma activate_disk now wf : preserves (λ w w', disk w' = disk w) (activate now wf).
Proof.
  set (P := λ w w' : World, disk w' = disk w).
  assert (∀ w, P w w) as Hrefl by done.
  assert (∀ w1 w2 w3, P w1 w2 → P w2 w3 → P w1 w3) as Htrans
    by (unfold P; intros ??? -> ->; done).
  assert (∀ A (c : Method A), preserves P (on_tracker c)) as Hon
    by (intros A c w r w'; apply on_tracker_disk).
  unfold activate.
  apply preserves_bind; [done| |intros _].
  { by intros w r w' [= <- <-]. }
  apply preserves_bind; [done| |intros d].
  { by intros w r w' [= <- <-]. }
  apply preserves_bind; [done|apply Hon|intros _].
  destruct wf as [folders|]; [|by apply preserves_ret].
  apply preserves_bind; [done| |intros _].
  { by intros w r w' [= <- <-]. }
  apply preserves_bind; [done| |intros _].
  { by intros w r w' [= <- <-]. }
  apply preserves_bind; [done| |intros _].
  { by intros w r w' [= <- <-]. }
  apply preserves_for_each; [done|done|]. intros folder _. apply Hon.
Qed.

Lemma activated_disk now wf d : disk (activated now wf d) = d.
Proof.
  unfold activated, state_after.
  by rewrite (activate_disk now wf (boot d) _ _ (surjective_pairing _)).
Qed.

End world_file.

(** X9. The extension writes its file only over a file that it could read
    and parse. Started on a file that is missing, unreadable or not a JSON
    document, it leaves the file as it found it whatever events follow, so
    what it tracks never reaches the disk; started on a document that
    parses, the file holds a document that parses after every event. *)
Theorem file_never_created now wf d events :
  let w := Extension.run events (Extension.activated now wf d) in
  (d = Missing ∨ d = Unreadable ∨ d = Text Garbage → Extension.disk w = d)
  ∧ (∀ f, d = Text (Json f) → ∃ f', Extension.disk w = Text (Json f')).
Proof.
  intros w.
  pose proof (fileKept_run events (Extension.activated now wf d)) as Hkept.
  fold w in Hkept. unfold Extension.fileKept in Hkept.
  rewrite activated_disk in Hkept. split.
  - intros Hd. destruct Hkept as [Heq|[[f Hf] _]]; [done|].
    by destruct Hd as [->|[->| ->]].
  - intros f ->. destruct Hkept as [->|[_ Hf']]; [by eexists | done].
Qed.

(** A first run, with no file yet: a document is saved on branch [main] and
    two heartbeats pass. The tracker holds the branch, the save and a minute
    of work, and there is still no file. *)
Example no_file_after_heartbeats :
  let w := Extension.run
             [Extension.DidSaveTextDocument (Scenario.after 10) (Some Scenario.X)
                (Some "main") ".v";
              Extension.Tick (Scenario.after 30) (Some [Scenario.X]);
              Extension.Tick (Scenario.after 60) (Some [Scenario.X])]
             (Extension.activated Scenario.t0 (Some [Scenario.X]) Missing) in
  Extension.disk w = Missing
  ∧ branchesAt (store (Extension.tracker w)) Scenario.today "X" = ["main"]
  ∧ (recordedSeconds (store (Extension.tracker w)) Scenario.today "X" == 60)%Q
  ∧ Extension.text w = "$(clock) 1"
  ∧ Extension.tooltip w
    = Some (String.concat Extension.newline
              ["### X"; ""; "#### Today"; ""; "* $(history) 0h 1m";
               "* $(git-branch) worked on main"; ""; "#### This Week"; "";
               "* $(history) 0h 1m"; "* $(git-branch) worked on main"]).
Proof. vm_compute. repeat split; reflexivity. Qed.

(** ** The sessions under the extension *)

(** The relation "the sessions are the same" on the tracker. *)
Lemma sessions_kept_bind {A B} (c : Method A) (k : A → Method B) :
  preserves (λ m m', activeProjects m' = activeProjects m) c →
  (∀ a, preserves (λ m m', activeProjects m' = activeProjects m) (k a)) →
  preserves (λ m m', activeProjects m' = activeProjects m) (c ≫= k).
Proof. apply preserves_bind. by intros ??? -> ->. Qed.

Lemma set_store_sessions f :
  preserves (λ m m', activeProjects m' = activeProjects m) (set_store f).
Proof. by intros m r m' [= <- <-]. Qed.

Lemma validateDaySchema_sessions chosenDay project :
  preserves (λ m m', activeProjects m' = activeProjects m)
    (validateDaySchema chosenDay project).
Proof. by intros m r m' [= <- <-]. Qed.

Lemma updateDetails_sessions now p details :
  preserves (λ m m', activeProjects m' = activeProjects m)
    (updateDetails now p details).
Proof.
  unfold updateDetails. apply sessions_kept_bind; [apply validateDaySchema_sessions|].
  intros _. apply sessions_kept_bind; [by intros m r m' [= <- <-]|].
  intros s. destruct (days s !! dateString now 0) as [day|];
    [|by apply preserves_throw].
  destruct (projects day) as [ps|]; [|by apply preserves_throw].
  destruct (ps !! p) as [e|]; [apply set_store_sessions|].
  destruct (hasMember details); [by apply preserves_throw | by apply preserves_ret].
Qed.

Lemma addSave_sessions now ext :
  preserves (λ m m', activeProjects m' = activeProjects m) (addSave now ext).
Proof. intros m r m'. rewrite addSave_run. by intros [= <- <-]. Qed.

Lemma save_sessions d now :
  preserves (λ m m', activeProjects m' = activeProjects m) (save d now).
Proof.
  intros m r m'. rewrite save_unfold.
  destruct (checkForChanges d now m) as [[[]|e] m1] eqn:Hcheck;
    intros [= <- <-];
    by destruct (checkForChanges_frame _ _ _ _ _ Hcheck) as (-> & _).
Qed.

(** A settle keeps the sessions open, however it ends. *)
Lemma updateDaySeconds_dom now p :
  preserves (λ m m', dom (activeProjects m') = dom (activeProjects m))
    (updateDaySeconds now p).
Proof.
  intros m r m'. unfold updateDaySeconds, mbind, M_bind, bind, get_active.
  destruct (activeProjects m !! p) as [start|] eqn:Hstart; [|by intros [= <- <-]].
  destruct (updateDetails now p _ m) as [[[]|e] m1] eqn:Hrun;
    pose proof (updateDetails_sessions _ _ _ _ _ _ Hrun) as Hact; simpl in Hact.
  - intros [= <- <-]. simpl. rewrite Hact, dom_insert_L.
    apply subseteq_union_1_L, singleton_subseteq_l. by eapply elem_of_dom_2.
  - intros [= <- <-]. by rewrite Hact.
Qed.

Lemma updateAllDaySeconds_dom now :
  preserves (λ m m', dom (activeProjects m') = dom (activeProjects m))
    (updateAllDaySeconds now).
Proof.
  intros m r m'. unfold updateAllDaySeconds, mbind, M_bind, bind, get_active.
  apply (preserves_for_each (λ m m', dom (activeProjects m') = dom (activeProjects m)));
    [done | by intros ??? -> -> |].
  intros p _. apply updateDaySeconds_dom.
Qed.

Section world_sessions.
Import Extension.

Lemma sameSessions_refl w : sameSessions w w.
Proof. done. Qed.

Lemma sameSessions_trans w1 w2 w3 :
  sameSessions w1 w2 → sameSessions w2 w3 → sameSessions w1 w3.
Proof. unfold sameSessions. by intros -> ->. Qed.

Lemma sameSessions_bind {A B} (c : M World A) (k : A → M World B) :
  preserves sameSessions c → (∀ a, preserves sameSessions (k a)) →
  preserves sameSessions (c ≫= k).
Proof. apply preserves_bind, sameSessions_trans. Qed.

Lemma sameSessions_same_tracker {A} (c : M World A) :
  (∀ w r w', c w = (r, w') → tracker w' = tracker w) → preserves sameSessions c.
Proof. intros Hc w r w' Hrun. unfold sameSessions. by rewrite (Hc _ _ _ Hrun). Qed.

Lemma sameSessions_on_tracker {A} (c : Method A) :
  preserves (λ m m', dom (activeProjects m') = dom (activeProjects m)) c →
  preserves sameSessions (on_tracker c).
Proof.
  intros Hc w r w'. unfold on_tracker.
  destruct (c (tracker w)) as [r1 m1] eqn:Hrun. intros [= <- <-].
  unfold sameSessions; simpl. by eapply Hc.
Qed.

Lemma sameSessions_on_tracker_eq {A} (c : Method A) :
  preserves (λ m m', activeProjects m' = activeProjects m) c →
  preserves sameSessions (on_tracker c).
Proof.
  intros Hc. apply sameSessions_on_tracker. intros m r m' Hrun.
  by rewrite (Hc _ _ _ Hrun).
Qed.

Lemma sameSessions_heartbeat now wf : preserves sameSessions (heartbeat now wf).
Proof.
  unfold heartbeat.
  apply sameSessions_bind; [|intros m].
  { apply sameSessions_same_tracker. by intros w r w' [= <- <-]. }
  apply sameSessions_bind; [|intros _].
  { apply sameSessions_same_tracker. by intros w r w' [= <- <-]. }
  apply sameSessions_bind;
    [apply sameSessions_on_tracker, updateAllDaySeconds_dom|intros _].
  apply sameSessions_bind; [|intros _].
  { apply sameSessions_same_tracker. intros w r w'.
    unfold updateStats, mbind, M_bind, bind, get_tracker, lift.
    destruct (getStatsMd now wf (tracker w)); by intros [= <- <-]. }
  unfold backupSave. apply preserves_try_catch; [apply sameSessions_trans| |].
  - apply sameSessions_bind; [|intros d].
    { apply sameSessions_same_tracker. by intros w r w' [= <- <-]. }
    apply sameSessions_bind;
      [apply sameSessions_on_tracker_eq, save_sessions|intros written].
    apply sameSessions_same_tracker. by intros w r w' [= <- <-].
  - intros e. apply preserves_ret, sameSessions_refl.
Qed.

End world_sessions.

(** ** Methods that return, and what holds then *)

Section returns.
Context {S : Type}.

Lemma returns_ret {A} (P : S → Prop) (a : A) :
  returns P (mret a : M S A) (λ _, P).
Proof. intros s Hs. by exists a, s. Qed.

Lemma returns_bind {A B} (P : S → Prop) (Q : A → S → Prop) (R : B → S → Prop)
    (c : M S A) (k : A → M S B) :
  returns P c Q → (∀ a, returns (Q a) (k a) R) → returns P (c ≫= k) R.
Proof.
  intros Hc Hk s Hs. destruct (Hc s Hs) as (a & s1 & Hrun & Ha).
  destruct (Hk a s1 Ha) as (b & s2 & Hrun' & Hb).
  exists b, s2. unfold mbind, M_bind, bind. by rewrite Hrun.
Qed.

Lemma returns_conseq {A} (P P' : S → Prop) (Q Q' : A → S → Prop) (c : M S A) :
  (∀ s, P' s → P s) → (∀ a s, Q a s → Q' a s) →
  returns P c Q → returns P' c Q'.
Proof.
  intros HP HQ Hc s Hs. destruct (Hc s (HP s Hs)) as (a & s' & Hrun & Ha).
  exists a, s'. split; [done | by apply HQ].
Qed.

Lemma returns_for_each {A} (I : S → Prop) (l : list A) (body : A → M S unit) :
  (∀ x, x ∈ l → returns I (body x) (λ _, I)) →
  returns I (for_each l body) (λ _, I).
Proof.
  induction l as [|x l IH]; intros Hbody.
  - apply (returns_ret I tt).
  - apply (returns_bind I (λ _, I)).
    + apply Hbody. by left.
    + intros _. apply IH. intros y Hy. apply Hbody. by right.
Qed.

End returns.

(** ** Operations on an instance in order *)

Lemma updateDetails_sane now p details :
  p ≠ "" →
  (0 <= default 0 (seconds details))%Q →
  returns sane (updateDetails now p details) (λ _, sane).
Proof.
  intros Hp Hsec m (Hc & Hn & Hname).
  destruct (updateDetails_frame now p details m Hp)
    as (m' & Hrun & He & Hothers & _ & Hdays & Hact).
  exists tt, m'. split; [exact Hrun|]. repeat apply conj.
  - by eapply updateDetails_complete.
  - apply (nonnegStore_grows (dateString now 0)
             (λ q, if decide (q = p) then default 0%Q (seconds details) else 0%Q)
             (store m)); [exact Hdays| | |exact Hn].
    2: { intros q. cbv beta. destruct (decide (q = p)); [exact Hsec | apply Qle_refl]. }
    intros q. unfold recordedSeconds. case_decide as Hq.
    + subst q. rewrite He; simpl.
      by destruct (updated_counters p (projectsAt (store m) (dateString now 0)) details)
        as (-> & _).
    + rewrite Hothers by done. by rewrite Qplus_0_r.
  - by rewrite Hact.
Qed.

Lemma addBranch_sane now ws b :
  name ws ≠ "" → returns sane (addBranch now ws b) (λ _, sane).
Proof.
  intros Hp. unfold addBranch. apply updateDetails_sane; [exact Hp|].
  simpl. apply Qle_refl.
Qed.

Lemma incrementTasks_sane now ws :
  name ws ≠ "" → returns sane (incrementTasks now ws) (λ _, sane).
Proof.
  intros Hp. unfold incrementTasks. apply updateDetails_sane; [exact Hp|].
  simpl. apply Qle_refl.
Qed.

Lemma incrementDebugs_sane now ws :
  name ws ≠ "" → returns sane (incrementDebugs now ws) (λ _, sane).
Proof.
  intros Hp. unfold incrementDebugs. apply updateDetails_sane; [exact Hp|].
  simpl. apply Qle_refl.
Qed.

Lemma addSave_sane now ext : returns sane (addSave now ext) (λ _, sane).
Proof.
  intros m (Hc & Hn & Hname). eexists tt, _. split; [apply addSave_run|].
  repeat apply conj.
  - eapply addSave_complete; [exact Hc | apply addSave_run].
  - intros day p. unfold recordedSeconds.
    destruct (decide (day = dateString now 0)) as [->|Hday].
    + rewrite projectsAt_setDay_Some. apply (Hn (dateString now 0) p).
    + rewrite projectsAt_setDay_ne by done. apply (Hn day p).
  - done.
Qed.

Lemma startTracking_sane now ws :
  name ws ≠ "" → returns sane (startTracking now ws) (λ _, sane).
Proof.
  intros Hp m (Hc & Hn & Hname). eexists tt, _. split; [apply startTracking_run|].
  repeat apply conj; [done|done|]. simpl. by rewrite lookup_insert_ne.
Qed.

Lemma endTracking_sane now ws :
  name ws ≠ "" → returns sane (endTracking now ws) (λ _, sane).
Proof.
  intros Hp m (Hc & Hn & Hname).
  destruct (endTracking_spec now ws m) as (m' & Hrun & Hact & Hdays & Hsec); [done|].
  exists tt, m'. split; [exact Hrun|]. repeat apply conj.
  - destruct (mutation_complete now ws "" "" m Hp Hname Hc) as (_ & He & _).
    by apply He.
  - eapply (nonnegStore_grows _ _ (store m)); [exact Hdays|exact Hsec| |exact Hn].
    intros q. cbv beta.
    destruct (decide (q = name ws)); [apply settled_nonneg | apply Qle_refl].
  - rewrite Hact. by rewrite lookup_delete_ne.
Qed.

Lemma updateAllDaySeconds_sane now :
  returns sane (updateAllDaySeconds now) (λ _, sane).
Proof.
  intros m (Hc & Hn & Hname).
  destruct (updateAllDaySeconds_spec now m Hname) as (m' & Hrun & Hact & Hdays & Hsec).
  exists tt, m'. split; [exact Hrun|]. repeat apply conj.
  - eapply (settle_each_complete now _ m); [|exact Hc|exact Hrun].
    intros k Hk ->. apply elem_of_keys in Hk as [? Hk]. congruence.
  - eapply (nonnegStore_grows _ _ (store m)); [exact Hdays|exact Hsec| |exact Hn].
    intros q. apply settled_nonneg.
  - by rewrite Hact, lookup_fmap, Hname.
Qed.

Lemma projectsAt_lookup f day ps d :
  days f !! day = Some d → projects d = Some ps → projectsAt f day = ps.
Proof. intros Hd Hps. unfold projectsAt. rewrite Hd; simpl. by rewrite Hps. Qed.

(** [save] over a file in order: it returns, the instance stays in order,
    and the entry of a project that has a session and an entry in memory is
    the one of memory. *)
Lemma save_sane f now m :
  sane m → completeStore f → nonnegStore f →
  let today := dateString now 0 in
  ∃ m',
    save (Text (Json f)) now m = (Ok (Text (Json (store m'))), m')
    ∧ sane m'
    ∧ (∀ p, is_Some (activeProjects m !! p) →
            is_Some (projectsAt (store m) today !! p) →
            projectsAt (store m') today !! p = projectsAt (store m) today !! p).
Proof.
  intros (Hc & Hn & Hname) Hfc Hfn today. rewrite save_unfold.
  destruct (days (store m) !! today) as [memDay|] eqn:Hmem.
  2: { exists m. by rewrite checkForChanges_skip by (by left). }
  destruct (days f !! today) as [loadedDay|] eqn:Hld.
  2: { exists m. by rewrite checkForChanges_skip by (by right). }
  destruct (completeStore_day _ _ _ Hc Hmem) as [Hsv Hp].
  destruct (completeStore_day _ _ _ Hfc Hld) as [_ Hq].
  destruct (projects memDay) as [mp|] eqn:Hmp; [|done].
  destruct (projects loadedDay) as [lp|] eqn:Hlp; [|done].
  pose proof (projectsAt_lookup _ _ _ _ Hmem Hmp) as Hmp'.
  pose proof (projectsAt_lookup _ _ _ _ Hld Hlp) as Hlp'.
  destruct (checkForChanges_merge f now m _ _ _ _ Hmem Hmp Hld Hlp)
    as (merged & -> & Hlook).
  fold today. eexists. split; [done|]. split; [repeat apply conj|].
  - apply completeStore_setDay; [done|]. split; [done|]. simpl.
    intros p e. rewrite Hlook.
    destruct (activeProjects m !! p), (mp !! p) as [e'|] eqn:He';
      try (intros He; by apply (Hq p e)).
    intros [= <-]. by apply (Hp p e').
  - intros day p. unfold recordedSeconds.
    destruct (decide (day = today)) as [->|Hday].
    + rewrite projectsAt_setDay_Some, Hlook.
      destruct (activeProjects m !! p), (mp !! p) as [e'|] eqn:He';
        try (rewrite <- Hlp'; apply (Hfn today p)).
      rewrite <- He', <- Hmp'. apply (Hn today p).
    + rewrite projectsAt_setDay_ne by done. apply (Hn day p).
  - done.
  - intros p [start Hstart] [e He]. rewrite projectsAt_setDay_Some, Hlook, Hstart.
    rewrite Hmp' in He. by rewrite He, Hmp'.
Qed.

Lemma getStatsForPeriod_returns now p n m :
  completeStore (store m) →
  ∃ bs t d s,
    getStatsForPeriod now p n m = Ok (mkDetails (Some bs) (Some t) (Some d) (Some s)).
Proof.
  intros Hc. unfold getStatsForPeriod.
  change freshDetails with (mkDetails (Some (Set_of [])) (Some 0%Q) (Some 0%Q) (Some 0%Q)).
  destruct (sumDays_spec now m p (getDays now (Some n)) [] 0%Q 0%Q 0%Q Hc)
    as (t & d & s & -> & _).
  by eexists _, _, _, _.
Qed.

Section world_stats.
Import Extension.

Lemma projectMd_returns now m id last :
  completeStore (store m) → ∃ lines, projectMd now m id last = Ok lines.
Proof.
  intros Hc. unfold projectMd.
  destruct (getStatsForPeriod_returns now id 1 m Hc) as (bs & t & d & s & ->).
  destruct (getStatsForPeriod_returns now id 7 m Hc) as (bs' & t' & d' & s' & ->).
  unfold branchLine; simpl. by eexists.
Qed.

Lemma projectsMd_returns now m ids :
  completeStore (store m) → ∃ lines, projectsMd now m ids = Ok lines.
Proof.
  intros Hc. induction ids as [|id ids [more IH]]; [by eexists|]. simpl.
  destruct (projectMd_returns now m id (bool_decide (ids = [])) Hc) as [lines ->].
  rewrite IH. by eexists.
Qed.

Lemma getStatsMd_returns now wf m :
  completeStore (store m) → ∃ md, getStatsMd now wf m = Ok md.
Proof.
  intros Hc. unfold getStatsMd.
  destruct (projectsMd_returns now m
              match wf with Some folders => name <$> folders | None => [] end Hc)
    as [lines ->].
  by eexists.
Qed.

End world_stats.

(** ** The extension on a tracker and a file in order *)

Section world_healthy.
Import Extension.

Lemma on_tracker_run {A} (c : Method A) w :
  on_tracker c w = ((c (tracker w)).1, with_tracker w (c (tracker w)).2).
Proof. unfold on_tracker. by destruct (c (tracker w)). Qed.

Lemma on_tracker_healthy (c : Method unit) :
  returns sane c (λ _, sane) → returns healthy (on_tracker c) (λ _, healthy).
Proof.
  intros Hc w [Hsane Hdisk]. destruct (Hc _ Hsane) as ([] & m' & Hrun & Hsane').
  exists tt, (with_tracker w m'). rewrite on_tracker_run, Hrun. by split.
Qed.

Lemma same_world_healthy {A} (c : M World A) :
  (∀ w, ∃ a w', c w = (Ok a, w') ∧ tracker w' = tracker w ∧ disk w' = disk w) →
  ∀ Q : A → World → Prop, (∀ a w, healthy w → Q a w) →
  returns healthy c Q.
Proof.
  intros Hc Q HQ w [Hsane Hdisk]. destruct (Hc w) as (a & w' & Hrun & Ht & Hd).
  exists a, w'. split; [done|]. apply HQ. split; by rewrite ?Ht, ?Hd.
Qed.

Lemma set_text_healthy s : returns healthy (set_text s) (λ _, healthy).
Proof. apply same_world_healthy; [|done]. intros w. by eexists tt, _. Qed.

Lemma show_healthy : returns healthy show (λ _, healthy).
Proof. apply same_world_healthy; [|done]. intros w. by eexists tt, _. Qed.

Lemma set_interval_healthy b : returns healthy (set_interval b) (λ _, healthy).
Proof. apply same_world_healthy; [|done]. intros w. by eexists tt, _. Qed.

Lemma get_tracker_healthy : returns healthy get_tracker (λ _, healthy).
Proof. apply same_world_healthy; [|done]. intros w. by eexists _, _. Qed.

Lemma updateStats_healthy now wf : returns healthy (updateStats now wf) (λ _, healthy).
Proof.
  intros w Hw. destruct Hw as [(Hc & Hn & Hname) Hdisk].
  destruct (getStatsMd_returns now wf (tracker w) Hc) as [md Hmd].
  eexists tt, _. unfold updateStats, mbind, M_bind, bind, get_tracker, lift.
  rewrite Hmd. split; [done|]. by split.
Qed.

Lemma save_unusable d now m :
  d = Missing ∨ d = Unreadable ∨ d = Text Garbage →
  ∃ e, save d now m = (Throw e, m).
Proof. intros [->|[->| ->]]; by eexists. Qed.

Lemma backupSave_healthy now : returns healthy (backupSave now) (λ _, healthy).
Proof.
  intros w [Hsane Hdisk].
  unfold backupSave, try_catch, mbind, M_bind, bind, get_disk.
  rewrite on_tracker_run.
  destruct (disk w) as [| |[|f]] eqn:Hd.
  1-3: destruct (save_unusable (disk w) now (tracker w)) as [e He];
    [rewrite Hd; auto|]; rewrite Hd in He; rewrite He; simpl;
    eexists tt, _; split; [done|]; split; [done|]; simpl;
    intros f; rewrite Hd; done.
  destruct (Hdisk f eq_refl) as [Hfc Hfn].
  destruct (save_sane f now (tracker w) Hsane Hfc Hfn) as (m' & Hrun & Hsane' & _).
  rewrite Hrun; simpl. eexists tt, _. split; [done|]. split; [done|]. simpl.
  intros f' Heq. assert (f' = store m') as -> by congruence.
  by destruct Hsane' as (? & ? & _).
Qed.

Lemma healthy_bind {A B} (c : M World A) (k : A → M World B) R :
  returns healthy c (λ _, healthy) → (∀ a, returns healthy (k a) R) →
  returns healthy (c ≫= k) R.
Proof. apply returns_bind. Qed.

Lemma heartbeat_healthy now wf : returns healthy (heartbeat now wf) (λ _, healthy).
Proof.
  unfold heartbeat.
  apply healthy_bind; [apply get_tracker_healthy|intros m].
  apply healthy_bind; [apply set_text_healthy|intros _].
  apply healthy_bind;
    [apply on_tracker_healthy, updateAllDaySeconds_sane|intros _].
  apply healthy_bind; [apply updateStats_healthy|intros _].
  apply backupSave_healthy.
Qed.

Lemma handler_healthy e : named e → returns healthy (handler e) (λ _, healthy).
Proof.
  destruct e as [now wf|now ws branch ext|now added removed|now scope|now ws]; simpl.
  - intros _ w Hw. destruct (interval w); [by apply heartbeat_healthy|].
    by exists tt, w.
  - intros Hws. apply healthy_bind;
      [|intros _; apply on_tracker_healthy, addSave_sane].
    destruct ws as [ws|]; [|apply (returns_ret healthy tt)].
    destruct (truthy_str branch); [|apply (returns_ret healthy tt)].
    by apply on_tracker_healthy, addBranch_sane.
  - intros [Hadded Hremoved].
    apply healthy_bind; [|intros _]; apply returns_for_each; intros folder Hin.
    + apply on_tracker_healthy, startTracking_sane.
      by eapply (proj1 (Forall_forall _ _) Hadded).
    + apply on_tracker_healthy, endTracking_sane.
      by eapply (proj1 (Forall_forall _ _) Hremoved).
  - intros Hscope. destruct scope as [[| |ws]|];
      try apply (returns_ret healthy tt).
    by apply on_tracker_healthy, incrementTasks_sane.
  - intros Hws. destruct ws as [ws|]; [|apply (returns_ret healthy tt)].
    by apply on_tracker_healthy, incrementDebugs_sane.
Qed.

Lemma step_healthy w e : healthy w → named e → healthy (step w e).
Proof.
  intros Hw He. destruct (handler_healthy e He w Hw) as ([] & w' & Hrun & Hw').
  unfold step, state_after. by rewrite Hrun.
Qed.

Lemma run_healthy events w :
  healthy w → Forall named events → healthy (run events w).
Proof.
  revert w. induction events as [|e events IH]; intros w Hw Hnamed; [done|].
  apply Forall_cons in Hnamed as [He Hnamed]. simpl.
  apply IH; [by apply step_healthy | done].
Qed.

End world_healthy.

Section world_activate.
Import Extension.

Lemma newTimeManager_sane : sane newTimeManager.
Proof.
  repeat apply conj.
  - intros day d. simpl. by rewrite lookup_empty.
  - intros day p. unfold recordedSeconds, projectsAt; simpl.
    rewrite lookup_empty; simpl. by rewrite lookup_empty.
  - done.
Qed.

Lemma load_sane d :
  (∀ f, d = Text (Json f) → completeStore f ∧ nonnegStore f) →
  ∃ m', load d newTimeManager = (Ok tt, m') ∧ sane m'.
Proof.
  intros Hd. destruct d as [| |[|f]].
  1-3: exists newTimeManager; split; [by apply load_unusable; auto|];
    apply newTimeManager_sane.
  destruct (Hd f eq_refl) as [Hc Hn].
  destruct (decide (version f = CURRENT_SCHEMA_VERSION)) as [Hv|Hv].
  - eexists. split; [by apply load_current|]. by repeat apply conj.
  - eexists. split; [by apply load_older|]. repeat apply conj; [| |done].
    + eapply load_complete; [|by apply load_older]. done.
    + intros day p. cbn [store]. unfold recordedSeconds.
      rewrite projectsAt_migrated, lookup_fmap.
      pose proof (Hn day p) as Hp. unfold recordedSeconds in Hp.
      destruct (projectsAt f day !! p) as [e|]; simpl in *; [|done].
      by destruct (fixDetails_counters e) as (-> & _).
Qed.

Lemma activated_healthy now wf d :
  (∀ f, d = Text (Json f) → completeStore f ∧ nonnegStore f) →
  (∀ folders, wf = Some folders → Forall (λ ws, name ws ≠ "") folders) →
  healthy (activated now wf d).
Proof.
  intros Hd Hwf. destruct (load_sane d Hd) as (m1 & Hload & Hsane).
  assert (healthy (with_tracker (boot d) m1)) as Hw1 by (by split).
  unfold activated, state_after, activate, mbind, M_bind, bind, set_tracker, get_disk.
  rewrite on_tracker_run. cbn [tracker disk boot interval text shown tooltip].
  rewrite Hload. cbn [fst snd].
  change (with_tracker _ m1) with (with_tracker (boot d) m1).
  destruct wf as [folders|]; [|done].
  assert (returns healthy
            (set_text ("$(clock) " +:+ pretty (length folders));;
             show;;
             set_interval true;;
             for_each folders (λ folder, on_tracker (startTracking now folder)))
            (λ _, healthy)) as Hrest.
  { apply healthy_bind; [apply set_text_healthy|intros _].
    apply healthy_bind; [apply show_healthy|intros _].
    apply healthy_bind; [apply set_interval_healthy|intros _].
    apply returns_for_each. intros folder Hin.
    apply on_tracker_healthy, startTracking_sane.
    by eapply (proj1 (Forall_forall _ _) (Hwf folders eq_refl)). }
  destruct (Hrest _ Hw1) as ([] & w' & Hrun & Hw').
  unfold mbind, M_bind, bind in Hrun. by rewrite Hrun.
Qed.

End world_activate.



(** ** The sessions follow the folders *)

Lemma startTracking_each_dom now added m :
  ∃ m',
    for_each added (startTracking now) m = (Ok tt, m')
    ∧ dom (activeProjects m')
      = dom (activeProjects m) ∪ list_to_set (name <$> added).
Proof.
  revert m. induction added as [|ws added IH]; intros m.
  - exists m. split; [done|].
    change (list_to_set (name <$> [])) with (∅ : gset string).
    by rewrite (right_id_L ∅ (∪)).
  - destruct (IH (mkManager (store m) (<[name ws := now]> (activeProjects m))))
      as (m' & Hrun & Hdom).
    exists m'. rewrite for_each_cons, startTracking_run. split; [exact Hrun|].
    rewrite Hdom. cbn [activeProjects]. rewrite dom_insert_L.
    change (list_to_set (name <$> ws :: added))
      with ({[name ws]} ∪ list_to_set (name <$> added) : gset string).
    by rewrite (assoc_L (∪)), (comm_L (∪) _ {[name ws]}).
Qed.

Lemma endTracking_each_dom now removed m :
  Forall (λ ws, name ws ≠ "") removed →
  ∃ m',
    for_each removed (endTracking now) m = (Ok tt, m')
    ∧ dom (activeProjects m')
      = dom (activeProjects m) ∖ list_to_set (name <$> removed).
Proof.
  revert m. induction removed as [|ws removed IH]; intros m Hnamed.
  - exists m. split; [done|].
    change (list_to_set (name <$> [])) with (∅ : gset string).
    by rewrite difference_empty_L.
  - apply Forall_cons in Hnamed as [Hws Hnamed].
    destruct (endTracking_spec now ws m) as (m1 & Hrun1 & Hact & _); [done|].
    destruct (IH m1 Hnamed) as (m' & Hrun & Hdom).
    exists m'. rewrite for_each_cons, Hrun1. split; [exact Hrun|].
    rewrite Hdom, Hact, dom_delete_L.
    change (list_to_set (name <$> ws :: removed))
      with ({[name ws]} ∪ list_to_set (name <$> removed) : gset string).
    by rewrite difference_difference_l_L.
Qed.

Section world_sessions_main.
Import Extension.

Lemma with_tracker_with_tracker w m m' :
  with_tracker (with_tracker w m) m' = with_tracker w m'.
Proof. done. Qed.

Lemma for_each_on_tracker {A} (l : list A) (c : A → Method unit) w :
  for_each l (λ x, on_tracker (c x)) w
  = ((for_each l c (tracker w)).1, with_tracker w (for_each l c (tracker w)).2).
Proof.
  revert w. induction l as [|x l IH]; intros w; [by destruct w|].
  rewrite !for_each_cons, on_tracker_run.
  destruct (c x (tracker w)) as [[[]|e] m1]; [|done].
  cbn [fst snd]. by rewrite IH.
Qed.




Lemma sameSessions_handler e :
  (∀ now added removed, e ≠ DidChangeWorkspaceFolders now added removed) →
  preserves sameSessions (handler e).
Proof.
  destruct e as [now wf|now ws branch ext|now added removed|now scope|now ws];
    intros Hne; cbn [handler].
  - intros w r w'. destruct (interval w); [apply sameSessions_heartbeat|].
    by intros [= <- <-].
  - apply sameSessions_bind;
      [|intros _; apply sameSessions_on_tracker_eq, addSave_sessions].
    destruct ws as [ws|]; [|apply preserves_ret, sameSessions_refl].
    destruct (truthy_str branch); [|apply preserves_ret, sameSessions_refl].
    apply sameSessions_on_tracker_eq. unfold addBranch.
    apply updateDetails_sessions.
  - exfalso. by apply (Hne now added removed).
  - destruct scope as [[| |ws]|]; try apply preserves_ret, sameSessions_refl.
    apply sameSessions_on_tracker_eq. unfold incrementTasks.
    apply updateDetails_sessions.
  - destruct ws as [ws|]; [|apply preserves_ret, sameSessions_refl].
    apply sameSessions_on_tracker_eq. unfold incrementDebugs.
    apply updateDetails_sessions.
Qed.

Lemma step_tracked w e :
  named e →
  dom (activeProjects (tracker (step w e)))
  = tracked (dom (activeProjects (tracker w))) e.
Proof.
  intros He.
  assert ((∀ now added removed, e ≠ DidChangeWorkspaceFolders now added removed) →
          dom (activeProjects (tracker (step w e)))
          = dom (activeProjects (tracker w))) as Hsame.
  { intros Hne. apply (sameSessions_handler e Hne w (handler e w).1).
    unfold step, state_after. apply surjective_pairing. }
  destruct e as [now wf|now ws branch ext|now added removed|now scope|now ws];
    try (apply Hsame; discriminate).
  destruct He as [_ Hremoved]. unfold step, state_after.
  cbn [handler tracked]. unfold mbind, M_bind, bind. rewrite for_each_on_tracker.
  destruct (startTracking_each_dom now added (tracker w)) as (m1 & -> & Hdom1).
  cbn [fst snd]. rewrite for_each_on_tracker. cbn [tracker with_tracker].
  destruct (endTracking_each_dom now removed m1 Hremoved) as (m2 & -> & Hdom2).
  cbn [fst snd tracker with_tracker]. by rewrite Hdom2, Hdom1.
Qed.

Lemma run_tracked events w :
  Forall named events →
  dom (activeProjects (tracker (run events w)))
  = foldl tracked (dom (activeProjects (tracker w))) events.
Proof.
  revert w. induction events as [|e events IH]; intros w Hnamed; [done|].
  apply Forall_cons in Hnamed as [He Hnamed]. simpl.
  by rewrite IH, step_tracked.
Qed.

Lemma activated_sessions now wf d :
  dom (activeProjects (tracker (activated now wf d)))
  = match wf with
    | Some folders => list_to_set (name <$> folders)
    | None => ∅
    end.
Proof.
  destruct (load_returns_always d newTimeManager) as [m1 Hload].
  assert (activeProjects m1 = ∅) as Hm1.
  { destruct d as [| |[|f]].
    1-3: rewrite load_unusable in Hload by auto; by injection Hload as <-.
    destruct (decide (version f = CURRENT_SCHEMA_VERSION)) as [Hv|Hv].
    - rewrite load_current in Hload by done. by injection Hload as <-.
    - rewrite load_older in Hload by done. by injection Hload as <-. }
  unfold activated, state_after, activate, mbind, M_bind, bind, set_tracker, get_disk.
  rewrite on_tracker_run. cbn [tracker disk boot interval text shown tooltip].
  rewrite Hload. cbn [fst snd].
  destruct wf as [folders|].
  - unfold set_text, show, set_interval. cbn [fst snd].
    rewrite for_each_on_tracker.
    cbn [tracker with_tracker disk interval text shown tooltip].
    destruct (startTracking_each_dom now folders m1) as (m2 & -> & Hdom).
    cbn [fst snd tracker with_tracker]. rewrite Hdom, Hm1, dom_empty_L.
    by rewrite (left_id_L ∅ (∪)).
  - unfold mret, M_ret, ret. cbn [fst snd tracker with_tracker].
    by rewrite Hm1, dom_empty_L.
Qed.

Lemma getTracking_length m : length (getTracking m) = size (dom (activeProjects m)).
Proof.
  unfold getTracking. rewrite length_fmap, size_dom. apply length_map_to_list.
Qed.


Lemma heartbeat_text now wf w :
  text (state_after (heartbeat now wf) w)
  = "$(clock) " +:+ pretty (size (dom (activeProjects (tracker w)))).
Proof.
  set (P := λ w w' : World, text w' = text w).
  assert (∀ w1 w2 w3, P w1 w2 → P w2 w3 → P w1 w3) as Htrans
    by (unfold P; intros ??? -> ->; done).
  assert (∀ A (c : Method A), preserves P (on_tracker c)) as Hon.
  { intros A c w0 r w'. rewrite on_tracker_run. by intros [= <- <-]. }
  assert (preserves P
            (on_tracker (updateAllDaySeconds now);;
             updateStats now wf;;
             backupSave now)) as Hrest.
  { apply preserves_bind; [done|apply Hon|intros _].
    apply preserves_bind; [done| |intros _].
    { intros w0 r w'. unfold updateStats, mbind, M_bind, bind, get_tracker, lift.
      destruct (getStatsMd now wf (tracker w0)); by intros [= <- <-]. }
    unfold backupSave. apply preserves_try_catch; [done| |].
    - apply preserves_bind; [done| |intros d].
      { by intros w0 r w' [= <- <-]. }
      apply preserves_bind; [done|apply Hon|intros written].
      by intros w0 r w' [= <- <-].
    - intros e. by apply preserves_ret. }
  unfold state_after, heartbeat. unfold mbind at 1 2, M_bind at 1 2, bind at 1 2.
  unfold get_tracker, set_text. cbn [fst snd].
  match goal with |- text (?c ?w1).2 = _ =>
    rewrite (Hrest w1 (c w1).1 (c w1).2 (surjective_pairing _)) end.
  cbn [text]. by rewrite getTracking_length.
Qed.

End world_sessions_main.



(** ** What a heartbeat leaves on disk *)

Lemma updateDaySeconds_entries now k m m' :
  (is_Some (activeProjects m !! k) → k ≠ "") →
  updateDaySeconds now k m = (Ok tt, m') →
  let today := dateString now 0 in
  (∀ q, is_Some (projectsAt (store m) today !! q) →
        is_Some (projectsAt (store m') today !! q))
  ∧ (is_Some (activeProjects m !! k) → is_Some (projectsAt (store m') today !! k)).
Proof.
  intros Hk Hrun today. destruct (activeProjects m !! k) as [start|] eqn:Hstart.
  - rewrite (updateDaySeconds_active _ _ start) in Hrun by eauto.
    match type of Hrun with context [setDay ?a ?b ?c] =>
      set (X := setDay a b c) in Hrun end.
    assert (store m' = store X) as -> by (by injection Hrun as <-).
    unfold X. fold today. rewrite projectsAt_setDay_Some. split.
    + intros q Hq. destruct (decide (q = k)) as [->|Hne].
      * rewrite lookup_insert_eq. by eexists.
      * by rewrite lookup_insert_ne.
    + intros _. rewrite lookup_insert_eq. by eexists.
  - rewrite updateDaySeconds_idle in Hrun by done. injection Hrun as <-.
    split; [done|]. by intros [? ?].
Qed.

Lemma is_Some_dom_eq (a b : gmap string Date) k :
  dom a = dom b → is_Some (a !! k) → is_Some (b !! k).
Proof. intros Hdom. rewrite <- !elem_of_dom. by rewrite Hdom. Qed.

Lemma settle_each_entries now l m m' :
  (∀ k, k ∈ l → is_Some (activeProjects m !! k) → k ≠ "") →
  for_each l (updateDaySeconds now) m = (Ok tt, m') →
  let today := dateString now 0 in
  (∀ q, is_Some (projectsAt (store m) today !! q) →
        is_Some (projectsAt (store m') today !! q))
  ∧ (∀ k, k ∈ l → is_Some (activeProjects m !! k) →
          is_Some (projectsAt (store m') today !! k)).
Proof.
  intros Hl Hrun today. revert m Hl Hrun.
  induction l as [|k l IH]; intros m Hl Hrun.
  - injection Hrun as <-. split; [done|]. by intros k Hk%elem_of_nil.
  - rewrite for_each_cons in Hrun.
    destruct (updateDaySeconds now k m) as [[[]|e] m1] eqn:Hrun1; [|done].
    pose proof (updateDaySeconds_dom _ _ _ _ _ Hrun1) as Hdom. simpl in Hdom.
    destruct (updateDaySeconds_entries now k m m1) as [Hkeep1 Hk1];
      [apply Hl; by left|done|].
    destruct (IH m1) as [Hkeep Hin]; [|done|].
    { intros k' Hk' Hs. apply Hl; [by right|]. by eapply is_Some_dom_eq. }
    split.
    + intros q Hq. by apply Hkeep, Hkeep1.
    + intros k' [->|Hk']%elem_of_cons Hs.
      * by apply Hkeep, Hk1.
      * apply Hin; [done|]. eapply is_Some_dom_eq; [|done]. done.
Qed.

Lemma updateAllDaySeconds_entries now m m' :
  activeProjects m !! "" = None →
  updateAllDaySeconds now m = (Ok tt, m') →
  ∀ k, is_Some (activeProjects m !! k) →
       is_Some (projectsAt (store m') (dateString now 0) !! k).
Proof.
  intros Hname Hrun k Hk.
  eapply (settle_each_entries now _ m m'); [|exact Hrun| |exact Hk].
  - intros k' _ Hs ->. rewrite Hname in Hs. by destruct Hs.
  - by apply elem_of_keys.
Qed.



(** ** The manager with one file per day *)

Section perday.
Import PerDay.

Lemma perday_on_manager_Some {A} key (c : M DayManager A) m d :
  PerDay.days m !! key = Some d →
  on_manager key c m
  = ((c d).1, PerDay.mkManager (<[key := (c d).2]> (PerDay.days m))
                (PerDay.activeProjects m)).
Proof. intros Hd. unfold on_manager. rewrite Hd. by destruct (c d). Qed.

Lemma perday_on_manager_None {A} key (c : M DayManager A) m :
  PerDay.days m !! key = None → on_manager key c m = (Throw TypeError, m).
Proof. intros Hd. unfold on_manager. by rewrite Hd. Qed.

(** The flag of a manager changes only in [load] and [save]. *)
Lemma perday_validate_exists project :
  preserves (λ d d', doesExist d' = doesExist d) (validate project).
Proof.
  intros d r d'. unfold validate, mbind, M_bind, bind, PerDay.get_store.
  destruct (day (PerDay.store d)); by intros [= <- <-].
Qed.

Lemma perday_updateDetails_exists p details :
  preserves (λ d d', doesExist d' = doesExist d) (PerDay.updateDetails p details).
Proof.
  unfold PerDay.updateDetails.
  apply preserves_bind; [by intros ??? -> ->|apply perday_validate_exists|intros _].
  apply preserves_bind; [by intros ??? -> ->|by intros d r d' [= <- <-]|intros s].
  destruct (day s) as [dd|]; [|by apply preserves_throw].
  destruct (projects dd) as [ps|]; [|by apply preserves_throw].
  destruct (ps !! p); [by intros d r d' [= <- <-]|].
  destruct (hasMember details); [by apply preserves_throw | by apply preserves_ret].
Qed.

Lemma perday_addSave_exists ext :
  preserves (λ d d', doesExist d' = doesExist d) (PerDay.addSave ext).
Proof.
  unfold PerDay.addSave.
  apply preserves_bind; [by intros ??? -> ->|apply perday_validate_exists|intros _].
  apply preserves_bind; [by intros ??? -> ->|by intros d r d' [= <- <-]|intros s].
  destruct (day s) as [dd|]; [|by apply preserves_throw].
  destruct (saves dd) as [sv|]; [|by apply preserves_throw].
  by intros d r d' [= <- <-].
Qed.

Lemma sameManagers_refl m : sameManagers m m.
Proof. done. Qed.

Lemma sameManagers_trans m1 m2 m3 :
  sameManagers m1 m2 → sameManagers m2 m3 → sameManagers m1 m3.
Proof. intros H12 H23 key. by rewrite H23, H12. Qed.

Lemma sameManagers_bind {A B} (c : M PerDay.TimeManager A)
    (k : A → M PerDay.TimeManager B) :
  preserves sameManagers c → (∀ a, preserves sameManagers (k a)) →
  preserves sameManagers (c ≫= k).
Proof. apply preserves_bind, sameManagers_trans. Qed.

Lemma sameManagers_same_days {A} (c : M PerDay.TimeManager A) :
  (∀ m r m', c m = (r, m') → PerDay.days m' = PerDay.days m) →
  preserves sameManagers c.
Proof. intros Hc m r m' Hrun key. by rewrite (Hc _ _ _ Hrun). Qed.

Lemma sameManagers_on_manager {A} key (c : M DayManager A) :
  preserves (λ d d', doesExist d' = doesExist d) c →
  preserves sameManagers (on_manager key c).
Proof.
  intros Hc m r m'. unfold on_manager.
  destruct (PerDay.days m !! key) as [d|] eqn:Hd; [|by intros [= <- <-]].
  destruct (c d) as [r1 d1] eqn:Hrun. intros [= <- <-] key'. simpl.
  destruct (decide (key' = key)) as [->|Hne].
  - rewrite lookup_insert_eq, Hd; simpl. f_equal. by eapply Hc.
  - by rewrite lookup_insert_ne.
Qed.

Lemma sameManagers_updateDaySeconds now p :
  preserves sameManagers (PerDay.updateDaySeconds now p).
Proof.
  unfold PerDay.updateDaySeconds.
  apply sameManagers_bind; [by apply sameManagers_same_days; intros m r m' [= <- <-]|].
  intros a. destruct (a !! p); [|apply preserves_ret, sameManagers_refl].
  apply sameManagers_bind;
    [apply sameManagers_on_manager, perday_updateDetails_exists|intros _].
  apply sameManagers_bind; [|intros a'];
    by apply sameManagers_same_days; intros m r m' [= <- <-].
Qed.

Lemma sameManagers_call c : preserves sameManagers (call c).
Proof.
  destruct c as [now [ws|ws| |ws b|ws|ws|ext]]; unfold call; cbn [snd fst].
  - unfold PerDay.startTracking.
    apply sameManagers_bind; [|intros a];
      by apply sameManagers_same_days; intros m r m' [= <- <-].
  - unfold PerDay.endTracking.
    apply sameManagers_bind; [apply sameManagers_updateDaySeconds|intros _].
    apply sameManagers_bind; [|intros a];
      by apply sameManagers_same_days; intros m r m' [= <- <-].
  - unfold PerDay.updateAllDaySeconds.
    apply sameManagers_bind;
      [by apply sameManagers_same_days; intros m r m' [= <- <-]|intros a].
    apply preserves_for_each;
      [apply sameManagers_refl|apply sameManagers_trans|].
    intros p _. apply sameManagers_updateDaySeconds.
  - apply sameManagers_on_manager, perday_updateDetails_exists.
  - apply sameManagers_on_manager, perday_updateDetails_exists.
  - apply sameManagers_on_manager, perday_updateDetails_exists.
  - apply sameManagers_on_manager, perday_addSave_exists.
Qed.

Lemma sameManagers_calls l m : sameManagers m (calls l m).
Proof.
  revert m. induction l as [|c l IH]; intros m; [apply sameManagers_refl|].
  simpl. eapply sameManagers_trans; [|apply IH].
  apply (sameManagers_call c m (call c m).1). unfold state_after.
  apply surjective_pairing.
Qed.


Lemma perday_tm_load_days now dir m :
  PerDay.days (state_after (tm_load now dir) m)
  = <[PerDay.dateString now 0 :=
        state_after (PerDay.load (fileOf dir (PerDay.dateString now 0))) newDayManager]>
      (PerDay.days m).
Proof. done. Qed.

Lemma perday_read_absent day d m :
  PerDay.days m !! day = Some d → doesExist d = false →
  ∀ dir, tm_getStats day dir m = (Ok None, m).
Proof.
  intros Hd He dir. unfold tm_getStats, mbind, M_bind, bind, ensure_manager, read_manager.
  rewrite Hd. cbn. rewrite Hd. by rewrite perday_getStats_absent.
Qed.

End perday.

(** X13. In the variant with one file per day, what has been recorded on a
    day whose file could not be loaded is invisible to the queries until the
    first [save]: after [load] on a day whose file is missing, unreadable,
    empty or not a document, whatever calls record afterwards,
    [getStats(today)] returns [undefined] and [getStatsForPeriod(p, 1)] the
    zero counters, whatever is on disk by then. *)
Theorem perday_unsaved_invisible now dir l :
  let today := PerDay.dateString now 0 in
  PerDay.fileOf dir today = PerDay.Missing
  ∨ PerDay.fileOf dir today = PerDay.Unreadable
  ∨ PerDay.fileOf dir today = PerDay.Text PerDay.Blank
  ∨ PerDay.fileOf dir today = PerDay.Text PerDay.Garbage →
  let m := PerDay.calls l (state_after (PerDay.tm_load now dir) PerDay.newTimeManager) in
  ∀ dir' p,
    PerDay.tm_getStats today dir' m = (Ok None, m)
    ∧ PerDay.getStatsForPeriod now p 1 dir' m = (Ok freshDetails, m).
Proof.
  intros today Hfile m dir' p.
  assert (∃ d, PerDay.days m !! today = Some d ∧ PerDay.doesExist d = false)
    as (d & Hd & He).
  { pose proof (sameManagers_calls l
                  (state_after (PerDay.tm_load now dir) PerDay.newTimeManager) today)
      as Hsame.
    fold m in Hsame. rewrite perday_tm_load_days in Hsame. fold today in Hsame.
    rewrite lookup_insert_eq in Hsame. unfold state_after in Hsame.
    rewrite perday_load_unusable in Hsame by done. simpl in Hsame.
    destruct (PerDay.days m !! today) as [d|]; [|done].
    exists d. split; [done|]. by injection Hsame. }
  pose proof (perday_read_absent today d m Hd He dir') as Hstats.
  split; [done|].
  unfold PerDay.getStatsForPeriod.
  change (PerDay.getDays now 1) with [today]. cbn [PerDay.sumDays].
  unfold mbind, M_bind, bind. by rewrite Hstats.
Qed.

Lemma perday_unsaved_invisible_witness :
  let today := PerDay.dateString Scenario.t0 0 in
  let l := [(Scenario.t0, PerDay.StartTracking Scenario.X);
            (Scenario.after 30, PerDay.UpdateAllDaySeconds);
            (Scenario.after 31, PerDay.AddBranch Scenario.X "main")] in
  let m := PerDay.calls l
             (state_after (PerDay.tm_load Scenario.t0 ∅) PerDay.newTimeManager) in
  (PerDay.fileOf ∅ today = PerDay.Missing
   ∨ PerDay.fileOf ∅ today = PerDay.Unreadable
   ∨ PerDay.fileOf ∅ today = PerDay.Text PerDay.Blank
   ∨ PerDay.fileOf ∅ today = PerDay.Text PerDay.Garbage)
  ∧ ((PerDay.days m !! today ≫= λ d, PerDay.day (PerDay.store d))
       ≫= projects) ≫= (.!! "X")
    = Some (mkDetails (Some ["main"]) (Some 0%Q) (Some 0%Q) (Some (30000 # 1000)%Q))
  ∧ PerDay.tm_getStats today ∅ m = (Ok None, m)
  ∧ PerDay.getStatsForPeriod Scenario.t0 "X" 1 ∅ m = (Ok freshDetails, m).
Proof.
  intros today l m.
  assert (PerDay.fileOf ∅ today = PerDay.Missing
          ∨ PerDay.fileOf ∅ today = PerDay.Unreadable
          ∨ PerDay.fileOf ∅ today = PerDay.Text PerDay.Blank
          ∨ PerDay.fileOf ∅ today = PerDay.Text PerDay.Garbage) as Hfile
    by (left; reflexivity).
  split; [exact Hfile|]. split; [vm_compute; reflexivity|].
  exact (perday_unsaved_invisible Scenario.t0 ∅ l Hfile ∅ "X").
Defined.

Section perday_more.
Import PerDay.

Lemma perday_updateDaySeconds_stuck now p start m :
  PerDay.days m !! PerDay.dateString now 0 = None →
  PerDay.activeProjects m !! p = Some start →
  PerDay.updateDaySeconds now p m = (Throw TypeError, m).
Proof.
  intros Hd Hstart.
  unfold PerDay.updateDaySeconds, mbind, M_bind, bind, PerDay.get_active.
  rewrite Hstart. by rewrite perday_on_manager_None.
Qed.

Lemma perday_checkForChanges_version disk act :
  preserves (λ d d', version (PerDay.store d') = version (PerDay.store d)
                     ∧ doesExist d' = doesExist d)
    (PerDay.checkForChanges disk act).
Proof.
  intros d r d'. unfold PerDay.checkForChanges.
  destruct disk as [| |[| |f]]; cbn [PerDay.readFile].
  1-3: by intros [= <- <-].
  - unfold mbind, M_bind, bind, lift. cbn [PerDay.JSON_parse]. by intros [= <- <-].
  - unfold mbind, M_bind, bind, lift, PerDay.get_store. cbn [PerDay.JSON_parse].
    destruct (day (PerDay.store d)) as [memDay|]; [|by intros [= <- <-]].
    destruct (day f) as [loadedDay|]; [|by intros [= <- <-]].
    destruct (mergeActive _ _ _); by intros [= <- <-].
Qed.

Lemma perday_save_Ok_inv disk act d written d' :
  PerDay.save disk act d = (Ok written, d') →
  written = PerDay.Text (PerDay.Json (PerDay.store d'))
  ∧ doesExist d' = true
  ∧ version (PerDay.store d') = version (PerDay.store d).
Proof.
  unfold PerDay.save, mbind, M_bind, bind.
  destruct (PerDay.checkForChanges disk act d) as [[[]|e] d1] eqn:Hcheck; [|done].
  destruct (perday_checkForChanges_version _ _ _ _ _ Hcheck) as [Hv _].
  unfold PerDay.get_store, PerDay.set_exists. simpl. by intros [= <- <-].
Qed.

End perday_more.

(** X14. In the variant with one file per day, nothing is recorded on a day
    that has no manager yet, as when the day has changed since [load]. The
    calls that write the ledger throw a [TypeError] and leave the instance
    as it was, the settle of a session included, so the session keeps its
    start; [save] returns without writing; no call creates the manager,
    whatever calls are made. [getStats] of the day is what creates it. *)
Theorem perday_stuck_without_manager now m :
  let today := PerDay.dateString now 0 in
  PerDay.days m !! today = None →
  (∀ ws b, PerDay.addBranch now ws b m = (Throw TypeError, m))
  ∧ (∀ ws, PerDay.incrementTasks now ws m = (Throw TypeError, m))
  ∧ (∀ ws, PerDay.incrementDebugs now ws m = (Throw TypeError, m))
  ∧ (∀ ext, PerDay.tm_addSave now ext m = (Throw TypeError, m))
  ∧ (∀ ws, is_Some (PerDay.activeProjects m !! name ws) →
           PerDay.endTracking now ws m = (Throw TypeError, m))
  ∧ (PerDay.activeProjects m ≠ ∅ →
     PerDay.updateAllDaySeconds now m = (Throw TypeError, m))
  ∧ (∀ dir, PerDay.tm_save now dir m = (Ok dir, m))
  ∧ (∀ l, PerDay.days (PerDay.calls l m) !! today = None)
  ∧ (∀ dir, is_Some (PerDay.days (state_after (PerDay.tm_getStats today dir) m)
                       !! today)).
Proof.
  intros today Hd. repeat apply conj.
  - intros ws b. by apply perday_on_manager_None.
  - intros ws. by apply perday_on_manager_None.
  - intros ws. by apply perday_on_manager_None.
  - intros ext. by apply perday_on_manager_None.
  - intros ws [start Hstart]. unfold PerDay.endTracking, mbind, M_bind, bind.
    by rewrite (perday_updateDaySeconds_stuck now _ start).
  - intros Hne. unfold PerDay.updateAllDaySeconds, mbind, M_bind, bind, PerDay.get_active.
    destruct (map_to_list (PerDay.activeProjects m)) as [|[p start] rest] eqn:Hl.
    { by apply map_to_list_empty_iff in Hl. }
    cbn [fmap list_fmap fst]. rewrite for_each_cons.
    rewrite (perday_updateDaySeconds_stuck now p start); [done|done|].
    apply elem_of_map_to_list. rewrite Hl. by left.
  - intros dir. unfold PerDay.tm_save. fold today. by rewrite Hd.
  - intros l. pose proof (sameManagers_calls l m today) as Hsame.
    rewrite Hd in Hsame. by destruct (PerDay.days (PerDay.calls l m) !! today).
  - intros dir. unfold state_after, PerDay.tm_getStats, mbind, M_bind, bind,
      PerDay.ensure_manager, PerDay.read_manager, PerDay.set_manager.
    rewrite Hd. cbn [fst snd PerDay.days]. rewrite lookup_insert_eq.
    cbn [fst snd PerDay.days]. rewrite lookup_insert_eq. by eexists.
Qed.

Lemma perday_stuck_without_manager_witness :
  let m := PerDay.calls [(Scenario.t0, PerDay.StartTracking Scenario.X)]
             (state_after (PerDay.tm_load Scenario.t0 ∅) PerDay.newTimeManager) in
  let tomorrow := Scenario.after 86400 in
  PerDay.days m !! PerDay.dateString tomorrow 0 = None
  ∧ PerDay.activeProjects m ≠ ∅
  ∧ PerDay.updateAllDaySeconds tomorrow m = (Throw TypeError, m)
  ∧ PerDay.tm_save tomorrow ∅ m = (Ok ∅, m).
Proof.
  intros m tomorrow.
  assert (PerDay.days m !! PerDay.dateString tomorrow 0 = None) as Hd
    by (vm_compute; reflexivity).
  assert (PerDay.activeProjects m ≠ ∅) as Hne.
  { intros Heq. assert (PerDay.activeProjects m !! "X" = None) as HX
      by (by rewrite Heq). vm_compute in HX. discriminate. }
  destruct (perday_stuck_without_manager tomorrow m Hd)
    as (_ & _ & _ & _ & _ & Hsettle & Hsave & _).
  split; [exact Hd|]. split; [exact Hne|].
  split; [exact (Hsettle Hne) | exact (Hsave ∅)].
Defined.

Lemma perday_fileOf_insert (dir : gmap string PerDay.file) key f :
  PerDay.fileOf (<[key := f]> dir) key = f.
Proof. unfold PerDay.fileOf. by rewrite lookup_insert_eq. Qed.

Lemma perday_getStats_resident day d m dir :
  PerDay.days m !! day = Some d →
  PerDay.tm_getStats day dir m = (PerDay.getStats d, m).
Proof.
  intros Hd. unfold PerDay.tm_getStats, mbind, M_bind, bind, PerDay.ensure_manager,
    PerDay.read_manager.
  rewrite Hd. cbn. by rewrite Hd.
Qed.

Lemma perday_getStats_fresh day m dir :
  PerDay.days m !! day = None →
  let d := state_after (PerDay.load (PerDay.fileOf dir day)) PerDay.newDayManager in
  PerDay.tm_getStats day dir m
  = (PerDay.getStats d,
     PerDay.mkManager (<[day := d]> (PerDay.days m)) (PerDay.activeProjects m)).
Proof.
  intros Hd d. unfold PerDay.tm_getStats, mbind, M_bind, bind, PerDay.ensure_manager,
    PerDay.read_manager, PerDay.set_manager.
  rewrite Hd. cbn. by rewrite lookup_insert_eq.
Qed.

(** X15. In the variant with one file per day, [getStats] reads the file of
    a day at most once in the life of an instance: once it has been called
    for a day, calling it again gives the same result and changes nothing,
    whatever the directory holds by then. *)
Theorem perday_getStats_reads_once day dir m r m' :
  PerDay.tm_getStats day dir m = (r, m') →
  ∀ dir', PerDay.tm_getStats day dir' m' = (r, m').
Proof.
  destruct (PerDay.days m !! day) as [d|] eqn:Hd.
  - rewrite (perday_getStats_resident day d) by done.
    intros [= <- <-] dir'. by apply perday_getStats_resident.
  - rewrite perday_getStats_fresh by done.
    intros [= <- <-] dir'. apply perday_getStats_resident.
    cbn [PerDay.days]. by rewrite lookup_insert_eq.
Qed.

(** A file written by another window after the first query is not seen. *)
Lemma perday_getStats_reads_once_witness :
  let today := PerDay.dateString Scenario.t0 0 in
  let ledger := mkDay (Some {["Y" := freshDetails]}) (Some ∅) in
  let dir' : gmap string PerDay.file :=
    {[today := PerDay.Text (PerDay.Json (PerDay.mkFile v1 (Some ledger)))]} in
  let m' := state_after (PerDay.tm_getStats today ∅) PerDay.newTimeManager in
  PerDay.tm_getStats today ∅ PerDay.newTimeManager = (Ok None, m')
  ∧ PerDay.tm_getStats today dir' PerDay.newTimeManager
    = (Ok (Some ledger), state_after (PerDay.tm_getStats today dir') PerDay.newTimeManager)
  ∧ PerDay.tm_getStats today dir' m' = (Ok None, m').
Proof.
  intros today ledger dir' m'.
  assert (PerDay.tm_getStats today ∅ PerDay.newTimeManager = (Ok None, m')) as Hrun
    by (vm_compute; reflexivity).
  split; [exact Hrun|]. split; [vm_compute; reflexivity|].
  exact (perday_getStats_reads_once today ∅ PerDay.newTimeManager _ _ Hrun dir').
Defined.

(** X16. In the variant with one file per day, [save] with a manager for
    today whose store carries the current version, when it returns, leaves
    the file of today holding the store of that manager, now flagged as
    existing, and touches no other file and no other manager; [load] in
    another window then gets that store, and its [getStats(today)] the
    ledger that was saved. *)
Theorem perday_save_load_round_trip now dir m d dir' m' :
  let today := PerDay.dateString now 0 in
  PerDay.days m !! today = Some d →
  PerDay.version (PerDay.store d) = PerDay.CURRENT_SCHEMA_VERSION →
  PerDay.tm_save now dir m = (Ok dir', m') →
  ∃ d',
    PerDay.days m' !! today = Some d'
    ∧ PerDay.doesExist d' = true
    ∧ PerDay.fileOf dir' today = PerDay.Text (PerDay.Json (PerDay.store d'))
    ∧ (∀ key, key ≠ today →
              dir' !! key = dir !! key ∧ PerDay.days m' !! key = PerDay.days m !! key)
    ∧ (∀ m0, PerDay.days (state_after (PerDay.tm_load now dir') m0) !! today
             = Some (PerDay.mkDayManager true (PerDay.store d')))
    ∧ (∀ stats, PerDay.day (PerDay.store d') = Some stats →
                value_of (PerDay.tm_getStats today dir') PerDay.newTimeManager
                = Ok (Some stats)).
Proof.
  intros today Hd Hv. unfold PerDay.tm_save. fold today. rewrite Hd.
  rewrite (perday_on_manager_Some _ _ _ d) by done.
  destruct (PerDay.save (PerDay.fileOf dir today) (PerDay.activeProjects m) d)
    as [[written|e] d'] eqn:Hsave; [|done].
  cbn [fst snd]. intros [= <- <-].
  destruct (perday_save_Ok_inv _ _ _ _ _ Hsave) as (-> & He & Hv').
  assert (PerDay.load (PerDay.Text (PerDay.Json (PerDay.store d'))) PerDay.newDayManager
          = (Ok tt, PerDay.mkDayManager true (PerDay.store d'))) as Hload.
  { apply perday_load_current. by rewrite Hv'. }
  exists d'. cbn [PerDay.days]. rewrite lookup_insert_eq. split; [done|].
  split; [done|]. rewrite perday_fileOf_insert. split; [done|].
  split. { intros key Hkey. by rewrite !lookup_insert_ne. }
  split.
  - intros m0. rewrite perday_tm_load_days. fold today. rewrite lookup_insert_eq.
    rewrite perday_fileOf_insert. unfold state_after. by rewrite Hload.
  - intros stats Hstats. unfold value_of.
    rewrite perday_getStats_fresh by done. cbn [fst].
    rewrite perday_fileOf_insert. unfold state_after. rewrite Hload. cbn [snd].
    by rewrite (perday_getStats_stored _ stats).
Qed.

Lemma perday_save_load_round_trip_witness :
  let now := Scenario.after 31 in
  let today := PerDay.dateString now 0 in
  let m := PerDay.calls [(Scenario.t0, PerDay.StartTracking Scenario.X);
                         (Scenario.after 30, PerDay.UpdateAllDaySeconds)]
             (state_after (PerDay.tm_load Scenario.t0 ∅) PerDay.newTimeManager) in
  ∃ d dir' m' d',
    PerDay.days m !! today = Some d
    ∧ PerDay.version (PerDay.store d) = PerDay.CURRENT_SCHEMA_VERSION
    ∧ PerDay.tm_save now ∅ m = (Ok dir', m')
    ∧ PerDay.days m' !! today = Some d'
    ∧ PerDay.doesExist d = false
    ∧ PerDay.doesExist d' = true
    ∧ PerDay.fileOf dir' today = PerDay.Text (PerDay.Json (PerDay.store d'))
    ∧ PerDay.days (state_after (PerDay.tm_load now dir') PerDay.newTimeManager) !! today
      = Some (PerDay.mkDayManager true (PerDay.store d')).
Proof.
  intros now today m.
  destruct (PerDay.days m !! today) as [d|] eqn:Hd;
    [|vm_compute in Hd; discriminate].
  assert (PerDay.version (PerDay.store d) = PerDay.CURRENT_SCHEMA_VERSION) as Hv.
  { vm_compute in Hd. injection Hd as <-. reflexivity. }
  assert (PerDay.doesExist d = false) as He.
  { vm_compute in Hd. injection Hd as <-. reflexivity. }
  destruct (PerDay.tm_save now ∅ m) as [[dir'|e] m'] eqn:Hsave;
    [|vm_compute in Hsave; discriminate].
  destruct (perday_save_load_round_trip now ∅ m d dir' m' Hd Hv Hsave)
    as (d' & Hd' & He' & Hfile & _ & Hload & _).
  exists d, dir', m', d'.
  split; [reflexivity|]. split; [exact Hv|]. split; [reflexivity|].
  split; [exact Hd'|]. split; [exact He|]. split; [exact He'|].
  split; [exact Hfile | exact (Hload PerDay.newTimeManager)].
Defined.

Lemma perday_save_merges_witness :
  let entry (s : Q) := mkDetails (Some []) (Some 0%Q) (Some 0%Q) (Some s) in
  let loaded :=
    PerDay.mkFile v1 (Some (mkDay (Some {["X" := entry 5%Q; "Y" := entry 7%Q]}) (Some ∅))) in
  let act : gmap string Date := {["X" := Scenario.t0]} in
  let mp : gmap string TrackerDetails := {["X" := entry 30%Q]} in
  PerDay.day loaded
  = Some (mkDay (Some {["X" := entry 5%Q; "Y" := entry 7%Q]}) (Some ∅))
  ∧ ∃ merged,
      PerDay.save (PerDay.Text (PerDay.Json loaded)) act
        (PerDay.mkDayManager true (PerDay.mkFile v1 (Some (mkDay (Some mp) (Some ∅)))))
      = (Ok (PerDay.Text (PerDay.Json
               (PerDay.mkFile v1 (Some (mkDay (Some merged) (Some ∅)))))),
         PerDay.mkDayManager true (PerDay.mkFile v1 (Some (mkDay (Some merged) (Some ∅)))))
      ∧ merged !! "X" = Some (entry 30%Q)
      ∧ merged !! "Y" = Some (entry 7%Q).
Proof.
  intros entry loaded act mp. split; [reflexivity|].
  destruct (perday_save_merges loaded act v1 mp (Some ∅)
              {["X" := entry 5%Q; "Y" := entry 7%Q]} (Some ∅) eq_refl true)
    as (merged & Hrun & Hlook).
  exists merged. split; [exact Hrun|]. split.
  - rewrite (Hlook "X"). vm_compute. reflexivity.
  - rewrite (Hlook "Y"). vm_compute. reflexivity.
Defined.

(** ** The lookup of the Git extension *)

(** X18. The Git extension is looked up once. After the first call of
    [getGitBranch] the lookup is marked as done and what it found is kept:
    when it found no API, because the extension was missing or the way to
    its API threw, every later call returns [undefined], whatever the host
    offers by then; when it found the API, every later call reports the name
    of the head of the repository of the folder as the host has it at that
    call, and [undefined] without a repository, a head or a name. No call
    changes the cache again. *)
Theorem git_looked_up_once host uri :
  let s1 := state_after (Git.getGitBranch host uri) Git.initial in
  Git.gitLookedUp s1 = true
  ∧ Git.gitAPI s1 = bool_decide (Git.lookup host = Git.Api)
  ∧ (∀ host' uri',
       Git.getGitBranch host' uri' s1
       = (Ok (if Git.gitAPI s1
              then Git.getRepository host' uri'
                     ≫= λ repo, Git.HEAD repo ≫= Git.branch_name
              else None),
          s1))
  ∧ (Git.lookup host ≠ Git.Api →
     ∀ host' uri', Git.getGitBranch host' uri' s1 = (Ok None, s1)).
Proof.
  intros s1.
  assert (s1 = Git.mkCache true (bool_decide (Git.lookup host = Git.Api))) as Hs1.
  { unfold s1, state_after, Git.getGitBranch, Git.getGitAPI, bind. simpl.
    destruct (Git.lookup host); simpl; [done|done|].
    by destruct (Git.getRepository host uri). }
  assert (∀ host' uri',
            Git.getGitBranch host' uri' s1
            = (Ok (if Git.gitAPI s1
                   then Git.getRepository host' uri'
                          ≫= λ repo, Git.HEAD repo ≫= Git.branch_name
                   else None),
               s1)) as Hlater.
  { intros host' uri'. rewrite Hs1.
    unfold Git.getGitBranch, Git.getGitAPI, bind. simpl.
    destruct (bool_decide (Git.lookup host = Git.Api)); [|done].
    by destruct (Git.getRepository host' uri'). }
  split; [by rewrite Hs1|]. split; [by rewrite Hs1|]. split; [exact Hlater|].
  intros Hne host' uri'. rewrite Hlater, Hs1. simpl.
  by rewrite bool_decide_eq_false_2.
Qed.

(** The first document is saved before the Git extension is ready; the
    branch is not reported then, nor later when the extension is there. *)
Example git_never_retried :
  let host1 := Git.mkHost Git.Fails (λ _, None) in
  let host2 :=
    Git.mkHost Git.Api
      (λ _, Some (Git.mkRepository (Some (Git.mkBranch (Some "main"))))) in
  let s1 := state_after (Git.getGitBranch host1 "file:///X") Git.initial in
  value_of (Git.getGitBranch host2 "file:///X") Git.initial = Ok (Some "main")
  ∧ value_of (Git.getGitBranch host2 "file:///X") s1 = Ok None.
Proof. split; reflexivity. Qed.

(** ** The first manager *)

Section first.
Import First.

Lemma first_put_lookup now ws e m :
  store (put now ws e m) !! dateString now ≫= (λ d, projects d !! name ws) = Some e.
Proof. unfold put; simpl. rewrite lookup_insert_eq; simpl. by rewrite lookup_insert_eq. Qed.

Lemma first_put_other now ws e m day q :
  (day, q) ≠ (dateString now, name ws) →
  store (put now ws e m) !! day ≫= (λ d, projects d !! q)
  = store m !! day ≫= (λ d, projects d !! q).
Proof.
  intros Hne. unfold put; simpl.
  destruct (decide (day = dateString now)) as [->|Hday].
  - rewrite lookup_insert_eq; simpl. rewrite lookup_insert_ne by congruence.
    by destruct (store m !! dateString now).
  - by rewrite lookup_insert_ne.
Qed.

Lemma first_put_id now ws e m :
  getProjectDetails now ws m = Some e → put now ws e m = m.
Proof.
  unfold getProjectDetails, put. intros He.
  destruct (store m !! dateString now) as [[ps]|] eqn:Hday; [|done].
  simpl in *. rewrite (insert_id ps) by done. rewrite insert_id by done.
  by destruct m.
Qed.

Lemma first_getProjectDetails_put now ws e m :
  getProjectDetails now ws (put now ws e m) = Some e.
Proof. apply first_put_lookup. Qed.



Lemma first_timed_put now ws e m :
  timed m → is_Some (seconds e) → timed (put now ws e m).
Proof.
  intros Hm He day d q e'. unfold put; simpl.
  destruct (decide (day = dateString now)) as [->|Hday].
  - rewrite lookup_insert_eq. intros [= <-]. simpl.
    destruct (decide (q = name ws)) as [->|Hq].
    + rewrite lookup_insert_eq. by intros [= <-].
    + rewrite lookup_insert_ne by done.
      destruct (store m !! dateString now) as [d0|] eqn:Hd0; simpl; [|done].
      by apply (Hm _ _ _ _ Hd0).
  - rewrite lookup_insert_ne by done. apply Hm.
Qed.

Lemma first_store_trigger m : store (trigger m) = store m.
Proof. unfold trigger. by destruct (changeEvent m). Qed.

Lemma first_timed_getProjectDetails now ws m e :
  timed m → getProjectDetails now ws m = Some e → is_Some (seconds e).
Proof.
  intros Hm. unfold getProjectDetails.
  destruct (store m !! dateString now) as [d|] eqn:Hd; [|done]. simpl.
  by apply (Hm _ _ _ _ Hd).
Qed.

Lemma first_timed_startTracking now ws m : timed m → timed (startTracking now ws m).
Proof.
  intros Hm day d q e. unfold startTracking. rewrite first_store_trigger. apply Hm.
Qed.

Lemma first_timed_addBranch now ws b m : timed m → timed (addBranch now ws b m).
Proof.
  intros Hm. unfold addBranch.
  destruct (getProjectDetails now ws m) as [e|] eqn:He.
  - pose proof (first_timed_getProjectDetails _ _ _ _ Hm He) as Hs.
    case_decide; by apply first_timed_put.
  - apply first_timed_put; [done | by eexists].
Qed.



End first.

(** ** The keys of different days *)

Section calendar.

Import Calendar.

Lemma round_trips_spec n i :
  round_trips n i = true →
  ∀ j, i ≤ j < i + Z.of_nat n →
       from_civil (civil j) = j ∧ in_calendar (civil j) = true.
Proof.
  revert i. induction n as [|n IH]; intros i Hrt j Hj; [lia|].
  cbn [round_trips] in Hrt. cbv zeta in Hrt. apply andb_prop in Hrt as [H1 H2].
  apply andb_prop in H1 as [H1 H3]. apply bool_decide_eq_true in H1.
  destruct (decide (j = i)) as [->|Hne]; [done|].
  apply (IH (i + 1) H2). lia.
Qed.

(** One era of four hundred years, day by day. *)
Lemma round_trips_era : round_trips (Z.to_nat 146097) (-719468) = true.
Proof. vm_compute. reflexivity. Qed.

Lemma civil_shift n k :
  civil (n + 146097 * k)
  = ((civil n).1.1 + 400 * k, (civil n).1.2, (civil n).2).
Proof.
  unfold civil. cbv zeta.
  replace (n + 146097 * k + 719468) with (n + 719468 + k * 146097) by lia.
  rewrite Z.div_add by lia.
  set (z := n + 719468). set (era := z `div` 146097).
  replace (z + k * 146097 - (era + k) * 146097) with (z - era * 146097) by lia.
  set (doe := z - era * 146097).
  cbn [fst snd]. f_equal. f_equal. lia.
Qed.

Lemma from_civil_shift y m d k :
  from_civil (y + 400 * k, m, d) = from_civil (y, m, d) + 146097 * k.
Proof.
  unfold from_civil. cbv zeta.
  set (y' := if decide (m ≤ 2) then y - 1 else y).
  replace (if decide (m ≤ 2) then y + 400 * k - 1 else y + 400 * k)
    with (y' + k * 400) by (unfold y'; case_decide; lia).
  rewrite Z.div_add by lia.
  replace (y' + k * 400 - (y' `div` 400 + k) * 400)
    with (y' - y' `div` 400 * 400) by lia.
  lia.
Qed.

(** Every day lies in some era. *)
Lemma civil_era n :
  ∃ k n0, n = n0 + 146097 * k
          ∧ from_civil (civil n0) = n0 ∧ in_calendar (civil n0) = true.
Proof.
  set (k := (n + 719468) `div` 146097).
  set (n0 := n - 146097 * k).
  assert (-719468 ≤ n0 < -719468 + Z.of_nat (Z.to_nat 146097)) as Hn0.
  { pose proof (Z.mul_div_le (n + 719468) 146097 ltac:(lia)).
    pose proof (Z.mul_succ_div_gt (n + 719468) 146097 ltac:(lia)).
    unfold n0, k. lia. }
  exists k, n0. split; [unfold n0; lia|].
  exact (round_trips_spec _ _ round_trips_era n0 Hn0).
Qed.

(** [from_civil] undoes [civil] on every day. *)
Lemma from_civil_civil n : from_civil (civil n) = n.
Proof.
  destruct (civil_era n) as (k & n0 & -> & Hrt & _).
  rewrite civil_shift. destruct (civil n0) as [[y m] d]. cbn [fst snd].
  rewrite from_civil_shift, Hrt. done.
Qed.

Lemma civil_inj : Inj (=) (=) civil.
Proof.
  intros n1 n2 Heq. by rewrite <- (from_civil_civil n1), Heq, from_civil_civil.
Qed.

Lemma civil_in_calendar n :
  1 ≤ (civil n).1.2 ≤ 12 ∧ 1 ≤ (civil n).2 ≤ 31.
Proof.
  destruct (civil_era n) as (k & n0 & -> & _ & Hin).
  rewrite civil_shift. cbn [fst snd]. unfold in_calendar in Hin.
  apply andb_prop in Hin as [Hm Hd].
  apply bool_decide_eq_true in Hm, Hd. done.
Qed.

(** The decimal digits of a number hold no separator. *)
Lemma lacks_app c a b :
  lacks c a = true → lacks c b = true → lacks c (a +:+ b) = true.
Proof.
  intros Ha Hb. induction a as [|c' a IH]; [done|].
  cbn [lacks String.app] in *. apply andb_prop in Ha as [Hc Ha].
  apply andb_true_intro. split; [done|by apply IH].
Qed.

Lemma lacks_pretty_N_go c x s :
  (∀ d, pretty_N_char d ≠ c) →
  lacks c s = true → lacks c (pretty_N_go x s) = true.
Proof.
  intros Hc. revert s. induction (N.lt_wf_0 x) as [x _ IH]; intros s Hs.
  assert (x = 0 ∨ 0 < x)%N as [->|Hx] by lia.
  - by rewrite pretty_N_go_0.
  - rewrite pretty_N_go_step by done. apply IH; [by apply N.div_lt|].
    cbn [lacks]. rewrite Hs, andb_true_r.
    apply negb_true_iff, bool_decide_eq_false. apply Hc.
Qed.

Lemma lacks_pretty_N c (x : N) :
  (∀ d, pretty_N_char d ≠ c) → c ≠ pretty_N_char 0 → lacks c (pretty x) = true.
Proof.
  intros Hc H0. unfold pretty, pretty_N. case_decide.
  - cbn [lacks]. rewrite andb_true_r.
    apply negb_true_iff, bool_decide_eq_false. by intros <-.
  - by apply lacks_pretty_N_go.
Qed.

Lemma digit_not_slash d : pretty_N_char d ≠ slash.
Proof. unfold pretty_N_char. by repeat case_match. Qed.

Lemma digit_not_dash d : pretty_N_char d ≠ dash.
Proof. unfold pretty_N_char. by repeat case_match. Qed.

Lemma slashless_pretty_Z (z : Z) : lacks slash (pretty z) = true.
Proof.
  destruct z as [|p|p]; [done| |].
  - apply (lacks_pretty_N slash (N.pos p)); [apply digit_not_slash|done].
  - change (pretty (Z.neg p)) with ("-" +:+ pretty (N.pos p)).
    apply lacks_app; [done|].
    apply lacks_pretty_N; [apply digit_not_slash|done].
Qed.

Lemma dashless_pretty_Z (z : Z) : 0 ≤ z → lacks dash (pretty z) = true.
Proof.
  intros Hz. destruct z as [|p|p]; [done| |lia].
  apply (lacks_pretty_N dash (N.pos p)); [apply digit_not_dash|done].
Qed.

(** Two strings that agree, cut at their first separator. *)
Lemma separator_split c a a' r r' :
  lacks c a = true → lacks c a' = true →
  a +:+ String c r = a' +:+ String c r' → a = a' ∧ r = r'.
Proof.
  revert a'. induction a as [|x a IH]; intros [|x' a'] Ha Ha' Heq;
    cbn [String.app lacks] in *.
  - by injection Heq as ->.
  - injection Heq as <- _. apply andb_prop in Ha' as [Hc _].
    by rewrite bool_decide_eq_true_2 in Hc.
  - injection Heq as -> _. apply andb_prop in Ha as [Hc _].
    by rewrite bool_decide_eq_true_2 in Hc.
  - injection Heq as -> Heq. apply andb_prop in Ha as [_ Ha].
    apply andb_prop in Ha' as [_ Ha']. destruct (IH a' Ha Ha' Heq) as [-> ->]. done.
Qed.

Lemma localDay_setDate now k :
  localDay (setDate now (getDate now - k)) = localDay now - k.
Proof.
  unfold localDay, setDate. cbn [getTime getTimezoneOffset].
  replace (getTime now + (getDate now - k - getDate now) * 86400000
           - getTimezoneOffset now * 60000)
    with (getTime now - getTimezoneOffset now * 60000 + (- k) * 86400000) by lia.
  rewrite Z.div_add by lia. lia.
Qed.

(** The key of a day, read off its civil date. *)
Lemma dateString_civil now k :
  dateString now k
  = pretty (civil (localDay now - k)).2 +:+ String slash
      (pretty (civil (localDay now - k)).1.2 +:+ String slash
         (pretty (civil (localDay now - k)).1.1)).
Proof.
  unfold dateString. cbv zeta. unfold getDate at 1, getMonth, getFullYear.
  rewrite !localDay_setDate.
  replace ((civil (localDay now - k)).1.2 - 1 + 1)
    with (civil (localDay now - k)).1.2 by lia.
  done.
Qed.

Lemma dateString_day now now' k k' :
  dateString now k = dateString now' k' → localDay now - k = localDay now' - k'.
Proof.
  rewrite !dateString_civil. intros Heq.
  apply separator_split in Heq as [Hd Heq]; [|apply slashless_pretty_Z..].
  apply separator_split in Heq as [Hm Hy]; [|apply slashless_pretty_Z..].
  apply (inj pretty) in Hd, Hm, Hy. apply civil_inj.
  destruct (civil (localDay now - k)) as [[y m] d],
    (civil (localDay now' - k')) as [[y' m'] d']. cbn [fst snd] in *. congruence.
Qed.

Lemma perday_dateString_civil now k :
  PerDay.dateString now k
  = pretty (civil (localDay now - k)).2 +:+ String dash
      (pretty (civil (localDay now - k)).1.2 +:+ String dash
         (pretty (civil (localDay now - k)).1.1)).
Proof.
  unfold PerDay.dateString. cbv zeta. unfold getDate at 1, getMonth, getFullYear.
  rewrite !localDay_setDate.
  replace ((civil (localDay now - k)).1.2 - 1 + 1)
    with (civil (localDay now - k)).1.2 by lia.
  done.
Qed.

Lemma perday_dateString_day now now' k k' :
  PerDay.dateString now k = PerDay.dateString now' k' →
  localDay now - k = localDay now' - k'.
Proof.
  rewrite !perday_dateString_civil. intros Heq.
  pose proof (civil_in_calendar (localDay now - k)) as [Hm1 Hd1].
  pose proof (civil_in_calendar (localDay now' - k')) as [Hm2 Hd2].
  apply separator_split in Heq as [Hd Heq]; [|apply dashless_pretty_Z; lia..].
  apply separator_split in Heq as [Hm Hy]; [|apply dashless_pretty_Z; lia..].
  apply (inj pretty) in Hd, Hm, Hy. apply civil_inj.
  destruct (civil (localDay now - k)) as [[y m] d],
    (civil (localDay now' - k')) as [[y' m'] d']. cbn [fst snd] in *. congruence.
Qed.

End calendar.

(** X21. A key of the year file names one local day: the keys
    [dateString(k)] computed at one instant and [dateString(k')] computed at
    another are equal exactly when [k] days before the first and [k'] days
    before the second are the same day of the local calendar. So the keys of
    the days before today are pairwise different, and all the instants of
    one local day share their key. *)
Theorem dateString_names_one_day now now' k k' :
  dateString now k = dateString now' k' ↔ localDay now - k = localDay now' - k'.
Proof.
  split; [apply dateString_day|].
  intros Heq. by rewrite !dateString_civil, Heq.
Qed.


(** X24. Per-day variant: a key names one local day, so that each day has a
    file and a manager of its own: the keys [dateString(k)] and
    [dateString(k')], computed at any two instants, are equal exactly when
    they stand for the same day of the local calendar, and [getDays(n)]
    lists [n] different keys. *)
Theorem perday_dateString_names_one_day now now' k k' :
  (PerDay.dateString now k = PerDay.dateString now' k'
   ↔ localDay now - k = localDay now' - k')
  ∧ ∀ n, NoDup (PerDay.getDays now n)
         ∧ length (PerDay.getDays now n) = Z.to_nat n.
Proof.
  split.
  - split; [apply perday_dateString_day|].
    intros Heq. by rewrite !perday_dateString_civil, Heq.
  - intros n. unfold PerDay.getDays. split.
    + apply NoDup_fmap_2; [|apply NoDup_seq].
      intros i j Hij. apply perday_dateString_day in Hij. lia.
    + by rewrite length_fmap, length_seq.
Qed.

(** ** Reports over a period *)

Section period.

Lemma Qsum_app l1 l2 : (Qsum (l1 ++ l2) == Qsum l1 + Qsum l2)%Q.
Proof.
  induction l1 as [|q l1 IH]; simpl; [by rewrite Qplus_0_l|].
  by rewrite IH, Qplus_assoc.
Qed.

Lemma Qsum_cons q l : Qsum (q :: l) = (q + Qsum l)%Q.
Proof. reflexivity. Qed.

Lemma Qsum_nonneg l : Forall (λ q, 0 <= q)%Q l → (0 <= Qsum l)%Q.
Proof.
  induction 1 as [|q l Hq _ IH]; simpl; [apply Qle_refl|].
  apply (Qplus_le_compat 0 q 0 (Qsum l)); assumption.
Qed.

Lemma Qsum_ext {A} (f g : A → Q) l :
  (∀ x, x ∈ l → (f x == g x)%Q) → (Qsum (f <$> l) == Qsum (g <$> l))%Q.
Proof.
  induction l as [|x l IH]; intros Hfg; simpl; [reflexivity|].
  rewrite (Hfg x), IH; [reflexivity| |].
  - intros y Hy. apply Hfg. by right.
  - by left.
Qed.

Lemma secondsSize_same now : (secondsSize now now == 0)%Q.
Proof. unfold secondsSize. by rewrite Z.sub_diag. Qed.

Lemma secondsSize_started now start :
  getTime start ≤ getTime now → (0 <= secondsSize now start)%Q.
Proof. intros Hle. unfold secondsSize, Qle. simpl. lia. Qed.

(** The seconds that a query reports for [p] on [day]: those on record and
    the share of the session in progress. *)
Lemma reported_seconds now m day p :
  completeStore (store m) →
  (default 0 (reported now m day p ≫= seconds)
   == recordedSeconds (store m) day p + liveShare now m day p)%Q.
Proof.
  intros Hc. unfold reported, recordedSeconds, liveShare.
  destruct (projectsAt (store m) day !! p) as [e|] eqn:He; simpl.
  - destruct (completeStore_entry _ _ _ _ Hc He) as (_ & _ & _ & [s Hs]).
    case_decide; simpl.
    + unfold liveSeconds. destruct (activeProjects m !! p); simpl; rewrite Hs; simpl.
      * reflexivity.
      * by rewrite Qplus_0_r.
    + rewrite Hs. simpl. by rewrite Qplus_0_r.
  - case_decide; by rewrite Qplus_0_r.
Qed.

Lemma liveShare_nonneg now m day p :
  startedBy now m → (0 <= liveShare now m day p)%Q.
Proof.
  intros Hs. unfold liveShare. case_decide; [|apply Qle_refl].
  destruct (projectsAt (store m) day !! p); [|apply Qle_refl].
  destruct (activeProjects m !! p) as [start|] eqn:Hstart; [|apply Qle_refl].
  apply secondsSize_started. exact (Hs p start Hstart).
Qed.

(** The seconds of a period of [n] days are those reported for its days. *)
Lemma period_seconds now m p n :
  0 < n → completeStore (store m) →
  ∃ d s,
    getStatsForPeriod now p n m = Ok d
    ∧ seconds d = Some s
    ∧ (s == periodSum seconds now m p (Z.to_nat n))%Q.
Proof.
  intros Hn Hc. unfold getStatsForPeriod. rewrite getDays_positive by done.
  change freshDetails with
    (mkDetails (Some (Set_of [])) (Some 0%Q) (Some 0%Q) (Some 0%Q)).
  destruct (sumDays_spec now m p (dayKey now <$> seq 0 (Z.to_nat n)) [] 0%Q 0%Q 0%Q Hc)
    as (t & d & s & -> & _ & _ & Hs).
  rewrite <- list_fmap_compose in Hs. rewrite Qplus_0_l in Hs.
  eexists _, s. split; [reflexivity|]. split; [reflexivity|]. exact Hs.
Qed.

Lemma periodSum_nonneg now m p i k :
  completeStore (store m) → nonnegStore (store m) → startedBy now m →
  (0 <= Qsum ((λ i, default 0%Q (reported now m (dayKey now i) p ≫= seconds))
               <$> seq i k))%Q.
Proof.
  intros Hc Hn Hs. apply Qsum_nonneg, Forall_fmap, Forall_forall. intros j _.
  simpl. rewrite reported_seconds by done.
  apply (Qplus_le_compat 0 _ 0 _); [apply Hn | by apply liveShare_nonneg].
Qed.

Lemma nonnegEntries_store f : nonnegEntries f → nonnegStore f.
Proof.
  intros Hf day p. unfold recordedSeconds, projectsAt.
  destruct (days f !! day) as [d|] eqn:Hd; simpl;
    [|rewrite lookup_empty; apply Qle_refl].
  destruct (default ∅ (projects d) !! p) as [e|] eqn:He; simpl; [|apply Qle_refl].
  apply Qle_bool_iff. exact (Hf day d Hd p e He).
Qed.

Lemma dayKey_today now i : dayKey now i = dateString now 0 → i = O.
Proof. unfold dayKey. intros Heq. apply dateString_day in Heq. lia. Qed.

End period.





(** A session without an entry in today's ledger: the thirty seconds appear
    with the heartbeat. *)
Example heartbeat_shows_unreported :
  match getStatsForPeriod (Scenario.after 30) "X" 1 Scenario.A1,
        getStatsForPeriod (Scenario.after 30) "X" 1
          (state_after (updateAllDaySeconds (Scenario.after 30)) Scenario.A1) with
  | Ok d, Ok d' =>
      (default 0 (seconds d) == 0)%Q ∧ (default 0 (seconds d') == 30)%Q
  | _, _ => False
  end.
Proof. vm_compute. split; reflexivity. Qed.
